(** * Hitcastor API: the resolution workflow, embedded and verified

    A shallow embedding of the resolution core of the Hitcastor API
    (rank extraction, outcome computation, evidence hashing, the commitment
    encoder and the prepare / commit / finalize jobs) together with the
    properties the design document states about it.

    Conventions.
    - A JavaScript [number] that holds a rank, an outcome or a count is a
      [Z]; a point in time ([Date], [Date.now()]) is a [Z] of milliseconds.
    - A JavaScript string is a [string]: the sequence of its UTF-8 bytes.
    - The BIGINT keys of the tables (market id, snapshot id), which the
      driver hands over in decimal notation, are [Z].
    - [undefined] / [null] in an optional field is [None].
    - viem's [encodePacked] and the three library functions of [Platform]
      are not code of the repository: the first is written out after the
      packed mode of the Solidity ABI, the others are parameters. *)

From Stdlib Require Import ZArith String Ascii List Bool Lia DecimalString.
From Stdlib Require Strings.Byte.
From Stdlib Require Import Init.Byte.
From stdpp Require Import gmap strings list.

Local Open Scope string_scope.
Local Open Scope Z_scope.
#[local] Set Warnings "-register-all".

(** ** JavaScript strings *)

Module JsString.

(** [s.slice(n)] for [0 <= n]: the string without its first [n] units. *)
Fixpoint drop (n : nat) (s : string) : string :=
  match n, s with
  | O, _ => s
  | S _, EmptyString => EmptyString
  | S n', String _ s' => drop n' s'
  end.

(** [s.startsWith(pat)]. *)
Fixpoint startsWith (pat s : string) : bool :=
  match pat, s with
  | EmptyString, _ => true
  | String _ _, EmptyString => false
  | String a pat', String b s' => Ascii.eqb a b && startsWith pat' s'
  end.

(** [s.replace(pat, rep)] for a string pattern [pat] and a replacement
    without [$] patterns: the first occurrence of [pat], wherever it is,
    is replaced; a string without occurrence is returned as it is. *)
Fixpoint replace (pat rep s : string) : string :=
  if startsWith pat s then rep +:+ drop (String.length pat) s
  else match s with
       | EmptyString => EmptyString
       | String c s' => String c (replace pat rep s')
       end.

(** [s.includes(pat)]. *)
Fixpoint includes (pat s : string) : bool :=
  startsWith pat s ||
  match s with
  | EmptyString => false
  | String _ s' => includes pat s'
  end.

(** ASCII part of [toLowerCase] on one unit. *)
Definition lower (c : ascii) : ascii :=
  let n := N_of_ascii c in
  if ((65 <=? n) && (n <=? 90))%N then ascii_of_N (n + 32) else c.

(** [s.toLowerCase()]; the units above ASCII are left as they are. *)
Fixpoint toLowerCase (s : string) : string :=
  match s with
  | EmptyString => EmptyString
  | String c s' => String (lower c) (toLowerCase s')
  end.

(** [s.toUpperCase()], ASCII part. *)
Definition upper (c : ascii) : ascii :=
  let n := N_of_ascii c in
  if ((97 <=? n) && (n <=? 122))%N then ascii_of_N (n - 32) else c.

Fixpoint toUpperCase (s : string) : string :=
  match s with
  | EmptyString => EmptyString
  | String c s' => String (upper c) (toUpperCase s')
  end.

End JsString.

(** ** lib/rank.ts *)

Module Rank.

Record Item := mkItem {
  rank : Z;
  title : string;
  artist : string;
  streams : Z;
  trackId : string;
  spotifyUrl : string;
}.

Record SpotifySnapshot := mkSnapshot {
  schema : string;
  dateUTC : string;
  region : string;
  provider : string;
  listLength : Z;
  items : list Item;
}.

Definition TRACK_URI : string := "spotify:track:".

(** [id.replace('spotify:track:', '')]. *)
Definition clean (id : string) : string := JsString.replace TRACK_URI "" id.

(** The [for ... of] loop of [extractRankBySongId] with its early
    [return], and the [return 101] that follows the loop. *)
Fixpoint scanItems (cleanSongId : string) (its : list Item) : Z :=
  match its with
  | [] => 101
  | item :: rest =>
      let itemTrackId := clean (trackId item) in
      if String.eqb itemTrackId cleanSongId then rank item
      else scanItems cleanSongId rest
  end.

Definition extractRankBySongId (snapshot : SpotifySnapshot) (songId : string) : Z :=
  let cleanSongId := clean songId in
  scanItems cleanSongId (items snapshot).

Definition YES : Z := 1.
Definition NO : Z := 2.

Definition computeOutcome (t0Rank t1Rank : Z) : Z :=
  if t1Rank <? t0Rank then 1 (* YES *) else 2 (* NO *).

End Rank.

(** The decimal notation of an integer, as a template literal renders it. *)
Definition decimal (z : Z) : string := NilZero.string_of_int (Z.to_int z).

(** ** Exceptions

    One constructor per [throw] of the modelled code, carrying the data of
    its message, and one per failure of a library call. *)

Inductive Error : Type :=
| TypeError                                   (* property read on null / undefined *)
| SyntaxError                                 (* JSON.parse *)
| MarketNotFound (marketId : Z)               (* `Market ${marketId} not found` *)
| NoSnapshotFound (date region : string)      (* `No snapshot found for ${date} ${region}` *)
| FetchRejected (url : string)                (* fetch() itself rejected *)
| FetchFailed (url : string) (status : Z)     (* `Failed to fetch ${url}: ${status} ...` *)
| HashVerificationFailed (url expected got : string)
| InvalidSnapshotSchema                       (* 'Invalid snapshot schema' *)
| ResolutionNotPrepared (marketId : Z)        (* `Resolution not prepared for market ...` *)
| ResolutionNotCommitted (marketId : Z)       (* `Resolution not committed for market ...` *)
| MissingSnapshotEvidence (marketId : Z)      (* `Missing snapshot evidence for market ...` *)
| DisputeWindowActive (disputeUntil : Z)      (* `Dispute window active until ...` *)
| NoWalletAccount                             (* 'No wallet account configured' *)
| AbiEncodingError                            (* viem: value outside its declared type *)
| ChainError (message : string)               (* viem: the RPC call or the contract failed *)
| DatabaseError (message : string).           (* pg: a constraint of the schema failed *)

Inductive Exc (A : Type) : Type :=
| Ok (a : A)
| Throw (e : Error).
Arguments Ok {A} a.
Arguments Throw {A} e.

Definition exc_bind {A B} (m : Exc A) (f : A -> Exc B) : Exc B :=
  match m with
  | Ok a => f a
  | Throw e => Throw e
  end.

(** [a && b] where either side may throw: [b] is evaluated only when [a]
    is [true]. *)
Definition exc_and (a b : Exc bool) : Exc bool :=
  match a with
  | Ok true => b
  | other => other
  end.

(** ** JSON documents and [validateSnapshotSchema] (lib/rank.ts) *)

Module Json.

Inductive json : Type :=
| JNull
| JBool (b : bool)
| JNum (n : Z)
| JStr (s : string)
| JArr (elems : list json)
| JObj (props : list (string * json)).

(** The own property [k] of a parsed object. *)
Fixpoint lookup (k : string) (props : list (string * json)) : option json :=
  match props with
  | [] => None
  | (k', v) :: rest => if String.eqb k k' then Some v else lookup k rest
  end.

(** [v.k]: a [TypeError] on [null]; [undefined] ([None]) on a value that
    has no such property. None of the property names read below is a
    built-in property of a number, a string, a boolean or an array. *)
Definition getProp (v : json) (k : string) : Exc (option json) :=
  match v with
  | JNull => Throw TypeError
  | JObj props => Ok (lookup k props)
  | _ => Ok None
  end.

Inductive jstype := TUndefined | TObject | TBoolean | TNumber | TString.

Definition typeof (v : option json) : jstype :=
  match v with
  | None => TUndefined
  | Some JNull => TObject
  | Some (JBool _) => TBoolean
  | Some (JNum _) => TNumber
  | Some (JStr _) => TString
  | Some (JArr _) => TObject
  | Some (JObj _) => TObject
  end.

Definition jstype_eqb (a b : jstype) : bool :=
  match a, b with
  | TUndefined, TUndefined | TObject, TObject | TBoolean, TBoolean
  | TNumber, TNumber | TString, TString => true
  | _, _ => false
  end.

(** [typeof v.k === t]. *)
Definition propHasType (v : json) (k : string) (t : jstype) : Exc bool :=
  exc_bind (getProp v k) (fun p => Ok (jstype_eqb (typeof p) t)).

(** [arr.every(f)]: stops at the first element on which [f] is not true. *)
Fixpoint every (f : json -> Exc bool) (l : list json) : Exc bool :=
  match l with
  | [] => Ok true
  | x :: rest =>
      match f x with
      | Ok true => every f rest
      | other => other
      end
  end.

Definition SCHEMA_TAG : string := "hitcastor.spotify.top100.v1".

(** The callback of [data.items.every(...)]. *)
Definition validItem (item : json) : Exc bool :=
  exc_and (propHasType item "rank" TNumber)
  (exc_and (propHasType item "title" TString)
  (exc_and (propHasType item "artist" TString)
  (exc_and (propHasType item "streams" TNumber)
  (exc_and (propHasType item "trackId" TString)
           (propHasType item "spotifyUrl" TString))))).

Definition validateSnapshotSchema (data : json) : Exc bool :=
  exc_and (Ok (jstype_eqb (typeof (Some data)) TObject))
  (exc_and (exc_bind (getProp data "schema") (fun p =>
              Ok match p with
                 | Some (JStr s) => String.eqb s SCHEMA_TAG
                 | _ => false
                 end))
  (exc_and (propHasType data "dateUTC" TString)
  (exc_and (propHasType data "region" TString)
  (exc_and (propHasType data "provider" TString)
  (exc_and (propHasType data "listLength" TNumber)
  (exc_bind (getProp data "items") (fun p =>
     match p with
     | Some (JArr elems) => every validItem elems     (* Array.isArray && every *)
     | _ => Ok false
     end))))))).

(** The document read at the type [SpotifySnapshot] that the type guard
    [data is SpotifySnapshot] gives it. *)
Definition asItem (item : json) : option Rank.Item :=
  match item with
  | JObj props =>
      match lookup "rank" props, lookup "title" props, lookup "artist" props,
            lookup "streams" props, lookup "trackId" props, lookup "spotifyUrl" props with
      | Some (JNum r), Some (JStr t), Some (JStr a), Some (JNum st), Some (JStr id), Some (JStr u) =>
          Some (Rank.mkItem r t a st id u)
      | _, _, _, _, _, _ => None
      end
  | _ => None
  end.

Fixpoint asItems (elems : list json) : option (list Rank.Item) :=
  match elems with
  | [] => Some []
  | e :: rest =>
      match asItem e, asItems rest with
      | Some i, Some is' => Some (i :: is')
      | _, _ => None
      end
  end.

Definition asSnapshot (data : json) : option Rank.SpotifySnapshot :=
  match data with
  | JObj props =>
      match lookup "schema" props, lookup "dateUTC" props, lookup "region" props,
            lookup "provider" props, lookup "listLength" props, lookup "items" props with
      | Some (JStr sc), Some (JStr d), Some (JStr r), Some (JStr p), Some (JNum n), Some (JArr elems) =>
          match asItems elems with
          | Some its => Some (Rank.mkSnapshot sc d r p n its)
          | None => None
          end
      | _, _, _, _, _, _ => None
      end
  | _ => None
  end.

End Json.

(** ** Bytes and hexadecimal text *)

Module Hex.

Abbreviation bytes := (list byte).

Definition byteOfN (n : N) : byte :=
  match Byte.of_N (n mod 256) with
  | Some b => b
  | None => Byte.x00
  end.

(** One lower-case hexadecimal digit, for [n < 16]. *)
Definition digit (n : N) : ascii :=
  if (n <? 10)%N then ascii_of_N (48 + n) else ascii_of_N (87 + n).

(** [buffer.toString('hex')] / [hash.digest('hex')]: two lower-case digits
    per byte. *)
Fixpoint encode (bs : bytes) : string :=
  match bs with
  | [] => EmptyString
  | b :: rest =>
      let n := Byte.to_N b in
      String (digit (n / 16)) (String (digit (n mod 16)) (encode rest))
  end.

(** The value of a hexadecimal digit of either case. *)
Definition nibble (c : ascii) : option N :=
  let n := N_of_ascii c in
  if ((48 <=? n) && (n <=? 57))%N then Some (n - 48)%N
  else if ((97 <=? n) && (n <=? 102))%N then Some (n - 87)%N
  else if ((65 <=? n) && (n <=? 70))%N then Some (n - 55)%N
  else None.

(** The bytes that an even number of hexadecimal digits denote; [None] on
    a character that is no digit or on an odd number of them. *)
Fixpoint decode (s : string) : option bytes :=
  match s with
  | EmptyString => Some []
  | String _ EmptyString => None
  | String hi (String lo rest) =>
      match nibble hi, nibble lo, decode rest with
      | Some h, Some l, Some bs => Some (byteOfN (h * 16 + l) :: bs)
      | _, _, _ => None
      end
  end.

(** Big-endian, [size] bytes: viem's [numberToHex(value, { size })] for a
    value in range. *)
Fixpoint bigEndian (size : nat) (z : Z) : bytes :=
  match size with
  | O => []
  | S size' => (bigEndian size' (z / 256) ++ [byteOfN (Z.to_N (z mod 256))])%list
  end.

End Hex.

(** ** The platform

    The library functions the code calls and this development does not
    define: the two digests and the JSON parser. Every theorem below holds
    for whatever functions stand here. *)

Record Platform := mkPlatform {
  sha256_digest : Hex.bytes -> Hex.bytes;       (* crypto.createHash('sha256') *)
  keccak_256 : Hex.bytes -> Hex.bytes;          (* viem's keccak256, on bytes *)
  JSON_parse : Hex.bytes -> Exc Json.json;      (* JSON.parse(buffer.toString('utf8')) *)
}.

(** ** lib/hash.ts: the pure part *)

Module Hash.
Section WithPlatform.
Context (P : Platform).

Definition sha256 (input : Hex.bytes) : string :=
  "0x" +:+ Hex.encode (sha256_digest P input).

Definition verifyHash (data : Hex.bytes) (expectedHash : string) : bool :=
  let computedHash := sha256 data in
  String.eqb (JsString.toLowerCase computedHash) (JsString.toLowerCase expectedHash).

End WithPlatform.
End Hash.

(** ** chain/viem.ts: the commitment encoder *)

Module Abi.

(** The Solidity types that [computeCommitment] names. *)
Inductive abiType := uint (bits : nat) | string_t | bytesN (n : nat).

(** The JavaScript values it passes: a number or bigint, a string, and a
    string asserted to be hexadecimal text ([as `0x${string}`]). *)
Inductive abiValue := VInt (z : Z) | VStr (s : string) | VHex (s : string).

(** viem's [encodePacked] on one value: the value in place, with no
    padding and, for a string, no length.
    - [uintN]: [N/8] bytes, big-endian; an [IntegerOutOfRangeError] outside
      [0 .. 2^N - 1].
    - [string]: its UTF-8 bytes, nothing else.
    - [bytesN]: the [N] bytes the text denotes; a [BytesSizeMismatchError]
      unless the text has [2 + 2N] characters. viem looks at the length
      only: what it makes of text of that length that is not ["0x"]
      followed by hexadecimal digits, which the asserted type excludes, is
      left to its reader of hexadecimal text and is not modelled. Such
      text is rejected here, and the statements below about packed bytes
      are about digests of the asserted form. *)
Definition encode (t : abiType) (v : abiValue) : Exc Hex.bytes :=
  match t, v with
  | uint bits, VInt z =>
      if (0 <=? z) && (z <? 2 ^ Z.of_nat bits)
      then Ok (Hex.bigEndian (Nat.div bits 8) z)
      else Throw AbiEncodingError
  | string_t, VStr s => Ok (list_byte_of_string s)
  | bytesN n, VHex s =>
      if Nat.eqb (String.length s) (2 + 2 * n)
      then match s with
           | String "0" (String "x" digits) =>
               match Hex.decode digits with
               | Some bs => Ok bs
               | None => Throw AbiEncodingError
               end
           | _ => Throw AbiEncodingError
           end
      else Throw AbiEncodingError
  | _, _ => Throw AbiEncodingError
  end.

(** [encodePacked(types, values)]: the concatenation of the encodings, in
    order; an [AbiEncodingLengthMismatchError] when the lists differ in
    length. *)
Fixpoint encodePacked (types : list abiType) (values : list abiValue) : Exc Hex.bytes :=
  match types, values with
  | [], [] => Ok []
  | t :: types', v :: values' =>
      exc_bind (encode t v) (fun b =>
      exc_bind (encodePacked types' values') (fun rest => Ok (b ++ rest)%list))
  | _, _ => Throw AbiEncodingError
  end.

(** The integer types of whole bytes, which are the ones Solidity has. *)
Definition wholeBytes (t : abiType) : Prop :=
  match t with
  | uint bits => Nat.modulo bits 8 = 0%nat
  | _ => True
  end.

(** Two values of a type that are different data: different numbers,
    different strings, texts that denote different bytes. *)
Definition differ (t : abiType) (v v' : abiValue) : Prop :=
  match t, v, v' with
  | uint _, VInt z, VInt z' => z <> z'
  | string_t, VStr s, VStr s' => s <> s'
  | bytesN _, VHex s, VHex s' => encode t v <> encode t v'
  | _, _, _ => False
  end.

End Abi.

Module Chain.

Record Evidence := mkEvidence {
  csvUrl : string;
  csvSha256 : string;
  jsonUrl : string;
  jsonSha256 : string;
  ipfsCid : string;
}.

Definition commitmentTypes : list Abi.abiType :=
  [Abi.uint 256; Abi.uint 16; Abi.uint 16; Abi.uint 8;
   Abi.string_t; Abi.bytesN 32; Abi.string_t; Abi.bytesN 32; Abi.string_t;
   Abi.string_t; Abi.bytesN 32; Abi.string_t; Abi.bytesN 32; Abi.string_t;
   Abi.uint 256].

Definition commitmentValues (marketId t0Rank t1Rank outcome : Z)
    (t0Evidence t1Evidence : Evidence) (nonce : Z) : list Abi.abiValue :=
  [Abi.VInt marketId; Abi.VInt t0Rank; Abi.VInt t1Rank; Abi.VInt outcome;
   Abi.VStr (csvUrl t0Evidence); Abi.VHex (csvSha256 t0Evidence);
   Abi.VStr (jsonUrl t0Evidence); Abi.VHex (jsonSha256 t0Evidence);
   Abi.VStr (ipfsCid t0Evidence);
   Abi.VStr (csvUrl t1Evidence); Abi.VHex (csvSha256 t1Evidence);
   Abi.VStr (jsonUrl t1Evidence); Abi.VHex (jsonSha256 t1Evidence);
   Abi.VStr (ipfsCid t1Evidence);
   Abi.VInt nonce].

(** The byte sequence that is hashed. *)
Definition packed (marketId t0Rank t1Rank outcome : Z)
    (t0Evidence t1Evidence : Evidence) (nonce : Z) : Exc Hex.bytes :=
  Abi.encodePacked commitmentTypes
    (commitmentValues marketId t0Rank t1Rank outcome t0Evidence t1Evidence nonce).

Section WithPlatform.
Context (P : Platform).

(** [keccak256(hex)]: the digest of the bytes, as ["0x"] and lower-case
    hexadecimal digits. *)
Definition keccak256 (b : Hex.bytes) : string :=
  "0x" +:+ Hex.encode (keccak_256 P b).

Definition computeCommitment (marketId : Z) (t0Rank t1Rank outcome : Z)
    (t0Evidence t1Evidence : Evidence) (nonce : Z) : Exc string :=
  exc_bind (packed marketId t0Rank t1Rank outcome t0Evidence t1Evidence nonce)
    (fun packed => Ok (keccak256 packed)).

End WithPlatform.
End Chain.

(** ** db/index.ts: the rows *)

Module Market.
Record t := mk {
  id : Z;
  marketId : Z;
  songId : string;
  title : option string;
  artist : option string;
  quoteToken : string;
  ammAddress : Hex.bytes;
  yesToken : Hex.bytes;
  noToken : Hex.bytes;
  t0Rank : Z;
  cutoffUtc : Z;
  status : string;
  createdAt : Z;
}.
End Market.

Module Snapshot.
Record t := mk {
  id : Z;
  dateUtc : string;
  region : string;
  jsonUrl : string;
  jsonSha256 : string;
  csvUrl : option string;
  csvSha256 : option string;
  ipfsCid : option string;
  createdAt : Z;
}.
End Snapshot.

(** A row of [resolutions], without its key [marketId]. The same record
    is the [Partial<Resolution>] handed to [upsertResolution]: there a
    field that is [None] is a key the object does not have. *)
Module Resolution.
Record t := mk {
  t0SnapshotId : option Z;
  t1SnapshotId : option Z;
  t0Rank : option Z;
  t1Rank : option Z;
  outcome : option Z;
  commitTx : option string;
  committedAt : option Z;
  disputeUntil : option Z;
  finalizeTx : option string;
  finalizedAt : option Z;
}.

(** [DO UPDATE SET col = $i] for the keys of the patch: a column the patch
    names takes the new value, the others keep theirs. *)
Definition over {A} (new old : option A) : option A :=
  match new with
  | Some v => Some v
  | None => old
  end.

Definition merge (patch old : t) : t :=
  mk (over (t0SnapshotId patch) (t0SnapshotId old))
     (over (t1SnapshotId patch) (t1SnapshotId old))
     (over (t0Rank patch) (t0Rank old))
     (over (t1Rank patch) (t1Rank old))
     (over (outcome patch) (outcome old))
     (over (commitTx patch) (commitTx old))
     (over (committedAt patch) (committedAt old))
     (over (disputeUntil patch) (disputeUntil old))
     (over (finalizeTx patch) (finalizeTx old))
     (over (finalizedAt patch) (finalizedAt old)).

(** A patch is the object that [upsertResolution] is passed, without its
    [marketId]: the fields it names, each with its value. The calls in the
    code name every field with a value, and a field that is named with
    [null] or [undefined] is not represented. *)
Definition isSet {A} (field : option A) : bool :=
  match field with
  | Some _ => true
  | None => false
  end.

(** [Object.keys(resolution).filter(k => k !== 'marketId')] is empty: the
    patch names no field. *)
Definition namesNoField (patch : t) : bool :=
  negb (isSet (t0SnapshotId patch) || isSet (t1SnapshotId patch)
        || isSet (t0Rank patch) || isSet (t1Rank patch) || isSet (outcome patch)
        || isSet (commitTx patch) || isSet (committedAt patch) || isSet (disputeUntil patch)
        || isSet (finalizeTx patch) || isSet (finalizedAt patch)).
End Resolution.

(** JavaScript truthiness of an optional string and of an optional number. *)
Definition truthyStr (o : option string) : bool :=
  match o with
  | Some s => negb (String.eqb s "")
  | None => false
  end.

Definition truthyNum (o : option Z) : bool :=
  match o with
  | Some z => negb (z =? 0)
  | None => false
  end.

(** [s || d] on an optional string. *)
Definition orElse (o : option string) (d : string) : string :=
  if truthyStr o then default d o else d.

(** ** The world outside the process *)

Inductive ContractCall : Type :=
| CommitResolve (marketId : Z) (commitment : string) (evidence : Chain.Evidence)
| FinalizeResolve (marketId : Z) (outcome t0Rank t1Rank : option Z)
    (t0Evidence t1Evidence : Chain.Evidence) (nonce : Z).

(** What [writeContract] did with a call: it threw before anything left
    the process (the arguments do not encode, the node refused), it sent
    the transaction and returned its hash, or it sent the transaction and
    failed before it could return the hash. *)
Inductive WriteResult : Type :=
| NotSent (message : string)
| Sent (txHash : string)
| SentThenFailed (message : string).

Inductive SlackDetails : Type :=
| JobFailure (marketId : Z) (error : Error) (timestamp : Z)
| ResolutionSuccess (marketId : Z) (outcome : string) (stage : string) (timestamp : Z).

(** What [sendSlackAlert] is called with; the posted text is the message
    followed by the details as JSON. *)
Record SlackAlert := mkAlert {
  text : string;
  details : option SlackDetails;
}.

Inductive FetchResult : Type :=
| Rejected                                          (* no response *)
| Response (ok : bool) (status : Z) (body : Hex.bytes).

(** The configuration read from the process environment (env.ts). *)
Record Config := mkConfig {
  SLACK_WEBHOOK_URL : option string;
  PRIVATE_KEY : option string;
}.

(** What the outside answers: the wall clock at its successive readings,
    the evidence host, and the chain, whose answer may depend on the
    transactions it has received before. *)
Record Env := mkEnv {
  clock : nat -> Z;
  http : string -> FetchResult;
  chainWrite : list ContractCall -> ContractCall -> WriteResult;
  chainDisputeWindow : list ContractCall -> option Z;   (* [None]: the read failed *)
}.

(** The state shared by every execution: the three tables, the number of
    clock readings so far, the transactions sent to the chain, the
    alerts posted to the webhook and the warnings on the console. *)
Record World := mkWorld {
  markets : list Market.t;
  snapshots : list Snapshot.t;
  resolutions : gmap Z Resolution.t;
  ticks : nat;
  chainLog : list ContractCall;
  slackOutbox : list SlackAlert;
  consoleWarnings : list string;
}.

Definition setResolutions (rs : gmap Z Resolution.t) (w : World) : World :=
  mkWorld (markets w) (snapshots w) rs (ticks w) (chainLog w) (slackOutbox w) (consoleWarnings w).
Definition tick (w : World) : World :=
  mkWorld (markets w) (snapshots w) (resolutions w) (S (ticks w)) (chainLog w) (slackOutbox w) (consoleWarnings w).
Definition submit (c : ContractCall) (w : World) : World :=
  mkWorld (markets w) (snapshots w) (resolutions w) (ticks w) (chainLog w ++ [c]) (slackOutbox w) (consoleWarnings w).
Definition post (a : SlackAlert) (w : World) : World :=
  mkWorld (markets w) (snapshots w) (resolutions w) (ticks w) (chainLog w) (slackOutbox w ++ [a]) (consoleWarnings w).
Definition warn (m : string) (w : World) : World :=
  mkWorld (markets w) (snapshots w) (resolutions w) (ticks w) (chainLog w) (slackOutbox w) (consoleWarnings w ++ [m]).

(** ** Effects

    Every [await] of the modelled code on something outside the process,
    and every reading of the clock, is one effect; what runs between two
    of them runs without interruption. *)

Inductive Eff : Type -> Type :=
| QueryMarket (marketId : Z) : Eff (option Market.t)
| QuerySnapshot (id : Z) : Eff (option Snapshot.t)
| QuerySnapshotByDate (dateUtc region : string) : Eff (option Snapshot.t)
| QueryResolution (marketId : Z) : Eff (option Resolution.t)
| UpsertResolution (marketId : Z) (patch : Resolution.t) : Eff (Exc unit)
| Fetch (url : string) : Eff FetchResult
| DateNow : Eff Z
| WriteContract (call : ContractCall) : Eff (Exc string)
| ReadDisputeWindow : Eff (Exc Z)
| PostWebhook (url : string) (payload : SlackAlert) : Eff unit
| ConsoleWarn (message : string) : Eff unit.

Inductive Prog (R : Type) : Type :=
| Ret (r : R)
| Vis {X : Type} (e : Eff X) (k : X -> Prog R).
Arguments Ret {R} r.
Arguments Vis {R X} e k.

(** An [async] function that may throw. *)
Definition Job (A : Type) : Type := Prog (Exc A).

Fixpoint bind {A B} (m : Job A) (f : A -> Job B) : Job B :=
  match m with
  | Ret (Ok a) => f a
  | Ret (Throw e) => Ret (Throw e)
  | Vis e k => Vis e (fun x => bind (k x) f)
  end.

(** [try { m } catch (error) { h error }]. *)
Fixpoint tryCatch {A} (m : Job A) (h : Error -> Job A) : Job A :=
  match m with
  | Ret (Ok a) => Ret (Ok a)
  | Ret (Throw e) => h e
  | Vis e k => Vis e (fun x => tryCatch (k x) h)
  end.

Definition ret {A} (a : A) : Job A := Ret (Ok a).
Definition throw {A} (e : Error) : Job A := Ret (Throw e).
(** An effect that cannot fail, and one that reports its failure. *)
Definition perform {X} (e : Eff X) : Job X := Vis e (fun x => Ret (Ok x)).
Definition attempt {X} (e : Eff (Exc X)) : Job X := Vis e (fun x => Ret x).
(** A pure computation that may throw. *)
Definition lift {A} (x : Exc A) : Job A := Ret x.

Notation "'let*' x ':=' m 'in' k" := (bind m (fun x => k))
  (at level 10, x pattern, m at level 100, k at level 200).
Notation "m ';;' k" := (bind m (fun _ => k))
  (at level 100, k at level 200, right associativity).

(** ** The tables (db/index.ts) and their constraints (001_init.sql) *)

Definition isSmallint (o : option Z) : bool :=
  match o with
  | Some z => (-32768 <=? z) && (z <=? 32767)
  | None => true
  end.

Definition findMarket (marketId : Z) (ms : list Market.t) : option Market.t :=
  List.find (fun m => Market.marketId m =? marketId) ms.

Definition findSnapshot (id : Z) (ss : list Snapshot.t) : option Snapshot.t :=
  List.find (fun s => Snapshot.id s =? id) ss.

Definition findSnapshotByDate (dateUtc region : string) (ss : list Snapshot.t) : option Snapshot.t :=
  List.find (fun s => String.eqb (Snapshot.dateUtc s) dateUtc && String.eqb (Snapshot.region s) region) ss.

Definition references (o : option Z) (ss : list Snapshot.t) : bool :=
  match o with
  | Some id => bool_decide (is_Some (findSnapshot id ss))
  | None => true
  end.

(** [INSERT INTO resolutions (market_id, ...) VALUES ($1, ...) ON CONFLICT
    (market_id) DO UPDATE SET ...], with one column, one parameter and one
    assignment per field that the patch names. For a patch that names no
    field the column list ends in a comma and the SET clause is empty: the
    statement does not parse and is refused whatever the tables hold.
    Otherwise it is refused when the row would break a constraint of the
    table: the three SMALLINT columns and the three foreign keys. *)
Definition upsert (marketId : Z) (patch : Resolution.t) (w : World) : Exc unit * World :=
  if Resolution.namesNoField patch then (Throw (DatabaseError "syntax"), w)
  else
  if isSmallint (Resolution.t0Rank patch) && isSmallint (Resolution.t1Rank patch)
     && isSmallint (Resolution.outcome patch)
     && bool_decide (is_Some (findMarket marketId (markets w)))
     && references (Resolution.t0SnapshotId patch) (snapshots w)
     && references (Resolution.t1SnapshotId patch) (snapshots w)
  then
    let row := match resolutions w !! marketId with
               | Some old => Resolution.merge patch old
               | None => patch
               end in
    (Ok tt, setResolutions (<[marketId := row]> (resolutions w)) w)
  else (Throw (DatabaseError "constraint"), w).

(** ** One effect against the world *)

Definition handle (E : Env) {X} (e : Eff X) (w : World) : X * World :=
  match e in Eff X return X * World with
  | QueryMarket marketId => (findMarket marketId (markets w), w)
  | QuerySnapshot id => (findSnapshot id (snapshots w), w)
  | QuerySnapshotByDate d r => (findSnapshotByDate d r (snapshots w), w)
  | QueryResolution marketId => (resolutions w !! marketId, w)
  | UpsertResolution marketId patch => upsert marketId patch w
  | Fetch url => (http E url, w)
  | DateNow => (clock E (ticks w), tick w)
  | WriteContract call =>
      match chainWrite E (chainLog w) call with
      | NotSent message => (Throw (ChainError message), w)
      | Sent txHash => (Ok txHash, submit call w)
      | SentThenFailed message => (Throw (ChainError message), submit call w)
      end
  | ReadDisputeWindow =>
      (match chainDisputeWindow E (chainLog w) with
       | Some seconds => Ok seconds
       | None => Throw (ChainError "disputeWindow")
       end, w)
  | PostWebhook _ payload => (tt, post payload w)
  | ConsoleWarn m => (tt, warn m w)
  end.

(** An execution that nothing interrupts. *)
Fixpoint run (E : Env) {R} (p : Prog R) (w : World) : R * World :=
  match p with
  | Ret r => (r, w)
  | Vis e k => let (x, w') := handle E e w in run E (k x) w'
  end.



(** ** The modelled functions that wait on the outside *)

Section Program.
Context (P : Platform) (cfg : Config).

(** *** lib/hash.ts *)

Definition fetchAndVerifyHash (url expectedHash : string) : Job Hex.bytes :=
  let* response := perform (Fetch url) in
  match response with
  | Rejected => throw (FetchRejected url)
  | Response ok status body =>
      if negb ok then throw (FetchFailed url status)
      else
        let buffer := body in
        if negb (Hash.verifyHash P buffer expectedHash)
        then throw (HashVerificationFailed url expectedHash (Hash.sha256 P buffer))
        else ret buffer
  end.

(** *** lib/alerts.ts *)

(** A failure of the post is caught and logged there: the caller never
    sees it. *)
Definition sendSlackAlert (message : string) (details : option SlackDetails) : Job unit :=
  if negb (truthyStr (SLACK_WEBHOOK_URL cfg))
  then perform (ConsoleWarn message)
  else perform (PostWebhook (default "" (SLACK_WEBHOOK_URL cfg)) (mkAlert message details)).

Definition alertJobFailure (jobName : string) (marketId : Z) (error : Error) : Job unit :=
  let* timestamp := perform DateNow in
  sendSlackAlert ("❌ Job failed: " +:+ jobName) (Some (JobFailure marketId error timestamp)).

Definition alertResolutionSuccess (marketId : Z) (outcome : Z) (stage : string) : Job unit :=
  let outcomeText := if outcome =? 1 then "YES" else "NO" in
  let* timestamp := perform DateNow in
  sendSlackAlert ("✅ Resolution " +:+ stage +:+ " successful for market " +:+ decimal marketId)
    (Some (ResolutionSuccess marketId outcomeText stage timestamp)).

(** *** db/index.ts *)

Definition getMarket (marketId : Z) : Job (option Market.t) := perform (QueryMarket marketId).
Definition getSnapshot (id : Z) : Job (option Snapshot.t) := perform (QuerySnapshot id).
Definition getSnapshotByDate (dateUtc region : string) : Job (option Snapshot.t) :=
  perform (QuerySnapshotByDate dateUtc region).
Definition getResolution (marketId : Z) : Job (option Resolution.t) :=
  perform (QueryResolution marketId).
Definition upsertResolution (marketId : Z) (patch : Resolution.t) : Job unit :=
  attempt (UpsertResolution marketId patch).

(** *** chain/viem.ts *)

Definition getDisputeWindow : Job Z := attempt ReadDisputeWindow.

Definition hasAccount : bool := truthyStr (PRIVATE_KEY cfg).

Definition sendCommitResolve (marketId : Z) (commitment : string) (evidence : Chain.Evidence)
  : Job string :=
  if negb hasAccount then throw NoWalletAccount
  else attempt (WriteContract (CommitResolve marketId commitment evidence)).

Definition sendFinalizeResolve (marketId : Z) (outcome t0Rank t1Rank : option Z)
    (t0Evidence t1Evidence : Chain.Evidence) (nonce : Z) : Job string :=
  if negb hasAccount then throw NoWalletAccount
  else attempt (WriteContract
         (FinalizeResolve marketId outcome t0Rank t1Rank t0Evidence t1Evidence nonce)).

End Program.

(** ** The jobs (jobs/prepareResolve.ts, commitResolve.ts, finalizeResolve.ts) *)

Record PrepareResolveJobData := mkPrepareData {
  pMarketId : Z;
  t0Date : string;
  t1Date : string;
  region : option string;
}.

Record PrepareResult := mkPrepareResult {
  rMarketId : Z;
  rT0Rank : Z;
  rT1Rank : Z;
  rOutcome : Z;
  rT0SnapshotId : Z;
  rT1SnapshotId : Z;
}.

Inductive CommitResult : Type :=
| AlreadyCommitted (marketId : Z) (txHash : string)
| Committed (marketId : Z) (txHash : string) (disputeUntil : Z) (outcome : Z).

Inductive FinalizeResult : Type :=
| AlreadyFinalized (marketId : Z) (txHash : string)
| Finalized (marketId : Z) (txHash : string) (outcome : option Z).

Definition ZERO_HASH : string :=
  "0x0000000000000000000000000000000000000000000000000000000000000000".

(** The evidence structure both jobs build from a snapshot row. *)
Definition evidenceOf (s : Snapshot.t) : Chain.Evidence :=
  Chain.mkEvidence
    (orElse (Snapshot.csvUrl s) "")
    (orElse (Snapshot.csvSha256 s) ZERO_HASH)
    (Snapshot.jsonUrl s)
    (Snapshot.jsonSha256 s)
    (orElse (Snapshot.ipfsCid s) "").

(** [id ? getSnapshot(id) : null]. *)
Definition getSnapshotIfSet (id : option Z) : Job (option Snapshot.t) :=
  match id with
  | Some i => getSnapshot i
  | None => ret None
  end.

Section Jobs.
Context (P : Platform) (cfg : Config).

Definition prepareResolveBody (data : PrepareResolveJobData) : Job PrepareResult :=
  let marketId := pMarketId data in
  let region := default "global" (region data) in
  let* market := getMarket marketId in
  match market with
  | None => throw (MarketNotFound marketId)
  | Some market =>
      let* t0Snapshot := getSnapshotByDate (t0Date data) region in
      let* t1Snapshot := getSnapshotByDate (t1Date data) region in
      match t0Snapshot, t1Snapshot with
      | None, _ => throw (NoSnapshotFound (t0Date data) region)
      | Some _, None => throw (NoSnapshotFound (t1Date data) region)
      | Some t0Snapshot, Some t1Snapshot =>
          let* t0Buffer := fetchAndVerifyHash P (Snapshot.jsonUrl t0Snapshot) (Snapshot.jsonSha256 t0Snapshot) in
          let* t1Buffer := fetchAndVerifyHash P (Snapshot.jsonUrl t1Snapshot) (Snapshot.jsonSha256 t1Snapshot) in
          let* t0Data := lift (JSON_parse P t0Buffer) in
          let* t1Data := lift (JSON_parse P t1Buffer) in
          let* valid := lift (exc_and (Json.validateSnapshotSchema t0Data)
                                      (Json.validateSnapshotSchema t1Data)) in
          match valid, Json.asSnapshot t0Data, Json.asSnapshot t1Data with
          | true, Some t0Typed, Some t1Typed =>
              let t0Rank := Rank.extractRankBySongId t0Typed (Market.songId market) in
              let t1Rank := Rank.extractRankBySongId t1Typed (Market.songId market) in
              let outcome := Rank.computeOutcome t0Rank t1Rank in
              upsertResolution (Market.marketId market)
                (Resolution.mk (Some (Snapshot.id t0Snapshot)) (Some (Snapshot.id t1Snapshot))
                   (Some t0Rank) (Some t1Rank) (Some outcome)
                   None None None None None) ;;
              ret (mkPrepareResult marketId t0Rank t1Rank outcome
                     (Snapshot.id t0Snapshot) (Snapshot.id t1Snapshot))
          | _, _, _ => throw InvalidSnapshotSchema
          end
      end
  end.

Definition prepareResolveJob (data : PrepareResolveJobData) : Job PrepareResult :=
  tryCatch (prepareResolveBody data)
    (fun error => alertJobFailure cfg "prepareResolve" (pMarketId data) error ;; throw error).

Definition commitResolveBody (marketId : Z) : Job CommitResult :=
  let* market := getMarket marketId in
  match market with
  | None => throw (MarketNotFound marketId)
  | Some market =>
      let* resolution := getResolution marketId in
      match resolution with
      | None => throw (ResolutionNotPrepared marketId)
      | Some resolution =>
          if negb (truthyNum (Resolution.outcome resolution))
          then throw (ResolutionNotPrepared marketId)
          else if truthyStr (Resolution.commitTx resolution)
          then ret (AlreadyCommitted marketId (default "" (Resolution.commitTx resolution)))
          else
            let* t0Snapshot := getSnapshotIfSet (Resolution.t0SnapshotId resolution) in
            let* t1Snapshot := getSnapshotIfSet (Resolution.t1SnapshotId resolution) in
            match t0Snapshot, t1Snapshot with
            | Some t0Snapshot, Some t1Snapshot =>
                let t0Evidence := evidenceOf t0Snapshot in
                let t1Evidence := evidenceOf t1Snapshot in
                let outcome := default 0 (Resolution.outcome resolution) in
                let* commitment :=
                  lift match Resolution.t0Rank resolution, Resolution.t1Rank resolution with
                       | Some t0Rank, Some t1Rank =>
                           Chain.computeCommitment P (Market.marketId market)
                             t0Rank t1Rank outcome t0Evidence t1Evidence 0
                       | _, _ => Throw AbiEncodingError
                       end in
                let* txHash := sendCommitResolve cfg (Market.marketId market) commitment t0Evidence in
                let* disputeWindowSeconds := getDisputeWindow in
                let* now := perform DateNow in
                (* [new Date(Date.now() + disputeWindowSeconds * 1000)]: the sum is
                   the time of this [Date] as long as a [Date] holds it, that is
                   up to 8.64e15 ms from the epoch *)
                let disputeUntil := now + disputeWindowSeconds * 1000 in
                let* committedAt := perform DateNow in
                upsertResolution (Market.marketId market)
                  (Resolution.mk None None None None None
                     (Some txHash) (Some committedAt) (Some disputeUntil) None None) ;;
                alertResolutionSuccess cfg marketId outcome "commit" ;;
                ret (Committed marketId txHash disputeUntil outcome)
            | _, _ => throw (MissingSnapshotEvidence marketId)
            end
      end
  end.

Definition commitResolveJob (marketId : Z) : Job CommitResult :=
  tryCatch (commitResolveBody marketId)
    (fun error => alertJobFailure cfg "commitResolve" marketId error ;; throw error).

Definition finalizeResolveBody (marketId : Z) : Job FinalizeResult :=
  let* market := getMarket marketId in
  match market with
  | None => throw (MarketNotFound marketId)
  | Some market =>
      let* resolution := getResolution marketId in
      match resolution with
      | None => throw (ResolutionNotCommitted marketId)
      | Some resolution =>
          match Resolution.disputeUntil resolution with
          | None => throw (ResolutionNotCommitted marketId)
          | Some disputeUntil =>
              if negb (truthyStr (Resolution.commitTx resolution))
              then throw (ResolutionNotCommitted marketId)
              else if truthyStr (Resolution.finalizeTx resolution)
              then ret (AlreadyFinalized marketId (default "" (Resolution.finalizeTx resolution)))
              else
                let* now := perform DateNow in
                if now <? disputeUntil
                then (* the waiting time in the log line reads the clock again *)
                     perform DateNow ;;
                     throw (DisputeWindowActive disputeUntil)
                else
                  let* t0Snapshot := getSnapshotIfSet (Resolution.t0SnapshotId resolution) in
                  let* t1Snapshot := getSnapshotIfSet (Resolution.t1SnapshotId resolution) in
                  match t0Snapshot, t1Snapshot with
                  | Some t0Snapshot, Some t1Snapshot =>
                      let t0Evidence := evidenceOf t0Snapshot in
                      let t1Evidence := evidenceOf t1Snapshot in
                      let* txHash :=
                        sendFinalizeResolve cfg (Market.marketId market)
                          (Resolution.outcome resolution)
                          (Resolution.t0Rank resolution) (Resolution.t1Rank resolution)
                          t0Evidence t1Evidence 0 in
                      let* finalizedAt := perform DateNow in
                      upsertResolution (Market.marketId market)
                        (Resolution.mk None None None None None None None None
                           (Some txHash) (Some finalizedAt)) ;;
                      alertResolutionSuccess cfg marketId
                        (default 0 (Resolution.outcome resolution)) "finalize" ;;
                      ret (Finalized marketId txHash (Resolution.outcome resolution))
                  | _, _ => throw (MissingSnapshotEvidence marketId)
                  end
          end
      end
  end.

Definition finalizeResolveJob (marketId : Z) : Job FinalizeResult :=
  tryCatch (finalizeResolveBody marketId)
    (fun error => alertJobFailure cfg "finalizeResolve" marketId error ;; throw error).

End Jobs.

(** ** The routes of the HTTP API (routes/resolve.ts, [resolvePlugin])

    The handlers as they run once the admin key and the schema of the
    request have been accepted. *)

Inductive Reply (A : Type) : Type :=
| Reply200 (payload : A)
| Reply404                                            (* 'Not Found' *)
| Reply400 (error : string) (cause : option Error).
Arguments Reply200 {A} payload.
Arguments Reply404 {A}.
Arguments Reply400 {A} error cause.

(** [try { m } catch (error) { reply.code(400).send({ error: label, ... }) }]. *)
Fixpoint tryReply {A} (m : Job (Reply A)) (label : string) : Prog (Reply A) :=
  match m with
  | Ret (Ok r) => Ret r
  | Ret (Throw e) => Ret (Reply400 label (Some e))
  | Vis e k => Vis e (fun x => tryReply (k x) label)
  end.

Record PrepareResolveBody := mkPrepareBody {
  t0Url : string;
  t0Sha : string;
  t1Url : string;
  t1Sha : string;
}.

Record PreparePayload := mkPreparePayload {
  commitment : string;
  payloadT0Rank : Z;
  payloadT1Rank : Z;
  payloadOutcome : Z;
  evidenceT0 : Chain.Evidence;
  evidenceT1 : Chain.Evidence;
}.

Definition emptyEvidence : Chain.Evidence :=
  Chain.mkEvidence "" ZERO_HASH "" ZERO_HASH "".

Section Routes.
Context (P : Platform) (cfg : Config).

(** POST /markets/:id/prepare-resolve. *)
Definition prepareResolveRoute (id : Z) (body : PrepareResolveBody) : Prog (Reply PreparePayload) :=
  Vis (QueryMarket id) (fun market =>
  match market with
  | None => Ret Reply404
  | Some market =>
      tryReply
        (let* t0Buffer := fetchAndVerifyHash P (t0Url body) (t0Sha body) in
         let* t1Buffer := fetchAndVerifyHash P (t1Url body) (t1Sha body) in
         let* t0Snapshot := lift (JSON_parse P t0Buffer) in
         let* t1Snapshot := lift (JSON_parse P t1Buffer) in
         let* valid := lift (exc_and (Json.validateSnapshotSchema t0Snapshot)
                                     (Json.validateSnapshotSchema t1Snapshot)) in
         match valid, Json.asSnapshot t0Snapshot, Json.asSnapshot t1Snapshot with
         | true, Some t0Typed, Some t1Typed =>
             let t0Rank := Rank.extractRankBySongId t0Typed (Market.songId market) in
             let t1Rank := Rank.extractRankBySongId t1Typed (Market.songId market) in
             let outcome := Rank.computeOutcome t0Rank t1Rank in
             let t0Evidence := Chain.mkEvidence "" ZERO_HASH (t0Url body) (t0Sha body) "" in
             let t1Evidence := Chain.mkEvidence "" ZERO_HASH (t1Url body) (t1Sha body) "" in
             let* commitment :=
               lift (Chain.computeCommitment P (Market.marketId market)
                       t0Rank t1Rank outcome t0Evidence t1Evidence 0) in
             (* Store draft resolution *)
             upsertResolution (Market.marketId market)
               (Resolution.mk None None (Some t0Rank) (Some t1Rank) (Some outcome)
                  None None None None None) ;;
             ret (Reply200 (mkPreparePayload commitment t0Rank t1Rank outcome
                              t0Evidence t1Evidence))
         | _, _, _ => ret (Reply400 "Invalid Snapshot" None)
         end)
        "Preparation Failed"
  end).

(** POST /markets/:id/commit. *)
Definition commitRoute (id : Z) : Prog (Reply (string * Z)) :=
  Vis (QueryMarket id) (fun market =>
  match market with
  | None => Ret Reply404
  | Some market =>
      Vis (QueryResolution id) (fun resolution =>
      match resolution with
      | None => Ret (Reply400 "Resolution Not Prepared" None)
      | Some resolution =>
          if negb (truthyNum (Resolution.outcome resolution))
          then Ret (Reply400 "Resolution Not Prepared" None)
          else if truthyStr (Resolution.commitTx resolution)
          then Ret (Reply400 "Already Committed" None)
          else
            tryReply
              (let evidence := emptyEvidence in
               let* commitment :=
                 lift match Resolution.t0Rank resolution, Resolution.t1Rank resolution with
                      | Some t0Rank, Some t1Rank =>
                          Chain.computeCommitment P (Market.marketId market) t0Rank t1Rank
                            (default 0 (Resolution.outcome resolution)) evidence evidence 0
                      | _, _ => Throw AbiEncodingError
                      end in
               let* txHash := sendCommitResolve cfg (Market.marketId market) commitment evidence in
               let* disputeWindowSeconds := getDisputeWindow in
               let* now := perform DateNow in
               let disputeUntil := now + disputeWindowSeconds * 1000 in
               let* committedAt := perform DateNow in
               upsertResolution (Market.marketId market)
                 (Resolution.mk None None None None None
                    (Some txHash) (Some committedAt) (Some disputeUntil) None None) ;;
               ret (Reply200 (txHash, disputeUntil)))
              "Commit Failed"
      end)
  end).

End Routes.

(** ** The rank extractor as the design document words it

    Section 4.2: the identifier is normalised "by stripping any known
    prefix before comparing against each entry's identifier (also
    prefix-stripped)". [stripPrefix] removes the text only where it is a
    prefix; it is the definition the code is compared with. *)

Module RankSpec.

Definition stripPrefix (id : string) : string :=
  if JsString.startsWith Rank.TRACK_URI id
  then JsString.drop (String.length Rank.TRACK_URI) id
  else id.

Definition extractRank (document : Rank.SpotifySnapshot) (itemIdentifier : string) : Z :=
  match List.find (fun entry => String.eqb (stripPrefix (Rank.trackId entry))
                                           (stripPrefix itemIdentifier))
                  (Rank.items document) with
  | Some entry => Rank.rank entry
  | None => 101
  end.

(** An identifier in one of the two formats that the comment in
    [extractRankBySongId] announces, "spotify:track:abc123" and "abc123":
    what follows the prefix, or the whole identifier when it has no
    prefix, does not contain the URI scheme. *)
Definition announced (id : string) : bool :=
  negb (JsString.includes Rank.TRACK_URI (stripPrefix id)).

End RankSpec.

(** * Fixtures

    Concrete documents, rows and worlds: the inputs of the unit tests and
    the ones at which the statements below are instantiated. *)

Module Fixture.

Definition item (rank : Z) (title artist : string) (streams : Z) (trackId spotifyUrl : string)
  : Json.json :=
  Json.JObj [("rank", Json.JNum rank); ("title", Json.JStr title); ("artist", Json.JStr artist);
             ("streams", Json.JNum streams); ("trackId", Json.JStr trackId);
             ("spotifyUrl", Json.JStr spotifyUrl)].

Definition document (dateUTC : string) (its : list Json.json) : Json.json :=
  Json.JObj [("schema", Json.JStr "hitcastor.spotify.top100.v1");
             ("dateUTC", Json.JStr dateUTC); ("region", Json.JStr "global");
             ("provider", Json.JStr "spotify");
             ("listLength", Json.JNum (Z.of_nat (List.length its)));
             ("items", Json.JArr its)].

(** [mockSnapshot] of resolve.unit.test.ts. *)
Definition mockSnapshot : Json.json :=
  document "2024-01-15"
    [item 1 "Blinding Lights" "The Weeknd" 1234567 "spotify:track:0VjIjW4GlULA"
       "https://open.spotify.com/track/0VjIjW4GlULA";
     item 2 "Shape of You" "Ed Sheeran" 987654 "spotify:track:7qiZfU4dY4WnASrxmjMzxQ"
       "https://open.spotify.com/track/7qiZfU4dY4WnASrxmjMzxQ";
     item 3 "Someone You Loved" "Lewis Capaldi" 876543 "spotify:track:7qEHsqek33rTcFNT9PFqLf"
       "https://open.spotify.com/track/7qEHsqek33rTcFNT9PFqLf"].

(** The invalid documents of resolve.unit.test.ts: [mockSnapshot] with
    another schema tag, without its schema tag, with an item of the wrong
    structure, and with items that are no array. *)
Definition withProps (schema : option Json.json) (its : Json.json) : Json.json :=
  Json.JObj (match schema with
             | Some tag => [("schema", tag)]
             | None => []
             end ++
             [("dateUTC", Json.JStr "2024-01-15"); ("region", Json.JStr "global");
              ("provider", Json.JStr "spotify"); ("listLength", Json.JNum 3);
              ("items", its)])%list.

Definition wrongSchema : Json.json :=
  withProps (Some (Json.JStr "wrong.schema.v1")) (Json.JArr []).
Definition missingSchema : Json.json := withProps None (Json.JArr []).
Definition invalidItem : Json.json :=
  withProps (Some (Json.JStr "hitcastor.spotify.top100.v1"))
    (Json.JArr [Json.JObj [("rank", Json.JStr "not-a-number"); ("title", Json.JStr "Test")]]).
Definition nonArrayItems : Json.json :=
  withProps (Some (Json.JStr "hitcastor.spotify.top100.v1")) (Json.JStr "not-an-array").

(** A chart whose only entry has the identifier ["ab"], as a document and
    at its type, and an item identifier that carries the URI scheme in its
    middle. *)
Definition oddDocument : Json.json :=
  document "2024-01-15" [item 7 "Title" "Artist" 1000 "ab" "https://open.spotify.com/track/ab"].
Definition oddChart : Rank.SpotifySnapshot :=
  Rank.mkSnapshot "hitcastor.spotify.top100.v1" "2024-01-15" "global" "spotify" 1
    [Rank.mkItem 7 "Title" "Artist" 1000 "ab" "https://open.spotify.com/track/ab"].

Definition oddId : string := "aspotify:track:b".

(** The text of a document, as [JSON.stringify] writes it (no escapes are
    needed for the strings used here). *)
Definition quote : string := String (ascii_of_N 34) EmptyString.

Fixpoint stringify (j : Json.json) : string :=
  match j with
  | Json.JNull => "null"
  | Json.JBool b => if b then "true" else "false"
  | Json.JNum n => decimal n
  | Json.JStr s => quote +:+ s +:+ quote
  | Json.JArr elems =>
      "[" +:+ (fix go (l : list Json.json) : string :=
                 match l with
                 | [] => ""
                 | [x] => stringify x
                 | x :: rest => stringify x +:+ "," +:+ go rest
                 end) elems +:+ "]"
  | Json.JObj props =>
      "{" +:+ (fix go (l : list (string * Json.json)) : string :=
                 match l with
                 | [] => ""
                 | [(k, v)] => quote +:+ k +:+ quote +:+ ":" +:+ stringify v
                 | (k, v) :: rest => quote +:+ k +:+ quote +:+ ":" +:+ stringify v +:+ "," +:+ go rest
                 end) props +:+ "}"
  end.

Definition body (j : Json.json) : Hex.bytes := list_byte_of_string (stringify j).

(** Three daily charts that hold one track, at rank 12, 8 and 30. *)
Definition chart (dateUTC : string) (rank : Z) : Json.json :=
  document dateUTC
    [item rank "Blinding Lights" "The Weeknd" 1234567 "spotify:track:0VjIjW4GlULA"
       "https://open.spotify.com/track/0VjIjW4GlULA"].

Definition chart0 : Json.json := chart "2024-01-15" 12.
Definition chart1 : Json.json := chart "2024-01-22" 8.
Definition chart2 : Json.json := chart "2024-01-29" 30.

Definition hex (digits : string) : Hex.bytes := default [] (Hex.decode digits).

(** SHA-256 of the three texts and of the input of the unit test. *)
Definition digest0 : Hex.bytes :=
  hex "c5ddc208b61115082ef435e6139ac16e06680745487edc8301c712d641d974e5".
Definition digest1 : Hex.bytes :=
  hex "553c40636961ca34f38ace7e8d92f2c5d5257cc9073afd5bd53285d947c4a4d8".
Definition digest2 : Hex.bytes :=
  hex "b40f37218fd64dc94d6f440e27e89f2c054d049945edbf786a55c3f13dee62bc".
Definition helloWorld : Hex.bytes := list_byte_of_string "hello world".
Definition digestHello : Hex.bytes :=
  hex "b94d27b9934d3e08a52e52d7da7dabfac484efe37a5380ee9088f7ace2efcde9".

#[local] Instance byte_eq_dec : EqDecision byte := Strings.Byte.byte_eq_dec.

(** A lookup in a table of inputs and results. *)
Fixpoint table {A} (rows : list (Hex.bytes * A)) (otherwise : A) (input : Hex.bytes) : A :=
  match rows with
  | [] => otherwise
  | (i, r) :: rest => if decide (input = i) then r else table rest otherwise input
  end.

Definition url0 : string := "https://evidence.example/charts/2024-01-15.json".
Definition url1 : string := "https://evidence.example/charts/2024-01-22.json".
Definition url2 : string := "https://evidence.example/charts/2024-01-29.json".

Definition snapshot (id : Z) (date url : string) (digest : Hex.bytes) : Snapshot.t :=
  Snapshot.mk id date "global" url ("0x" +:+ Hex.encode digest) None None None 1700000000000.

Definition snapshot0 : Snapshot.t := snapshot 1 "2024-01-15" url0 digest0.
Definition snapshot1 : Snapshot.t := snapshot 2 "2024-01-22" url1 digest1.
Definition snapshot2 : Snapshot.t := snapshot 3 "2024-01-29" url2 digest2.

Definition market : Market.t :=
  Market.mk 1 42 "0VjIjW4GlULA" (Some "Blinding Lights") (Some "The Weeknd") "USDT"
    [] [] [] 12 1705900000000 "OPEN" 1700000000000.

Definition unpack (x : Exc Hex.bytes) : Hex.bytes :=
  match x with
  | Ok b => b
  | Throw _ => []
  end.

(** The bytes hashed for the commitment of market 42 with the charts of
    2024-01-15 and 2024-01-22, and their Keccak-256 digest. *)
Definition packed01 : Hex.bytes :=
  unpack (Chain.packed 42 12 8 1 (evidenceOf snapshot0) (evidenceOf snapshot1) 0).
Definition keccak01 : Hex.bytes :=
  hex "94ede1ecde24690624378c505f39fcb3c01296418747ed065afd01856252f91d".

(** The same with the chart of 2024-01-29 at t1. *)
Definition packed02 : Hex.bytes :=
  unpack (Chain.packed 42 12 30 2 (evidenceOf snapshot0) (evidenceOf snapshot2) 0).
Definition keccak02 : Hex.bytes :=
  hex "f6bde6d8952c040b36088e6db6c5b42457ddd782f9f2c766a7c365d03ccda93e".

(** The same for the commitment that the commit route computes, over
    evidence that is empty. *)
Definition packedEmpty : Hex.bytes :=
  unpack (Chain.packed 42 12 8 1 emptyEvidence emptyEvidence 0).
Definition keccakEmpty : Hex.bytes :=
  hex "be5a4908b2a14dbadea6d1140fd02dd715e99c1a5b4cd19910e0a4cc18be4db5".

(** A platform that agrees with SHA-256, Keccak-256 and [JSON.parse] on
    the inputs used here. *)
Definition platform : Platform :=
  mkPlatform
    (table [(helloWorld, digestHello); (body chart0, digest0); (body chart1, digest1);
            (body chart2, digest2)] [])
    (table [(packed01, keccak01); (packed02, keccak02); (packedEmpty, keccakEmpty)] [])
    (table [(body chart0, Ok chart0); (body chart1, Ok chart1); (body chart2, Ok chart2)]
           (Throw SyntaxError)).

Definition config : Config :=
  mkConfig (Some "https://hooks.slack.example/services/T000")
           (Some "0x0000000000000000000000000000000000000000000000000000000000000001").

(** The clock advances one second per reading; the evidence host serves
    the three texts; the chain accepts every transaction and reports the
    hashes below in the order of arrival; the dispute window is 10 s. *)
Definition txHashes : list string := ["0xc001"; "0xf001"; "0xf002"].

Definition env : Env :=
  mkEnv (fun n => 1000 * Z.of_nat n)
        (fun url => if String.eqb url url0 then Response true 200 (body chart0)
                    else if String.eqb url url1 then Response true 200 (body chart1)
                    else if String.eqb url url2 then Response true 200 (body chart2)
                    else Response false 404 [])
        (fun log _ => Sent (nth (List.length log) txHashes "0xffff"))
        (fun _ => Some 10).

Definition world (rs : gmap Z Resolution.t) (ticks : nat) (log : list ContractCall) : World :=
  mkWorld [market] [snapshot0; snapshot1; snapshot2] rs ticks log [] [].

Definition world0 : World := world ∅ 0 [].

(** The commit transaction of market 42. *)
Definition commitCall : ContractCall :=
  CommitResolve 42 ("0x" +:+ Hex.encode keccak01) (evidenceOf snapshot0).

(** The row after prepare and commit by the jobs, and the row after
    prepare and commit through the routes of the HTTP API, which store no
    snapshot reference. *)
Definition committedRow : Resolution.t :=
  Resolution.mk (Some 1) (Some 2) (Some 12) (Some 8) (Some 1)
    (Some "0xc001") (Some 1000) (Some 10000) None None.
Definition routeCommittedRow : Resolution.t :=
  Resolution.mk None None (Some 12) (Some 8) (Some 1)
    (Some "0xc001") (Some 1000) (Some 10000) None None.

(** The request that prepares market 42 through the HTTP API. *)
Definition prepareBody : PrepareResolveBody :=
  mkPrepareBody url0 ("0x" +:+ Hex.encode digest0) url1 ("0x" +:+ Hex.encode digest1).

(** Market 42 committed, the window open (the clock reads 3000) and the
    window closed (the clock reads 20000). *)
Definition worldOpen : World := world (<[42 := committedRow]> ∅) 3 [commitCall].
Definition worldClosed : World := world (<[42 := committedRow]> ∅) 20 [commitCall].
Definition routeCommitCall : ContractCall :=
  CommitResolve 42 ("0x" +:+ Hex.encode keccakEmpty) emptyEvidence.
Definition worldRouteClosed : World := world (<[42 := routeCommittedRow]> ∅) 20 [routeCommitCall].


(** Evidence of two charts, and the same with the end of the first
    [ipfsCid] moved to the start of the second [csvUrl]. *)
Definition evidenceA0 : Chain.Evidence :=
  Chain.mkEvidence "https://evidence.example/a.csv" ZERO_HASH url0
    ("0x" +:+ Hex.encode digest0) "QmT5NvUtoM5nWFfrQdVrFtvGfKFmG7AFE8P34isapyhCxX".
Definition evidenceA1 : Chain.Evidence :=
  Chain.mkEvidence "https://evidence.example/b.csv" ZERO_HASH url1
    ("0x" +:+ Hex.encode digest1) "".
Definition evidenceB0 : Chain.Evidence :=
  Chain.mkEvidence "https://evidence.example/a.csv" ZERO_HASH url0
    ("0x" +:+ Hex.encode digest0) "QmT5NvUtoM5nWFfrQdVrFtvGfKFmG7AFE8P34isapyhCxXhttps://evidence".
Definition evidenceB1 : Chain.Evidence :=
  Chain.mkEvidence ".example/b.csv" ZERO_HASH url1
    ("0x" +:+ Hex.encode digest1) "".

(** [evidenceA0] with the digits of its digest in upper case. *)
Definition evidenceC0 : Chain.Evidence :=
  Chain.mkEvidence "https://evidence.example/a.csv" ZERO_HASH url0
    ("0x" +:+ JsString.toUpperCase (Hex.encode digest0))
    "QmT5NvUtoM5nWFfrQdVrFtvGfKFmG7AFE8P34isapyhCxX".

End Fixture.

(** * Descriptions of what the jobs leave behind

    Functions on the world and pure readings of the jobs, in which the
    statements of the next part are written. *)

(** What a call of [sendSlackAlert] leaves in the world: a post to the
    webhook when one is configured, a warning on the console otherwise. *)
Definition notified (cfg : Config) (message : string) (details : option SlackDetails)
    (w : World) : World :=
  if negb (truthyStr (SLACK_WEBHOOK_URL cfg)) then warn message w
  else post (mkAlert message details) w.

(** What the [catch] block of a job leaves in the world. *)
Definition failureAlerted (cfg : Config) (E : Env) (jobName : string) (marketId : Z)
    (error : Error) (w : World) : World :=
  notified cfg ("❌ Job failed: " +:+ jobName)
    (Some (JobFailure marketId error (clock E (ticks w)))) (tick w).

(** The patch that the finalize job writes. *)
Definition finalizePatch (txHash : string) (finalizedAt : Z) : Resolution.t :=
  Resolution.mk None None None None None None None None (Some txHash) (Some finalizedAt).

(** The call that the finalize job sends for a row. *)
Definition finalizeCall (marketId : Z) (r : Resolution.t) (t0Snapshot t1Snapshot : Snapshot.t)
  : ContractCall :=
  FinalizeResolve marketId (Resolution.outcome r) (Resolution.t0Rank r) (Resolution.t1Rank r)
    (evidenceOf t0Snapshot) (evidenceOf t1Snapshot) 0.

(** The world after a finalization that went through. *)
Definition finalized (cfg : Config) (E : Env) (marketId : Z) (r : Resolution.t)
    (call : ContractCall) (txHash : string) (w : World) : World :=
  let w1 := tick (submit call (tick w)) in
  let w2 := setResolutions
              (<[marketId := Resolution.merge (finalizePatch txHash (clock E (S (ticks w)))) r]>
                 (resolutions w1)) w1 in
  notified cfg ("✅ Resolution " +:+ "finalize" +:+ " successful for market " +:+ decimal marketId)
    (Some (ResolutionSuccess marketId
             (if default 0 (Resolution.outcome r) =? 1 then "YES" else "NO")
             "finalize" (clock E (ticks w2))))
    (tick w2).

(** What [fetchAndVerifyHash] returns; it changes nothing. *)
Definition verified (P : Platform) (E : Env) (url expectedHash : string) : Exc Hex.bytes :=
  match http E url with
  | Rejected => Throw (FetchRejected url)
  | Response ok status body =>
      if negb ok then Throw (FetchFailed url status)
      else if negb (Hash.verifyHash P body expectedHash)
           then Throw (HashVerificationFailed url expectedHash (Hash.sha256 P body))
           else Ok body
  end.

(** Everything the prepare job computes before it writes: the key and the
    fields of the upsert, and the result it will return. *)
Definition preparePlan (P : Platform) (E : Env) (data : PrepareResolveJobData)
    (ms : list Market.t) (ss : list Snapshot.t) : Exc (Z * Resolution.t * PrepareResult) :=
  let marketId := pMarketId data in
  let region := default "global" (region data) in
  match findMarket marketId ms with
  | None => Throw (MarketNotFound marketId)
  | Some market =>
      match findSnapshotByDate (t0Date data) region ss,
            findSnapshotByDate (t1Date data) region ss with
      | None, _ => Throw (NoSnapshotFound (t0Date data) region)
      | Some _, None => Throw (NoSnapshotFound (t1Date data) region)
      | Some t0Snapshot, Some t1Snapshot =>
          exc_bind (verified P E (Snapshot.jsonUrl t0Snapshot) (Snapshot.jsonSha256 t0Snapshot))
            (fun t0Buffer =>
          exc_bind (verified P E (Snapshot.jsonUrl t1Snapshot) (Snapshot.jsonSha256 t1Snapshot))
            (fun t1Buffer =>
          exc_bind (JSON_parse P t0Buffer) (fun t0Data =>
          exc_bind (JSON_parse P t1Buffer) (fun t1Data =>
          exc_bind (exc_and (Json.validateSnapshotSchema t0Data)
                            (Json.validateSnapshotSchema t1Data)) (fun valid =>
          match valid, Json.asSnapshot t0Data, Json.asSnapshot t1Data with
          | true, Some t0Typed, Some t1Typed =>
              let t0Rank := Rank.extractRankBySongId t0Typed (Market.songId market) in
              let t1Rank := Rank.extractRankBySongId t1Typed (Market.songId market) in
              let outcome := Rank.computeOutcome t0Rank t1Rank in
              Ok (Market.marketId market,
                  Resolution.mk (Some (Snapshot.id t0Snapshot)) (Some (Snapshot.id t1Snapshot))
                    (Some t0Rank) (Some t1Rank) (Some outcome) None None None None None,
                  mkPrepareResult marketId t0Rank t1Rank outcome
                    (Snapshot.id t0Snapshot) (Snapshot.id t1Snapshot))
          | _, _, _ => Throw InvalidSnapshotSchema
          end)))))
      end
  end.

(** The row an upsert leaves under its key. *)
Definition upserted (marketId : Z) (patch : Resolution.t) (w : World) : Resolution.t :=
  match resolutions w !! marketId with
  | Some old => Resolution.merge patch old
  | None => patch
  end.

(** Invariant 3 of the data model: a commit transaction reference is set
    only on a row whose outcome is set. *)
Definition commitAfterOutcome (rows : gmap Z Resolution.t) : Prop :=
  forall (marketId : Z) (r : Resolution.t),
    rows !! marketId = Some r ->
    truthyStr (Resolution.commitTx r) = true -> truthyNum (Resolution.outcome r) = true.

(** The patch that the commit job writes. *)
Definition commitPatch (txHash : string) (committedAt disputeUntil : Z) : Resolution.t :=
  Resolution.mk None None None None None
    (Some txHash) (Some committedAt) (Some disputeUntil) None None.

(** * Further parts of the code *)

(** ** db/index.ts: the column of a key *)

Module Db.

(** [/[A-Z]/]. *)
Definition isUpper (c : ascii) : bool :=
  let n := N_of_ascii c in ((65 <=? n) && (n <=? 90))%N.

(** [str.replace(/[A-Z]/g, letter => `_${letter.toLowerCase()}`)]. *)
Fixpoint toSnakeCase (str : string) : string :=
  match str with
  | EmptyString => EmptyString
  | String c rest =>
      if isUpper c then String "_" (String (JsString.lower c) (toSnakeCase rest))
      else String c (toSnakeCase rest)
  end.

(** The keys of [Resolution] that [upsertResolution] passes through
    [toSnakeCase] (every key but [marketId]), and the columns of the
    table [resolutions] other than [market_id] (001_init.sql). *)
Definition resolutionKeys : list string :=
  ["t0SnapshotId"; "t1SnapshotId"; "t0Rank"; "t1Rank"; "outcome";
   "commitTx"; "committedAt"; "disputeUntil"; "finalizeTx"; "finalizedAt"].

Definition resolutionColumns : list string :=
  ["t0_snapshot_id"; "t1_snapshot_id"; "t0_rank"; "t1_rank"; "outcome";
   "commit_tx"; "committed_at"; "dispute_until"; "finalize_tx"; "finalized_at"].

(** The values that the columns without a constraint of their own take.
    A [TIMESTAMPTZ] column is passed a [Date]: a [Date] holds a time of at
    most 8.64e15 ms from the epoch and is invalid beyond, and the code
    makes its dates from the clock, so that times before the epoch are
    left out here. A [TEXT] column takes any text without the character
    U+0000. *)
Definition MAX_DATE : Z := 8640000000000000.

Definition isTimestamp (field : option Z) : bool :=
  match field with
  | Some time => (0 <=? time) && (time <=? MAX_DATE)
  | None => true
  end.

Fixpoint hasNoNul (s : string) : bool :=
  match s with
  | EmptyString => true
  | String c rest => negb (Ascii.eqb c Ascii.zero) && hasNoNul rest
  end.

Definition isText (field : option string) : bool :=
  match field with
  | Some s => hasNoNul s
  | None => true
  end.

Definition storable (patch : Resolution.t) : bool :=
  isTimestamp (Resolution.committedAt patch) && isTimestamp (Resolution.disputeUntil patch)
  && isTimestamp (Resolution.finalizedAt patch)
  && isText (Resolution.commitTx patch) && isText (Resolution.finalizeTx patch).

End Db.

(** ** The pattern of a 32-byte digest

    [/^0x[a-fA-F0-9]{64}$/]: the pattern of [t0Sha] and [t1Sha] in
    [prepareResolveSchema] (routes/resolve.ts) and of [assertHex32]
    (chain/resolver.ts). *)

Module Pattern.

(** [[a-fA-F0-9]]. *)
Definition isHexDigit (c : ascii) : bool :=
  let n := N_of_ascii c in
  (((97 <=? n) && (n <=? 102)) || ((65 <=? n) && (n <=? 70)) || ((48 <=? n) && (n <=? 57)))%N.

Fixpoint allHexDigits (s : string) : bool :=
  match s with
  | EmptyString => true
  | String c rest => isHexDigit c && allHexDigits rest
  end.

Definition isHex32 (s : string) : bool :=
  match s with
  | String "0" (String "x" digits) => Nat.eqb (String.length digits) 64 && allHexDigits digits
  | _ => false
  end.

End Pattern.

(** ** The other routes of the HTTP API *)

Section MoreRoutes.
Context (cfg : Config).

(** POST /markets/:id/finalize (routes/resolve.ts, [resolvePlugin]). *)
Definition finalizeRoute (id : Z) : Prog (Reply (string * option Z)) :=
  Vis (QueryMarket id) (fun market =>
  match market with
  | None => Ret Reply404
  | Some market =>
      Vis (QueryResolution id) (fun resolution =>
      match resolution with
      | None => Ret (Reply400 "Resolution Not Committed" None)
      | Some resolution =>
          if negb (truthyStr (Resolution.commitTx resolution))
          then Ret (Reply400 "Resolution Not Committed" None)
          else
            match Resolution.disputeUntil resolution with
            | None => Ret (Reply400 "Resolution Not Committed" None)
            | Some disputeUntil =>
                if truthyStr (Resolution.finalizeTx resolution)
                then Ret (Reply400 "Already Finalized" None)
                else
                  Vis DateNow (fun now =>
                  if now <? disputeUntil
                  then Ret (Reply400 "Dispute Window Active" None)
                  else
                    tryReply
                      (let t0Evidence := emptyEvidence in
                       let t1Evidence := emptyEvidence in
                       let* txHash :=
                         sendFinalizeResolve cfg (Market.marketId market)
                           (Resolution.outcome resolution)
                           (Resolution.t0Rank resolution) (Resolution.t1Rank resolution)
                           t0Evidence t1Evidence 0 in
                       let* finalizedAt := perform DateNow in
                       upsertResolution (Market.marketId market)
                         (Resolution.mk None None None None None None None None
                            (Some txHash) (Some finalizedAt)) ;;
                       ret (Reply200 (txHash, Resolution.outcome resolution)))
                      "Finalize Failed")
            end
      end)
  end).

End MoreRoutes.

(** GET /markets/:id/evidence (routes/evidence.ts). *)

Record EvidenceView := mkEvidenceView {
  viewJsonUrl : string;
  viewJsonSha256 : string;
  viewCsvUrl : string;
  viewCsvSha256 : string;
  viewIpfsCid : string;
  viewDateUtc : string;
  viewRegion : string;
}.

Record ResolutionView := mkResolutionView {
  viewT0Rank : option Z;
  viewT1Rank : option Z;
  viewOutcome : option Z;
  viewCommittedAt : option Z;
  viewDisputeUntil : option Z;
  viewFinalizedAt : option Z;
}.

Record EvidencePayload := mkEvidencePayload {
  t0 : option EvidenceView;
  t1 : option EvidenceView;
  resolution : option ResolutionView;
}.

Definition evidenceView (s : Snapshot.t) : EvidenceView :=
  mkEvidenceView (Snapshot.jsonUrl s) (Snapshot.jsonSha256 s)
    (orElse (Snapshot.csvUrl s) "") (orElse (Snapshot.csvSha256 s) "")
    (orElse (Snapshot.ipfsCid s) "") (Snapshot.dateUtc s) (Snapshot.region s).

Definition resolutionView (r : Resolution.t) : ResolutionView :=
  mkResolutionView (Resolution.t0Rank r) (Resolution.t1Rank r) (Resolution.outcome r)
    (Resolution.committedAt r) (Resolution.disputeUntil r) (Resolution.finalizedAt r).

(** [if (id) { const s = await getSnapshot(id); if (s) { evidence = {...} } }],
    followed by [k evidence]. *)
Definition withEvidence {R} (id : option Z) (k : option EvidenceView -> Prog R) : Prog R :=
  match id with
  | Some i => Vis (QuerySnapshot i) (fun s => k (evidenceView <$> s))
  | None => k None
  end.

Definition evidenceRoute (id : Z) : Prog (Reply EvidencePayload) :=
  Vis (QueryMarket id) (fun market =>
  match market with
  | None => Ret Reply404
  | Some _ =>
      Vis (QueryResolution id) (fun resolution =>
      withEvidence (resolution ≫= Resolution.t0SnapshotId) (fun t0Evidence =>
      withEvidence (resolution ≫= Resolution.t1SnapshotId) (fun t1Evidence =>
      Ret (Reply200 (mkEvidencePayload t0Evidence t1Evidence
                       (resolutionView <$> resolution))))))
  end).

(** * Descriptions of the commit and finalize paths

    What each path does to the world, as a function of the world. *)

Definition snapshotOf (id : option Z) (w : World) : option Snapshot.t :=
  match id with
  | Some i => findSnapshot i (snapshots w)
  | None => None
  end.

(** The commitment of a row over the given evidence. *)
Definition rowCommitment (P : Platform) (marketId : Z) (r : Resolution.t)
    (t0Evidence t1Evidence : Chain.Evidence) : Exc string :=
  match Resolution.t0Rank r, Resolution.t1Rank r with
  | Some t0Rank, Some t1Rank =>
      Chain.computeCommitment P marketId t0Rank t1Rank
        (default 0 (Resolution.outcome r)) t0Evidence t1Evidence 0
  | _, _ => Throw AbiEncodingError
  end.

(** From the call of [sendCommitResolve] on: the transaction, the window
    read from the chain, two readings of the clock and the write. *)
Definition commitSending (cfg : Config) (E : Env) (marketId : Z) (r : Resolution.t)
    (call : ContractCall) (w : World) : Exc (string * Z) * World :=
  if negb (hasAccount cfg) then (Throw NoWalletAccount, w)
  else
    match chainWrite E (chainLog w) call with
    | NotSent message => (Throw (ChainError message), w)
    | SentThenFailed message => (Throw (ChainError message), submit call w)
    | Sent txHash =>
        match chainDisputeWindow E (chainLog w ++ [call]) with
        | None => (Throw (ChainError "disputeWindow"), submit call w)
        | Some seconds =>
            let disputeUntil := clock E (ticks w) + seconds * 1000 in
            let committedAt := clock E (S (ticks w)) in
            (Ok (txHash, disputeUntil),
             setResolutions
               (<[marketId := Resolution.merge (commitPatch txHash committedAt disputeUntil) r]>
                  (resolutions w))
               (tick (tick (submit call w))))
        end
    end.

Definition commitResolveOutcome (P : Platform) (cfg : Config) (E : Env) (marketId : Z)
    (w : World) : Exc CommitResult * World :=
  match findMarket marketId (markets w), resolutions w !! marketId with
  | None, _ => (Throw (MarketNotFound marketId), w)
  | Some _, None => (Throw (ResolutionNotPrepared marketId), w)
  | Some _, Some r =>
      if negb (truthyNum (Resolution.outcome r)) then (Throw (ResolutionNotPrepared marketId), w)
      else if truthyStr (Resolution.commitTx r)
      then (Ok (AlreadyCommitted marketId (default "" (Resolution.commitTx r))), w)
      else
        match snapshotOf (Resolution.t0SnapshotId r) w,
              snapshotOf (Resolution.t1SnapshotId r) w with
        | Some t0Snapshot, Some t1Snapshot =>
            match rowCommitment P marketId r (evidenceOf t0Snapshot) (evidenceOf t1Snapshot)
            with
            | Throw e => (Throw e, w)
            | Ok commitment =>
                match commitSending cfg E marketId r
                        (CommitResolve marketId commitment (evidenceOf t0Snapshot)) w with
                | (Throw e, w') => (Throw e, w')
                | (Ok (txHash, disputeUntil), w') =>
                    let outcome := default 0 (Resolution.outcome r) in
                    (Ok (Committed marketId txHash disputeUntil outcome),
                     notified cfg
                       ("✅ Resolution " +:+ "commit" +:+ " successful for market "
                        +:+ decimal marketId)
                       (Some (ResolutionSuccess marketId
                                (if outcome =? 1 then "YES" else "NO") "commit"
                                (clock E (ticks w'))))
                       (tick w'))
                end
            end
        | _, _ => (Throw (MissingSnapshotEvidence marketId), w)
        end
  end.

Definition commitRouteOutcome (P : Platform) (cfg : Config) (E : Env) (id : Z) (w : World)
  : Reply (string * Z) * World :=
  match findMarket id (markets w), resolutions w !! id with
  | None, _ => (Reply404, w)
  | Some _, None => (Reply400 "Resolution Not Prepared" None, w)
  | Some _, Some r =>
      if negb (truthyNum (Resolution.outcome r))
      then (Reply400 "Resolution Not Prepared" None, w)
      else if truthyStr (Resolution.commitTx r) then (Reply400 "Already Committed" None, w)
      else
        match rowCommitment P id r emptyEvidence emptyEvidence with
        | Throw e => (Reply400 "Commit Failed" (Some e), w)
        | Ok commitment =>
            match commitSending cfg E id r (CommitResolve id commitment emptyEvidence) w with
            | (Throw e, w') => (Reply400 "Commit Failed" (Some e), w')
            | (Ok (txHash, disputeUntil), w') => (Reply200 (txHash, disputeUntil), w')
            end
        end
  end.

(** From the call of [sendFinalizeResolve] on. *)
Definition finalizeSending (cfg : Config) (E : Env) (marketId : Z) (r : Resolution.t)
    (call : ContractCall) (w : World) : Exc string * World :=
  if negb (hasAccount cfg) then (Throw NoWalletAccount, w)
  else
    match chainWrite E (chainLog w) call with
    | NotSent message => (Throw (ChainError message), w)
    | SentThenFailed message => (Throw (ChainError message), submit call w)
    | Sent txHash =>
        (Ok txHash,
         setResolutions
           (<[marketId := Resolution.merge (finalizePatch txHash (clock E (ticks w))) r]>
              (resolutions w))
           (tick (submit call w)))
    end.

Definition finalizeResolveOutcome (cfg : Config) (E : Env) (marketId : Z) (w : World)
  : Exc FinalizeResult * World :=
  match findMarket marketId (markets w), resolutions w !! marketId with
  | None, _ => (Throw (MarketNotFound marketId), w)
  | Some _, None => (Throw (ResolutionNotCommitted marketId), w)
  | Some _, Some r =>
      match Resolution.disputeUntil r with
      | None => (Throw (ResolutionNotCommitted marketId), w)
      | Some disputeUntil =>
          if negb (truthyStr (Resolution.commitTx r))
          then (Throw (ResolutionNotCommitted marketId), w)
          else if truthyStr (Resolution.finalizeTx r)
          then (Ok (AlreadyFinalized marketId (default "" (Resolution.finalizeTx r))), w)
          else if clock E (ticks w) <? disputeUntil
          then (Throw (DisputeWindowActive disputeUntil), tick (tick w))
          else
            match snapshotOf (Resolution.t0SnapshotId r) w,
                  snapshotOf (Resolution.t1SnapshotId r) w with
            | Some t0Snapshot, Some t1Snapshot =>
                match finalizeSending cfg E marketId r
                        (finalizeCall marketId r t0Snapshot t1Snapshot) (tick w) with
                | (Throw e, w') => (Throw e, w')
                | (Ok txHash, w') =>
                    (Ok (Finalized marketId txHash (Resolution.outcome r)),
                     notified cfg
                       ("✅ Resolution " +:+ "finalize" +:+ " successful for market "
                        +:+ decimal marketId)
                       (Some (ResolutionSuccess marketId
                                (if default 0 (Resolution.outcome r) =? 1 then "YES" else "NO")
                                "finalize" (clock E (ticks w'))))
                       (tick w'))
                end
            | _, _ => (Throw (MissingSnapshotEvidence marketId), tick w)
            end
      end
  end.

Definition finalizeRouteOutcome (cfg : Config) (E : Env) (id : Z) (w : World)
  : Reply (string * option Z) * World :=
  match findMarket id (markets w), resolutions w !! id with
  | None, _ => (Reply404, w)
  | Some _, None => (Reply400 "Resolution Not Committed" None, w)
  | Some _, Some r =>
      match Resolution.disputeUntil r with
      | None => (Reply400 "Resolution Not Committed" None, w)
      | Some disputeUntil =>
          if negb (truthyStr (Resolution.commitTx r))
          then (Reply400 "Resolution Not Committed" None, w)
          else if truthyStr (Resolution.finalizeTx r)
          then (Reply400 "Already Finalized" None, w)
          else if clock E (ticks w) <? disputeUntil
          then (Reply400 "Dispute Window Active" None, tick w)
          else
            match finalizeSending cfg E id r
                    (FinalizeResolve id (Resolution.outcome r) (Resolution.t0Rank r)
                       (Resolution.t1Rank r) emptyEvidence emptyEvidence 0) (tick w) with
            | (Throw e, w') => (Reply400 "Finalize Failed" (Some e), w')
            | (Ok txHash, w') => (Reply200 (txHash, Resolution.outcome r), w')
            end
      end
  end.

(** What a job returns and leaves once its [catch] has run. *)
Definition caught {A} (cfg : Config) (E : Env) (jobName : string) (marketId : Z)
    (outcome : Exc A * World) : Exc A * World :=
  match outcome with
  | (Ok a, w) => (Ok a, w)
  | (Throw e, w) => (Throw e, failureAlerted cfg E jobName marketId e w)
  end.

(** One alert, and nothing else, has reached the webhook (when one is
    configured) or the console (when none is) between two worlds. *)
Definition alertedOnce (cfg : Config) (message : string) (details : SlackDetails)
    (w w' : World) : Prop :=
  if truthyStr (SLACK_WEBHOOK_URL cfg)
  then slackOutbox w' = (slackOutbox w ++ [mkAlert message (Some details)])%list /\
       consoleWarnings w' = consoleWarnings w
  else slackOutbox w' = slackOutbox w /\
       consoleWarnings w' = (consoleWarnings w ++ [message])%list.

(** ** Invariants of a row of [resolutions] *)

(** The stored outcome is the outcome of the stored ranks. *)
Definition outcomeOfRanks (r : Resolution.t) : Prop :=
  forall outcome : Z,
    Resolution.outcome r = Some outcome ->
    exists t0Rank t1Rank : Z,
      Resolution.t0Rank r = Some t0Rank /\ Resolution.t1Rank r = Some t1Rank /\
      outcome = Rank.computeOutcome t0Rank t1Rank.

(** The stages follow each other, and the fields of a stage are written
    together: a commit reference only with an outcome, a finalize
    reference only with a commit reference; the commit reference, the
    commit time and the end of the window all set or all unset; the
    finalize reference and the finalize time both set or both unset. *)
Definition stagesInOrder (r : Resolution.t) : Prop :=
  (truthyStr (Resolution.commitTx r) = true -> truthyNum (Resolution.outcome r) = true) /\
  (truthyStr (Resolution.finalizeTx r) = true -> truthyStr (Resolution.commitTx r) = true) /\
  (is_Some (Resolution.commitTx r) <-> is_Some (Resolution.committedAt r)) /\
  (is_Some (Resolution.commitTx r) <-> is_Some (Resolution.disputeUntil r)) /\
  (is_Some (Resolution.finalizeTx r) <-> is_Some (Resolution.finalizedAt r)).

Definition everyRow (inv : Resolution.t -> Prop) (rows : gmap Z Resolution.t) : Prop :=
  forall (marketId : Z) (r : Resolution.t), rows !! marketId = Some r -> inv r.

(** The six paths that write to [resolutions], and what each may write:
    nothing; or, for a prepare, the two ranks and their outcome, with or
    without the snapshot references, over the row; or, for a commit, the
    commit fields over a prepared row without commit reference; or, for a
    finalize, the finalize fields over a committed row. *)
Inductive Path : Type :=
| PrepareJob (data : PrepareResolveJobData)
| CommitJob (marketId : Z)
| FinalizeJob (marketId : Z)
| PrepareRoute (id : Z) (body : PrepareResolveBody)
| CommitRoute (id : Z)
| FinalizeRoute (id : Z).

Definition after (P : Platform) (cfg : Config) (E : Env) (path : Path) (w : World) : World :=
  match path with
  | PrepareJob data => snd (run E (prepareResolveJob P cfg data) w)
  | CommitJob marketId => snd (run E (commitResolveJob P cfg marketId) w)
  | FinalizeJob marketId => snd (run E (finalizeResolveJob cfg marketId) w)
  | PrepareRoute id body => snd (run E (prepareResolveRoute P id body) w)
  | CommitRoute id => snd (run E (commitRoute P cfg id) w)
  | FinalizeRoute id => snd (run E (finalizeRoute cfg id) w)
  end.

Inductive Written (rows : gmap Z Resolution.t) : gmap Z Resolution.t -> Prop :=
| WrittenNothing : Written rows rows
| WrittenPrepare (marketId : Z) (t0SnapshotId t1SnapshotId : option Z) (t0Rank t1Rank : Z) :
    Written rows
      (<[marketId :=
           let patch := Resolution.mk t0SnapshotId t1SnapshotId (Some t0Rank) (Some t1Rank)
                          (Some (Rank.computeOutcome t0Rank t1Rank)) None None None None None in
           match rows !! marketId with
           | Some old => Resolution.merge patch old
           | None => patch
           end]> rows)
| WrittenCommit (marketId : Z) (r : Resolution.t) (txHash : string)
    (committedAt disputeUntil : Z) :
    rows !! marketId = Some r ->
    truthyNum (Resolution.outcome r) = true ->
    truthyStr (Resolution.commitTx r) = false ->
    Written rows
      (<[marketId := Resolution.merge (commitPatch txHash committedAt disputeUntil) r]> rows)
| WrittenFinalize (marketId : Z) (r : Resolution.t) (txHash : string) (finalizedAt : Z) :
    rows !! marketId = Some r ->
    truthyStr (Resolution.commitTx r) = true ->
    is_Some (Resolution.disputeUntil r) ->
    truthyStr (Resolution.finalizeTx r) = false ->
    Written rows (<[marketId := Resolution.merge (finalizePatch txHash finalizedAt) r]> rows).

(** Any number of jobs and requests, one after the other. *)
Definition afterAll (P : Platform) (cfg : Config) (E : Env) (paths : list Path) (w : World)
  : World :=
  fold_left (fun w path => after P cfg E path w) paths w.

(** ** db/index.ts: [withTransaction] *)

Module Tx.

(** What is asked of the pool and of the client it hands out, in the
    order in which it is asked. *)
Inductive Command : Type :=
| Connect                   (* pool.connect() *)
| Query (sql : string)      (* client.query(sql) *)
| Release.                  (* client.release() *)

Section WithDatabase.
(** The rows of a result, and the database: whether the pool hands out a
    client, and what a query returns or throws, given all that was asked
    before. *)
Context {Rows : Type}.
Context (connect : list Command -> Exc unit).
Context (answer : list Command -> string -> Exc Rows).

(** A callback: it returns, throws, or queries the client and goes on
    with what the query returned or threw. *)
Inductive Callback (T : Type) : Type :=
| Return (result : T)
| Fail (error : Error)
| Ask (sql : string) (k : Exc Rows -> Callback T).
Arguments Return {T} result.
Arguments Fail {T} error.
Arguments Ask {T} sql k.

Definition query (sql : string) (history : list Command) : Exc Rows * list Command :=
  (answer history sql, (history ++ [Query sql])%list).

Fixpoint call {T} (callback : Callback T) (history : list Command) : Exc T * list Command :=
  match callback with
  | Return result => (Ok result, history)
  | Fail error => (Throw error, history)
  | Ask sql k => call (k (answer history sql)) (history ++ [Query sql])%list
  end.

(** The [try] block. *)
Definition attemptTransaction {T} (callback : Callback T) (history : list Command)
  : Exc T * list Command :=
  match query "BEGIN" history with
  | (Throw error, h1) => (Throw error, h1)
  | (Ok _, h1) =>
      match call callback h1 with
      | (Throw error, h2) => (Throw error, h2)
      | (Ok result, h2) =>
          match query "COMMIT" h2 with
          | (Throw error, h3) => (Throw error, h3)
          | (Ok _, h3) => (Ok result, h3)
          end
      end
  end.

Definition withTransaction {T} (callback : Callback T) (history : list Command)
  : Exc T * list Command :=
  match connect history with
  | Throw error => (Throw error, (history ++ [Connect])%list)
  | Ok _ =>
      let client := (history ++ [Connect])%list in
      let (outcome, h) :=
        match attemptTransaction callback client with
        | (Ok result, h) => (Ok result, h)
        | (Throw error, h) =>                       (* catch (error) *)
            match query "ROLLBACK" h with
            | (Throw failure, h') => (Throw failure, h')
            | (Ok _, h') => (Throw error, h')       (* throw error *)
            end
        end in
      (outcome, (h ++ [Release])%list)              (* finally *)
  end.

End WithDatabase.

Arguments Return {Rows T} result.
Arguments Fail {Rows T} error.
Arguments Ask {Rows T} sql k.

End Tx.

(** * Properties *)

(** ** Strings *)

Lemma startsWith_app (pat s : string) : JsString.startsWith pat (pat +:+ s) = true.
Proof.
  induction pat as [|c pat IH]; simpl; [reflexivity|].
  rewrite Ascii.eqb_refl. exact IH.
Qed.

Lemma drop_app (pat s : string) : JsString.drop (String.length pat) (pat +:+ s) = s.
Proof. induction pat as [|c pat IH]; simpl; [reflexivity | exact IH]. Qed.

(** A pattern that starts the string is what [replace] replaces. *)
Lemma replace_prefix (pat rep s : string) :
  JsString.replace pat rep (pat +:+ s) = rep +:+ s.
Proof.
  destruct pat as [|c pat].
  - destruct s; reflexivity.
  - simpl. rewrite Ascii.eqb_refl, startsWith_app, drop_app. reflexivity.
Qed.

(** A string without occurrence of the pattern is left as it is. *)
Lemma replace_absent (pat rep s : string) :
  JsString.includes pat s = false -> JsString.replace pat rep s = s.
Proof.
  induction s as [|c s IH]; cbn [JsString.includes JsString.replace]; intros H.
  - apply orb_false_iff in H as [-> _]. reflexivity.
  - apply orb_false_iff in H as [-> H]. rewrite (IH H). reflexivity.
Qed.

Lemma clean_prefixed (x : string) : Rank.clean (Rank.TRACK_URI +:+ x) = x.
Proof. unfold Rank.clean. rewrite replace_prefix. reflexivity. Qed.

Lemma clean_bare (x : string) :
  JsString.includes Rank.TRACK_URI x = false -> Rank.clean x = x.
Proof. apply replace_absent. Qed.

(** ** lib/rank.ts *)

(** C1. [computeOutcome] answers YES exactly when the rank at t1 is
    strictly smaller than the rank at t0 and NO otherwise: on a tie, and
    when the item is absent at t1, since the sentinel 101 is below no rank
    of a list of at most 101 places. *)
Theorem computeOutcome_yes_iff_improved (t0Rank t1Rank : Z) :
  (Rank.computeOutcome t0Rank t1Rank = Rank.YES <-> t1Rank < t0Rank) /\
  (Rank.computeOutcome t0Rank t1Rank = Rank.NO <-> ~ t1Rank < t0Rank) /\
  Rank.computeOutcome t0Rank t0Rank = Rank.NO /\
  (t0Rank <= 101 -> Rank.computeOutcome t0Rank 101 = Rank.NO).
Proof.
  unfold Rank.computeOutcome, Rank.YES, Rank.NO.
  repeat split; try (destruct (Z.ltb_spec t1Rank t0Rank); intros; (lia || congruence)).
  - rewrite Z.ltb_irrefl. reflexivity.
  - intros H. destruct (Z.ltb_spec 101 t0Rank); [lia | reflexivity].
Qed.

(** The examples of the design document and of the unit tests. *)
Lemma computeOutcome_examples :
  Rank.computeOutcome 5 3 = 1 /\ Rank.computeOutcome 5 5 = 2 /\
  Rank.computeOutcome 3 5 = 2 /\ Rank.computeOutcome 101 50 = 1 /\
  Rank.computeOutcome 50 101 = 2.
Proof. repeat split. Qed.

Lemma computeOutcome_yes_iff_improved_witness :
  50 <= 101 /\ Rank.computeOutcome 50 101 = Rank.NO.
Proof.
  split; [lia|].
  apply (computeOutcome_yes_iff_improved 50 101). lia.
Defined.

(** A document that passes [validateSnapshotSchema] reads at the type the
    guard asserts. *)
Lemma validItem_asItem (item : Json.json) :
  Json.validItem item = Ok true -> exists i, Json.asItem item = Some i.
Proof.
  destruct item as [| | | | |props]; try discriminate.
  unfold Json.validItem, Json.propHasType, Json.asItem; simpl.
  intros H.
  repeat match type of H with
         | context [Json.lookup ?k props] =>
             destruct (Json.lookup k props) as [[]|]; simpl in H; try discriminate H
         end.
  eauto.
Qed.

Lemma every_validItem_asItems (elems : list Json.json) :
  Json.every Json.validItem elems = Ok true -> exists its, Json.asItems elems = Some its.
Proof.
  induction elems as [|e elems IH]; simpl; [eauto|].
  destruct (Json.validItem e) as [[]|] eqn:He; try discriminate.
  intros H. destruct (validItem_asItem e He) as [i ->].
  destruct (IH H) as [its ->]. eauto.
Qed.

Lemma validateSnapshotSchema_asSnapshot (data : Json.json) :
  Json.validateSnapshotSchema data = Ok true -> exists s, Json.asSnapshot data = Some s.
Proof.
  destruct data as [| | | | |props]; try discriminate.
  unfold Json.validateSnapshotSchema, Json.propHasType, Json.asSnapshot; simpl.
  intros H.
  repeat match type of H with
         | context [String.eqb ?a ?b] =>
             destruct (String.eqb a b); simpl in H; try discriminate H
         | context [Json.lookup ?k props] =>
             destruct (Json.lookup k props) as [[]|]; simpl in H; try discriminate H
         end.
  destruct (every_validItem_asItems _ H) as [its ->]. eauto.
Qed.

(** The tests of resolve.unit.test.ts on [validateSnapshotSchema], and the
    two documents on which it throws instead of answering. *)
Lemma validateSnapshotSchema_unit_tests :
  Json.validateSnapshotSchema Fixture.mockSnapshot = Ok true /\
  Json.validateSnapshotSchema Fixture.wrongSchema = Ok false /\
  Json.validateSnapshotSchema Fixture.missingSchema = Ok false /\
  Json.validateSnapshotSchema Fixture.invalidItem = Ok false /\
  Json.validateSnapshotSchema Fixture.nonArrayItems = Ok false /\
  Json.validateSnapshotSchema Json.JNull = Throw TypeError /\
  Json.validateSnapshotSchema
    (Fixture.withProps (Some (Json.JStr Json.SCHEMA_TAG)) (Json.JArr [Json.JNull]))
  = Throw TypeError.
Proof. repeat split. Qed.

(** The loop returns 101 when no entry matches, and otherwise the rank of
    the first entry that does. *)
Lemma scanItems_absent (c : string) (its : list Rank.Item) :
  (forall it, In it its -> Rank.clean (Rank.trackId it) <> c) ->
  Rank.scanItems c its = 101.
Proof.
  induction its as [|it its IH]; simpl; intros H; [reflexivity|].
  destruct (String.eqb_spec (Rank.clean (Rank.trackId it)) c) as [Heq|_].
  - exfalso. apply (H it); auto.
  - apply IH. intros it' Hin. apply H. auto.
Qed.

Lemma scanItems_first (c : string) (before after : list Rank.Item) (it : Rank.Item) :
  (forall it', In it' before -> Rank.clean (Rank.trackId it') <> c) ->
  Rank.clean (Rank.trackId it) = c ->
  Rank.scanItems c (before ++ it :: after) = Rank.rank it.
Proof.
  induction before as [|b before IH]; simpl; intros Hb Hit.
  - rewrite Hit, String.eqb_refl. reflexivity.
  - destruct (String.eqb_spec (Rank.clean (Rank.trackId b)) c) as [Heq|_].
    + exfalso. apply (Hb b); auto.
    + apply IH; auto.
Qed.

(** What [extractRankBySongId] computes on a document that passes the
    schema check, in terms of [Rank.clean]: the rank of the first entry
    whose cleaned identifier equals the cleaned [songId], and 101 when
    there is none; and for an identifier X that does not contain
    "spotify:track:", the forms "spotify:track:X" and "X" give the same
    rank, as the tests of resolve.unit.test.ts expect. *)
Theorem extractRank_first_occurrence (document : Json.json) (songId : string) :
  Json.validateSnapshotSchema document = Ok true ->
  exists snapshot, Json.asSnapshot document = Some snapshot /\
    ((forall entry, In entry (Rank.items snapshot) ->
        Rank.clean (Rank.trackId entry) <> Rank.clean songId) ->
     Rank.extractRankBySongId snapshot songId = 101) /\
    (forall before entry after,
        Rank.items snapshot = (before ++ entry :: after)%list ->
        (forall e, In e before -> Rank.clean (Rank.trackId e) <> Rank.clean songId) ->
        Rank.clean (Rank.trackId entry) = Rank.clean songId ->
        Rank.extractRankBySongId snapshot songId = Rank.rank entry) /\
    (JsString.includes Rank.TRACK_URI songId = false ->
       Rank.clean songId = songId /\
       Rank.extractRankBySongId snapshot (Rank.TRACK_URI +:+ songId)
       = Rank.extractRankBySongId snapshot songId).
Proof.
  intros Hvalid.
  destruct (validateSnapshotSchema_asSnapshot document Hvalid) as [snapshot Hs].
  exists snapshot. split; [exact Hs|]. unfold Rank.extractRankBySongId.
  split; [|split].
  - apply scanItems_absent.
  - intros before entry after -> Hb He. apply scanItems_first; assumption.
  - intros Hbare. rewrite clean_prefixed, (clean_bare songId Hbare). split; reflexivity.
Qed.

Lemma extractRank_first_occurrence_witness :
  exists snapshot, Json.asSnapshot Fixture.mockSnapshot = Some snapshot /\
    Rank.extractRankBySongId snapshot (Rank.TRACK_URI +:+ "7qEHsqek33rTcFNT9PFqLf") = 3 /\
    Rank.extractRankBySongId snapshot "7qEHsqek33rTcFNT9PFqLf" = 3.
Proof.
  destruct (extractRank_first_occurrence Fixture.mockSnapshot "7qEHsqek33rTcFNT9PFqLf")
    as (snapshot & Hs & _ & _ & Hsame); [reflexivity|].
  destruct Hsame as [_ Hsame]; [reflexivity|].
  exists snapshot. split; [exact Hs|]. rewrite Hsame.
  assert (Rank.extractRankBySongId snapshot "7qEHsqek33rTcFNT9PFqLf" = 3) as ->.
  { vm_compute in Hs. injection Hs as <-. reflexivity. }
  split; reflexivity.
Defined.

(** The tests of resolve.unit.test.ts on [extractRankBySongId]. *)
Lemma extractRank_unit_tests :
  exists snapshot, Json.asSnapshot Fixture.mockSnapshot = Some snapshot /\
    Rank.extractRankBySongId snapshot "0VjIjW4GlULA" = 1 /\
    Rank.extractRankBySongId snapshot "spotify:track:7qiZfU4dY4WnASrxmjMzxQ" = 2 /\
    Rank.extractRankBySongId snapshot "nonexistent-track-id" = 101.
Proof. eexists. split; [reflexivity|]. repeat split. Qed.

(** On identifiers in the two announced formats the code does what the
    claim says: [replace] and the stripping of the prefix give the same
    text, and the loop is the search of the first matching entry. *)
Lemma clean_announced (id : string) :
  RankSpec.announced id = true -> Rank.clean id = RankSpec.stripPrefix id.
Proof.
  unfold RankSpec.announced, RankSpec.stripPrefix, Rank.clean. intros H.
  apply negb_true_iff in H.
  destruct (JsString.startsWith Rank.TRACK_URI id) eqn:Hprefix.
  - destruct id as [|c id]; [discriminate Hprefix|].
    cbn [JsString.replace]. rewrite Hprefix. reflexivity.
  - apply replace_absent. exact H.
Qed.

Lemma scanItems_find (c : string) (its : list Rank.Item) :
  Rank.scanItems c its
  = match List.find (fun entry => String.eqb (Rank.clean (Rank.trackId entry)) c) its with
    | Some entry => Rank.rank entry
    | None => 101
    end.
Proof.
  induction its as [|it its IH]; cbn [Rank.scanItems List.find]; [reflexivity|].
  destruct (String.eqb (Rank.clean (Rank.trackId it)) c); [reflexivity | exact IH].
Qed.

Lemma extractRank_announced_formats (snapshot : Rank.SpotifySnapshot) (songId : string) :
  RankSpec.announced songId = true ->
  (forall entry, In entry (Rank.items snapshot) ->
     RankSpec.announced (Rank.trackId entry) = true) ->
  Rank.extractRankBySongId snapshot songId = RankSpec.extractRank snapshot songId.
Proof.
  intros Hid Hentries. unfold Rank.extractRankBySongId, RankSpec.extractRank.
  rewrite scanItems_find, (clean_announced songId Hid).
  induction (Rank.items snapshot) as [|it its IH]; cbn [List.find]; [reflexivity|].
  rewrite (clean_announced (Rank.trackId it)) by (apply Hentries; left; reflexivity).
  destruct (String.eqb _ _); [reflexivity|].
  apply IH. intros entry Hin. apply Hentries. right. exact Hin.
Qed.

(** C8. The code at the input where it leaves the claim. The comment in
    [extractRankBySongId] announces the two formats "spotify:track:abc123"
    and "abc123", and the tests expect 101 for a song that is not in the
    chart; [replace] with a string pattern removes the first occurrence
    wherever it stands, not only a prefix. The document below is
    schema-valid and its one entry has the identifier ["ab"]. The
    identifier ["aspotify:track:b"] does not start with the URI scheme, so
    that stripping the prefix leaves it as it is and no entry matches it:
    the extractor of the claim answers 101. The code removes the scheme
    from the middle, matches the entry ["ab"] and answers its rank 7; and
    it answers 101 for the prefixed form of the same identifier, so that
    the two forms do not resolve to the same rank. *)
Lemma extractRank_is_not_prefix_stripping :
  Json.validateSnapshotSchema Fixture.oddDocument = Ok true /\
  Json.asSnapshot Fixture.oddDocument = Some Fixture.oddChart /\
  JsString.startsWith Rank.TRACK_URI Fixture.oddId = false /\
  RankSpec.extractRank Fixture.oddChart Fixture.oddId = 101 /\
  Rank.extractRankBySongId Fixture.oddChart Fixture.oddId = 7 /\
  Rank.extractRankBySongId Fixture.oddChart (Rank.TRACK_URI +:+ Fixture.oddId) = 101.
Proof. repeat split. Qed.

(** ** Executions *)

Lemma run_bind (E : Env) {A B} (m : Job A) (f : A -> Job B) (w : World) :
  run E (bind m f) w =
  match run E m w with
  | (Ok a, w') => run E (f a) w'
  | (Throw e, w') => (Throw e, w')
  end.
Proof.
  revert w. induction m as [[a|e]|X e k IH]; intros w; simpl; try reflexivity.
  destruct (handle E e w) as [x w']. apply IH.
Qed.

Lemma run_tryCatch (E : Env) {A} (m : Job A) (h : Error -> Job A) (w : World) :
  run E (tryCatch m h) w =
  match run E m w with
  | (Ok a, w') => (Ok a, w')
  | (Throw e, w') => run E (h e) w'
  end.
Proof.
  revert w. induction m as [[a|e]|X e k IH]; intros w; simpl; try reflexivity.
  destruct (handle E e w) as [x w']. apply IH.
Qed.

(** ** lib/hash.ts *)

Lemma length_app (a b : string) :
  String.length (a +:+ b) = (String.length a + String.length b)%nat.
Proof.
  induction a as [|c a IH]; [reflexivity|].
  change (S (String.length (a +:+ b)) = S (String.length a + String.length b)).
  rewrite IH. reflexivity.
Qed.

Lemma toLowerCase_length (s : string) :
  String.length (JsString.toLowerCase s) = String.length s.
Proof. induction s as [|c s IH]; simpl; congruence. Qed.

Lemma encode_length (bs : Hex.bytes) :
  String.length (Hex.encode bs) = (2 * List.length bs)%nat.
Proof. induction bs as [|b bs IH]; simpl; lia. Qed.

(** The digits that [encode] writes are already lower-case. *)
Lemma toLowerCase_encode (bs : Hex.bytes) :
  JsString.toLowerCase (Hex.encode bs) = Hex.encode bs.
Proof.
  induction bs as [|b bs IH]; [reflexivity|].
  cbn [Hex.encode JsString.toLowerCase]. rewrite IH.
  destruct b; reflexivity.
Qed.

Lemma toLowerCase_app (a b : string) :
  JsString.toLowerCase (a +:+ b) = JsString.toLowerCase a +:+ JsString.toLowerCase b.
Proof.
  induction a as [|c a IH]; [reflexivity|].
  change (String (JsString.lower c) (JsString.toLowerCase (a +:+ b))
          = String (JsString.lower c) (JsString.toLowerCase a +:+ JsString.toLowerCase b)).
  rewrite IH. reflexivity.
Qed.

Lemma toLowerCase_sha256 (P : Platform) (data : Hex.bytes) :
  JsString.toLowerCase (Hash.sha256 P data) = Hash.sha256 P data.
Proof.
  unfold Hash.sha256. rewrite toLowerCase_app, toLowerCase_encode. reflexivity.
Qed.

(** C10. [verifyHash] accepts exactly the texts whose lower-case form is
    "0x" followed by the lower-case hexadecimal digest of the data. The
    digest without "0x", in either case, is refused, and
    [fetchAndVerifyHash] then throws its hash verification failure for
    the bytes that the host served. *)
Theorem verifyHash_iff_prefixed_digest (P : Platform) (data : Hex.bytes) (expectedHash : string) :
  (Hash.verifyHash P data expectedHash = true <->
   JsString.toLowerCase expectedHash = "0x" +:+ Hex.encode (sha256_digest P data)) /\
  (JsString.toLowerCase expectedHash = Hex.encode (sha256_digest P data) ->
   Hash.verifyHash P data expectedHash = false /\
   forall (E : Env) (w : World) (url : string) (status : Z),
     http E url = Response true status data ->
     run E (fetchAndVerifyHash P url expectedHash) w
     = (Throw (HashVerificationFailed url expectedHash (Hash.sha256 P data)), w)).
Proof.
  assert (Hiff : Hash.verifyHash P data expectedHash = true <->
                 JsString.toLowerCase expectedHash = "0x" +:+ Hex.encode (sha256_digest P data)).
  { unfold Hash.verifyHash. rewrite toLowerCase_sha256, String.eqb_eq.
    unfold Hash.sha256. split; congruence. }
  split; [exact Hiff|].
  intros Hbare.
  assert (Hno : Hash.verifyHash P data expectedHash = false).
  { apply not_true_is_false. intros Hyes. apply Hiff in Hyes.
    rewrite Hbare in Hyes. apply (f_equal String.length) in Hyes.
    rewrite length_app in Hyes. simpl in Hyes. lia. }
  split; [exact Hno|].
  intros E w url status Hhttp.
  unfold fetchAndVerifyHash. simpl. rewrite Hhttp. simpl. rewrite Hno. reflexivity.
Qed.

Lemma verifyHash_iff_prefixed_digest_witness :
  Hash.verifyHash Fixture.platform Fixture.helloWorld
    "b94d27b9934d3e08a52e52d7da7dabfac484efe37a5380ee9088f7ace2efcde9" = false /\
  Hash.verifyHash Fixture.platform Fixture.helloWorld
    "0xb94d27b9934d3e08a52e52d7da7dabfac484efe37a5380ee9088f7ace2efcde9" = true.
Proof.
  split.
  - apply (verifyHash_iff_prefixed_digest Fixture.platform Fixture.helloWorld). reflexivity.
  - apply (verifyHash_iff_prefixed_digest Fixture.platform Fixture.helloWorld). reflexivity.
Defined.

(** The digest that [sha256] returns verifies, in either case. *)
Lemma verifyHash_own_digest (P : Platform) (data : Hex.bytes) (expectedHash : string) :
  JsString.toLowerCase expectedHash = Hash.sha256 P data ->
  Hash.verifyHash P data expectedHash = true.
Proof.
  intros H. unfold Hash.verifyHash. rewrite toLowerCase_sha256, H. apply String.eqb_refl.
Qed.

(** The tests of resolve.unit.test.ts on the hash utilities: the known
    digest of "hello world", and the comparison that ignores case. *)
Lemma hash_unit_tests :
  Hash.sha256 Fixture.platform Fixture.helloWorld
  = "0xb94d27b9934d3e08a52e52d7da7dabfac484efe37a5380ee9088f7ace2efcde9" /\
  Hash.verifyHash Fixture.platform Fixture.helloWorld
    (JsString.toUpperCase (Hash.sha256 Fixture.platform Fixture.helloWorld)) = true /\
  Hash.verifyHash Fixture.platform Fixture.helloWorld
    "0x1234567890abcdef1234567890abcdef1234567890abcdef1234567890abcdef" = false.
Proof. repeat split. Qed.

(** ** The commitment encoder *)

Lemma byteOfN_to_N (n : N) : (n < 256)%N -> Strings.Byte.to_N (Hex.byteOfN n) = n.
Proof.
  intros Hn. unfold Hex.byteOfN. rewrite N.mod_small by exact Hn.
  destruct (Strings.Byte.of_N n) as [b|] eqn:Hb.
  - apply Strings.Byte.to_of_N. exact Hb.
  - apply Strings.Byte.of_N_None_iff in Hb. lia.
Qed.

Lemma bigEndian_inj (size : nat) (z z' : Z) :
  0 <= z < 256 ^ Z.of_nat size -> 0 <= z' < 256 ^ Z.of_nat size ->
  Hex.bigEndian size z = Hex.bigEndian size z' -> z = z'.
Proof.
  revert z z'. induction size as [|size IH]; intros z z' Hz Hz' Heq.
  - simpl in Hz, Hz'. lia.
  - rewrite Nat2Z.inj_succ, Z.pow_succ_r in Hz, Hz' by lia.
    cbn [Hex.bigEndian] in Heq. apply app_inj_tail in Heq as [Hhi Hlo].
    assert (Hq : z / 256 = z' / 256).
    { apply IH; [split | split | exact Hhi];
        try (apply Z.div_pos; lia); apply Z.div_lt_upper_bound; lia. }
    assert (Hr : z mod 256 = z' mod 256).
    { apply (f_equal Strings.Byte.to_N) in Hlo.
      rewrite !byteOfN_to_N in Hlo
        by (pose proof (Z.mod_pos_bound z 256); pose proof (Z.mod_pos_bound z' 256); lia).
      pose proof (Z.mod_pos_bound z 256). pose proof (Z.mod_pos_bound z' 256). lia. }
    rewrite (Z.div_mod z 256), (Z.div_mod z' 256) by lia. congruence.
Qed.

Lemma list_byte_of_string_inj (s s' : string) :
  list_byte_of_string s = list_byte_of_string s' -> s = s'.
Proof.
  intros H. rewrite <- (string_of_list_byte_of_string s), <- (string_of_list_byte_of_string s').
  congruence.
Qed.

(** [decode] reads back what [encode] wrote: two digests with the same
    text are the same bytes. *)
Lemma decode_encode (bs : Hex.bytes) : Hex.decode (Hex.encode bs) = Some bs.
Proof.
  induction bs as [|b bs IH]; [reflexivity|].
  cbn [Hex.encode Hex.decode]. rewrite IH. destruct b; reflexivity.
Qed.

Lemma encode_inj (bs bs' : Hex.bytes) : Hex.encode bs = Hex.encode bs' -> bs = bs'.
Proof.
  intros H. apply (f_equal Hex.decode) in H. rewrite !decode_encode in H. congruence.
Qed.

Lemma pow2_whole_bytes (bits : nat) :
  Nat.modulo bits 8 = 0%nat -> 2 ^ Z.of_nat bits = 256 ^ Z.of_nat (Nat.div bits 8).
Proof.
  intros H. apply Nat.Div0.div_exact in H.
  rewrite H at 1. rewrite Nat2Z.inj_mul, Z.pow_mul_r by lia. reflexivity.
Qed.

(** Different data of one type are different bytes. *)
Lemma encode_differ (t : Abi.abiType) (v v' : Abi.abiValue) (e e' : Hex.bytes) :
  Abi.wholeBytes t -> Abi.differ t v v' ->
  Abi.encode t v = Ok e -> Abi.encode t v' = Ok e' -> e <> e'.
Proof.
  intros Hw Hd He He' Heq. subst e'.
  destruct t as [bits| |n], v as [z|s|s], v' as [z'|s'|s']; cbn [Abi.differ] in Hd;
    try contradiction.
  - cbn [Abi.encode] in He, He'.
    destruct ((0 <=? z) && (z <? 2 ^ Z.of_nat bits)) eqn:Hz; [|discriminate].
    destruct ((0 <=? z') && (z' <? 2 ^ Z.of_nat bits)) eqn:Hz'; [|discriminate].
    apply andb_true_iff in Hz as [Hz0 Hz1], Hz' as [Hz0' Hz1'].
    apply Z.leb_le in Hz0, Hz0'. apply Z.ltb_lt in Hz1, Hz1'.
    rewrite (pow2_whole_bytes bits Hw) in Hz1, Hz1'.
    apply Hd, (bigEndian_inj (Nat.div bits 8)); [lia | lia | congruence].
  - cbn [Abi.encode] in He, He'. apply Hd, list_byte_of_string_inj. congruence.
  - apply Hd. congruence.
Qed.

(** Replacing one value by different data changes the packed bytes. *)
Lemma encodePacked_insert (types : list Abi.abiType) :
  Forall Abi.wholeBytes types ->
  forall (values : list Abi.abiValue) (i : nat) (t : Abi.abiType) (v v' : Abi.abiValue)
         (b b' : Hex.bytes),
    Abi.encodePacked types values = Ok b ->
    Abi.encodePacked types (<[i := v']> values) = Ok b' ->
    types !! i = Some t -> values !! i = Some v -> Abi.differ t v v' ->
    b <> b'.
Proof.
  induction 1 as [|t0 types Hw0 Hw IH]; intros values i t v v' b b' Hb Hb' Ht Hv Hd.
  - destruct i; discriminate Ht.
  - destruct values as [|v0 values]; [destruct i; discriminate Hv|].
    destruct i as [|i]; simpl in Ht, Hv, Hb, Hb'.
    + injection Ht as ->. injection Hv as ->.
      destruct (Abi.encode t v) as [e|] eqn:He; [|discriminate].
      destruct (Abi.encode t v') as [e'|] eqn:He'; [|discriminate].
      simpl in Hb, Hb'.
      destruct (Abi.encodePacked types values) as [rest|]; [|discriminate].
      simpl in Hb, Hb'. injection Hb as <-. injection Hb' as <-.
      intros Heq. apply app_inv_tail in Heq.
      exact (encode_differ t v v' e e' Hw0 Hd He He' Heq).
    + destruct (Abi.encode t0 v0) as [e|]; [|discriminate].
      simpl in Hb, Hb'.
      destruct (Abi.encodePacked types values) as [rest|] eqn:Hrest; [|discriminate].
      destruct (Abi.encodePacked types (<[i := v']> values)) as [rest'|] eqn:Hrest'; [|discriminate].
      simpl in Hb, Hb'. injection Hb as <-. injection Hb' as <-.
      intros Heq. apply app_inv_head in Heq.
      exact (IH values i t v v' rest rest' Hrest Hrest' Ht Hv Hd Heq).
Qed.

Lemma commitmentTypes_wholeBytes : Forall Abi.wholeBytes Chain.commitmentTypes.
Proof. repeat constructor. Qed.

(** The digest depends on the arguments through the packed bytes only. *)
Lemma computeCommitment_packed (P : Platform)
    (m r0 r1 o : Z) (e0 e1 : Chain.Evidence) (n : Z)
    (m' r0' r1' o' : Z) (e0' e1' : Chain.Evidence) (n' : Z) :
  Chain.packed m r0 r1 o e0 e1 n = Chain.packed m' r0' r1' o' e0' e1' n' ->
  Chain.computeCommitment P m r0 r1 o e0 e1 n
  = Chain.computeCommitment P m' r0' r1' o' e0' e1' n'.
Proof. unfold Chain.computeCommitment. intros ->. reflexivity. Qed.

(** C2, as the code has it. The commitment is the Keccak-256 digest of
    the packed bytes, in which a number is a big-endian integer of fixed
    width, a string is its UTF-8 bytes with neither length nor delimiter,
    and a digest is the 32 bytes its text denotes. When one of the fifteen
    packed values is replaced by different data of its type and every
    other value is kept, the packed bytes change; the two commitments are
    then equal only if Keccak-256 has the same digest for these two byte
    sequences. *)
Theorem computeCommitment_one_value (P : Platform)
    (m r0 r1 o : Z) (e0 e1 : Chain.Evidence) (n : Z)
    (m' r0' r1' o' : Z) (e0' e1' : Chain.Evidence) (n' : Z)
    (i : nat) (t : Abi.abiType) (v v' : Abi.abiValue) (b b' : Hex.bytes) :
  Chain.packed m r0 r1 o e0 e1 n = Ok b ->
  Chain.packed m' r0' r1' o' e0' e1' n' = Ok b' ->
  Chain.commitmentTypes !! i = Some t ->
  Chain.commitmentValues m r0 r1 o e0 e1 n !! i = Some v ->
  Chain.commitmentValues m' r0' r1' o' e0' e1' n'
  = <[i := v']> (Chain.commitmentValues m r0 r1 o e0 e1 n) ->
  Abi.differ t v v' ->
  b <> b' /\
  (Chain.computeCommitment P m r0 r1 o e0 e1 n
   = Chain.computeCommitment P m' r0' r1' o' e0' e1' n' ->
   keccak_256 P b = keccak_256 P b').
Proof.
  intros Hb Hb' Ht Hv Hvs Hd. split.
  - unfold Chain.packed in Hb, Hb'. rewrite Hvs in Hb'.
    exact (encodePacked_insert _ commitmentTypes_wholeBytes _ i t v v' b b' Hb Hb' Ht Hv Hd).
  - unfold Chain.computeCommitment. rewrite Hb, Hb'. simpl. unfold Chain.keccak256.
    intros Heq. injection Heq as Heq. apply encode_inj. exact Heq.
Qed.

Lemma computeCommitment_one_value_witness :
  Fixture.unpack (Chain.packed 42 12 8 1 Fixture.evidenceA0 Fixture.evidenceA1 0)
  <> Fixture.unpack (Chain.packed 42 12 9 1 Fixture.evidenceA0 Fixture.evidenceA1 0).
Proof.
  refine (proj1 (computeCommitment_one_value Fixture.platform
                   42 12 8 1 Fixture.evidenceA0 Fixture.evidenceA1 0
                   42 12 9 1 Fixture.evidenceA0 Fixture.evidenceA1 0
                   2 (Abi.uint 16) (Abi.VInt 8) (Abi.VInt 9) _ _ _ _ _ _ _ _));
    try (vm_compute; reflexivity).
  simpl. lia.
Defined.

(** C2, as it is worded, fails: the strings are neither length-prefixed
    nor delimited, and a digest is hashed as bytes, not as text. Moving
    the end of the [ipfsCid] of the first evidence to the start of the
    [csvUrl] of the second, or writing the digits of one digest in upper
    case, changes the arguments and leaves the commitment as it was,
    whatever the hash function is. *)
Lemma computeCommitment_ambiguous :
  (Fixture.evidenceA0 <> Fixture.evidenceB0 /\ Fixture.evidenceA1 <> Fixture.evidenceB1 /\
   forall P : Platform,
     Chain.computeCommitment P 42 12 8 1 Fixture.evidenceA0 Fixture.evidenceA1 0
     = Chain.computeCommitment P 42 12 8 1 Fixture.evidenceB0 Fixture.evidenceB1 0) /\
  (Chain.jsonSha256 Fixture.evidenceA0 <> Chain.jsonSha256 Fixture.evidenceC0 /\
   forall P : Platform,
     Chain.computeCommitment P 42 12 8 1 Fixture.evidenceA0 Fixture.evidenceA1 0
     = Chain.computeCommitment P 42 12 8 1 Fixture.evidenceC0 Fixture.evidenceA1 0) /\
  exists b, Chain.packed 42 12 8 1 Fixture.evidenceA0 Fixture.evidenceA1 0 = Ok b.
Proof.
  split; [|split].
  - split; [discriminate|]. split; [discriminate|].
    intros P. apply computeCommitment_packed. vm_compute. reflexivity.
  - split; [vm_compute; discriminate|].
    intros P. apply computeCommitment_packed. vm_compute. reflexivity.
  - eexists. vm_compute. reflexivity.
Qed.

(** ** The jobs *)

Lemma run_sendSlackAlert (cfg : Config) (E : Env) (message : string)
    (details : option SlackDetails) (w : World) :
  run E (sendSlackAlert cfg message details) w = (Ok tt, notified cfg message details w).
Proof.
  unfold sendSlackAlert, notified.
  destruct (negb (truthyStr (SLACK_WEBHOOK_URL cfg))); reflexivity.
Qed.

Lemma run_catch (cfg : Config) (E : Env) {A} (jobName : string) (marketId : Z)
    (error : Error) (w : World) :
  run E (alertJobFailure cfg jobName marketId error ;; @throw A error) w
  = (Throw error, failureAlerted cfg E jobName marketId error w).
Proof.
  rewrite run_bind. unfold alertJobFailure. rewrite run_bind. simpl.
  rewrite run_sendSlackAlert. reflexivity.
Qed.

Lemma notified_tables (cfg : Config) (message : string) (details : option SlackDetails)
    (w : World) :
  markets (notified cfg message details w) = markets w /\
  snapshots (notified cfg message details w) = snapshots w /\
  resolutions (notified cfg message details w) = resolutions w /\
  chainLog (notified cfg message details w) = chainLog w /\
  ticks (notified cfg message details w) = ticks w.
Proof. unfold notified. destruct (negb _); repeat split. Qed.

Lemma failureAlerted_tables (cfg : Config) (E : Env) (jobName : string) (marketId : Z)
    (error : Error) (w : World) :
  markets (failureAlerted cfg E jobName marketId error w) = markets w /\
  snapshots (failureAlerted cfg E jobName marketId error w) = snapshots w /\
  resolutions (failureAlerted cfg E jobName marketId error w) = resolutions w /\
  chainLog (failureAlerted cfg E jobName marketId error w) = chainLog w.
Proof.
  unfold failureAlerted.
  destruct (notified_tables cfg ("❌ Job failed: " +:+ jobName)
              (Some (JobFailure marketId error (clock E (ticks w)))) (tick w))
    as (-> & -> & -> & -> & _).
  repeat split.
Qed.

(** The commit job on a row whose [commitTx] is set, before its [catch]. *)
Lemma commitResolveBody_committed (P : Platform) (cfg : Config) (E : Env) (w : World)
    (marketId : Z) (resolution : Resolution.t) :
  resolutions w !! marketId = Some resolution ->
  truthyStr (Resolution.commitTx resolution) = true ->
  run E (commitResolveBody P cfg marketId) w =
  (match findMarket marketId (markets w) with
   | None => Throw (MarketNotFound marketId)
   | Some _ =>
       if truthyNum (Resolution.outcome resolution)
       then Ok (AlreadyCommitted marketId (default "" (Resolution.commitTx resolution)))
       else Throw (ResolutionNotPrepared marketId)
   end, w).
Proof.
  intros Hres Htx. unfold commitResolveBody, getMarket, getResolution, perform.
  cbn [bind run handle].
  destruct (findMarket marketId (markets w)) as [market|]; cbn [bind run handle]; [|reflexivity].
  rewrite Hres.
  destruct (truthyNum (Resolution.outcome resolution)); cbn [negb]; [|reflexivity].
  rewrite Htx. reflexivity.
Qed.

(** C4. On a row whose commit transaction reference is set, the commit
    job sends nothing to the chain and writes nothing, whatever else the
    world holds: the row is read and its [commitTx] checked before the
    first call to the chain. When the row is one the workflow can have
    produced (its market exists, as the foreign key demands, and its
    outcome is set, as invariant 3 of the data model demands of a row with
    a commit reference and as [jobs_keep_commit_after_outcome] shows the
    jobs to maintain), the job returns the stored reference and leaves the
    world as it found it. *)
Theorem commit_already_committed (P : Platform) (cfg : Config) (E : Env) (w : World)
    (marketId : Z) (resolution : Resolution.t) :
  resolutions w !! marketId = Some resolution ->
  truthyStr (Resolution.commitTx resolution) = true ->
  chainLog (snd (run E (commitResolveJob P cfg marketId) w)) = chainLog w /\
  resolutions (snd (run E (commitResolveJob P cfg marketId) w)) = resolutions w /\
  (forall market : Market.t,
     findMarket marketId (markets w) = Some market ->
     truthyNum (Resolution.outcome resolution) = true ->
     exists txHash, Resolution.commitTx resolution = Some txHash /\
       run E (commitResolveJob P cfg marketId) w = (Ok (AlreadyCommitted marketId txHash), w)).
Proof.
  intros Hres Htx.
  unfold commitResolveJob. rewrite run_tryCatch.
  rewrite (commitResolveBody_committed P cfg E w marketId resolution Hres Htx).
  split; [|split].
  - destruct (findMarket marketId (markets w));
      [destruct (truthyNum (Resolution.outcome resolution)); [reflexivity|] |];
      rewrite run_catch; apply failureAlerted_tables.
  - destruct (findMarket marketId (markets w));
      [destruct (truthyNum (Resolution.outcome resolution)); [reflexivity|] |];
      rewrite run_catch; apply failureAlerted_tables.
  - intros market -> ->.
    destruct (Resolution.commitTx resolution) as [txHash|]; [|discriminate Htx].
    exists txHash. split; reflexivity.
Qed.

Lemma commit_already_committed_witness :
  run Fixture.env (commitResolveJob Fixture.platform Fixture.config 42) Fixture.worldOpen
  = (Ok (AlreadyCommitted 42 "0xc001"), Fixture.worldOpen).
Proof.
  destruct (commit_already_committed Fixture.platform Fixture.config Fixture.env
              Fixture.worldOpen 42 Fixture.committedRow eq_refl eq_refl) as (_ & _ & Hret).
  destruct (Hret Fixture.market eq_refl eq_refl) as (txHash & Htx & Hrun).
  injection Htx as <-. exact Hrun.
Defined.

Lemma findMarket_marketId (marketId : Z) (ms : list Market.t) (market : Market.t) :
  findMarket marketId ms = Some market -> Market.marketId market = marketId.
Proof.
  unfold findMarket. intros H. apply find_some in H as [_ H]. apply Z.eqb_eq in H. exact H.
Qed.

(** An upsert that names a transaction field and neither a rank, nor an
    outcome, nor a snapshot meets every constraint as soon as the market
    exists. *)
Lemma upsert_transaction_fields (w : World) (marketId : Z) (market : Market.t)
    (old : Resolution.t)
    (commitTx : option string) (committedAt disputeUntil : option Z)
    (finalizeTx : option string) (finalizedAt : option Z) :
  findMarket marketId (markets w) = Some market ->
  resolutions w !! marketId = Some old ->
  Resolution.namesNoField
    (Resolution.mk None None None None None commitTx committedAt disputeUntil finalizeTx finalizedAt)
  = false ->
  upsert marketId
    (Resolution.mk None None None None None commitTx committedAt disputeUntil finalizeTx finalizedAt) w
  = (Ok tt,
     setResolutions
       (<[marketId := Resolution.merge
            (Resolution.mk None None None None None
               commitTx committedAt disputeUntil finalizeTx finalizedAt) old]>
          (resolutions w)) w).
Proof.
  intros Hm Hold Hnamed. unfold upsert. rewrite Hnamed.
  cbn [Resolution.t0Rank Resolution.t1Rank Resolution.outcome
    Resolution.t0SnapshotId Resolution.t1SnapshotId isSmallint references andb].
  rewrite Hm, Hold. rewrite bool_decide_eq_true_2 by eauto. reflexivity.
Qed.

(** The finalize job on a committed row that is not finalized, before its
    [catch]: while the window is open; and after it has closed, when the
    evidence rows are there and the transaction is sent. *)
Lemma finalizeResolveBody_window_active (cfg : Config) (E : Env) (w : World)
    (marketId : Z) (market : Market.t) (r : Resolution.t) (disputeUntil : Z) :
  findMarket marketId (markets w) = Some market ->
  resolutions w !! marketId = Some r ->
  truthyStr (Resolution.commitTx r) = true ->
  Resolution.disputeUntil r = Some disputeUntil ->
  truthyStr (Resolution.finalizeTx r) = false ->
  clock E (ticks w) < disputeUntil ->
  run E (finalizeResolveBody cfg marketId) w
  = (Throw (DisputeWindowActive disputeUntil), tick (tick w)).
Proof.
  intros Hm Hr Hc Hd Hf Hnow.
  unfold finalizeResolveBody, getMarket, getResolution, perform.
  cbn [bind run handle]. rewrite Hm. cbn [bind run handle]. rewrite Hr, Hd, Hc, Hf.
  cbn [negb bind run handle].
  destruct (Z.ltb_spec (clock E (ticks w)) disputeUntil) as [_|Hge]; [|lia].
  reflexivity.
Qed.

Lemma finalizeResolveBody_window_closed (cfg : Config) (E : Env) (w : World)
    (marketId : Z) (market : Market.t) (r : Resolution.t) (disputeUntil : Z)
    (id0 id1 : Z) (t0Snapshot t1Snapshot : Snapshot.t) (txHash : string) :
  findMarket marketId (markets w) = Some market ->
  resolutions w !! marketId = Some r ->
  truthyStr (Resolution.commitTx r) = true ->
  Resolution.disputeUntil r = Some disputeUntil ->
  truthyStr (Resolution.finalizeTx r) = false ->
  disputeUntil <= clock E (ticks w) ->
  Resolution.t0SnapshotId r = Some id0 -> findSnapshot id0 (snapshots w) = Some t0Snapshot ->
  Resolution.t1SnapshotId r = Some id1 -> findSnapshot id1 (snapshots w) = Some t1Snapshot ->
  hasAccount cfg = true ->
  chainWrite E (chainLog w) (finalizeCall marketId r t0Snapshot t1Snapshot) = Sent txHash ->
  run E (finalizeResolveBody cfg marketId) w
  = (Ok (Finalized marketId txHash (Resolution.outcome r)),
     finalized cfg E marketId r (finalizeCall marketId r t0Snapshot t1Snapshot) txHash w).
Proof.
  intros Hm Hr Hc Hd Hf Hnow Hid0 Hs0 Hid1 Hs1 Hacc Hsent.
  pose proof (findMarket_marketId _ _ _ Hm) as Hmid.
  unfold finalizeResolveBody, getMarket, getResolution, perform.
  cbn [bind run handle]. rewrite Hm. cbn [bind run handle]. rewrite Hr, Hd, Hc, Hf.
  cbn [negb bind run handle].
  destruct (Z.ltb_spec (clock E (ticks w)) disputeUntil) as [Hlt|_]; [lia|].
  rewrite Hid0, Hid1. unfold getSnapshotIfSet, getSnapshot, perform. cbn [bind run handle tick snapshots].
  rewrite Hs0, Hs1. unfold sendFinalizeResolve. rewrite Hacc. cbn [negb].
  unfold attempt. cbn [bind run handle tick chainLog]. rewrite Hmid.
  fold (finalizeCall marketId r t0Snapshot t1Snapshot). rewrite Hsent.
  cbn [bind run handle]. unfold upsertResolution, attempt. cbn [bind run handle].
  rewrite (upsert_transaction_fields _ marketId market r) by first [assumption | reflexivity].
  cbn [bind run handle]. unfold alertResolutionSuccess, perform. cbn [bind run handle].
  rewrite run_bind, run_sendSlackAlert. reflexivity.
Qed.

(** The same row after the window has closed, when a snapshot reference
    is not set or leads to no snapshot row: the guard between the window
    check and the submission throws. *)
Lemma finalizeResolveBody_missing_evidence (cfg : Config) (E : Env) (w : World)
    (marketId : Z) (market : Market.t) (r : Resolution.t) (disputeUntil : Z) :
  findMarket marketId (markets w) = Some market ->
  resolutions w !! marketId = Some r ->
  truthyStr (Resolution.commitTx r) = true ->
  Resolution.disputeUntil r = Some disputeUntil ->
  truthyStr (Resolution.finalizeTx r) = false ->
  disputeUntil <= clock E (ticks w) ->
  snapshotOf (Resolution.t0SnapshotId r) w = None \/
  snapshotOf (Resolution.t1SnapshotId r) w = None ->
  run E (finalizeResolveBody cfg marketId) w
  = (Throw (MissingSnapshotEvidence marketId), tick w).
Proof.
  intros Hm Hr Hc Hd Hf Hnow Hmissing.
  unfold finalizeResolveBody, getMarket, getResolution, perform.
  cbn [bind run handle]. rewrite Hm. cbn [bind run handle]. rewrite Hr, Hd, Hc, Hf.
  cbn [negb bind run handle].
  destruct (Z.ltb_spec (clock E (ticks w)) disputeUntil) as [Hlt|_]; [lia|].
  unfold snapshotOf in Hmissing.
  destruct (Resolution.t0SnapshotId r) as [id0|], (Resolution.t1SnapshotId r) as [id1|];
    unfold getSnapshotIfSet, getSnapshot, perform, ret;
    cbn [bind run handle tick snapshots];
    repeat match goal with
           | |- context [findSnapshot ?i (snapshots w)] =>
               destruct (findSnapshot i (snapshots w)); cbn [bind run handle]
           end;
    try reflexivity; destruct Hmissing; discriminate.
Qed.

Lemma finalized_tables (cfg : Config) (E : Env) (marketId : Z) (r : Resolution.t)
    (call : ContractCall) (txHash : string) (w : World) :
  markets (finalized cfg E marketId r call txHash w) = markets w /\
  snapshots (finalized cfg E marketId r call txHash w) = snapshots w /\
  resolutions (finalized cfg E marketId r call txHash w)
  = <[marketId := Resolution.merge (finalizePatch txHash (clock E (S (ticks w)))) r]>
      (resolutions w) /\
  chainLog (finalized cfg E marketId r call txHash w) = (chainLog w ++ [call])%list.
Proof.
  unfold finalized.
  match goal with
  | |- context [notified ?c ?m ?d ?w0] =>
      destruct (notified_tables c m d w0) as (-> & -> & -> & -> & _)
  end.
  repeat split.
Qed.

(** C5, as the code has it. For a committed row that is not finalized and
    whose market exists: while the clock reads less than [disputeUntil]
    the job fails with the window-active error, sends nothing and writes
    nothing; once the clock reads [disputeUntil] or more, and both evidence
    snapshots that the row refers to are found, a wallet account is
    configured and the transaction is sent with its hash returned, the job
    sends the finalize call once and stores the hash and the time of a
    later reading of the clock in the row, whose other fields stay; and
    once the clock reads [disputeUntil] or more and a snapshot reference of
    the row is not set, or names a snapshot that is not found, the job
    fails with the missing-evidence error, sends nothing and writes
    nothing. *)
Theorem finalize_window_gate (cfg : Config) (E : Env) (w : World)
    (marketId : Z) (market : Market.t) (r : Resolution.t) (disputeUntil : Z) :
  findMarket marketId (markets w) = Some market ->
  resolutions w !! marketId = Some r ->
  truthyStr (Resolution.commitTx r) = true ->
  Resolution.disputeUntil r = Some disputeUntil ->
  truthyStr (Resolution.finalizeTx r) = false ->
  (clock E (ticks w) < disputeUntil ->
     fst (run E (finalizeResolveJob cfg marketId) w) = Throw (DisputeWindowActive disputeUntil) /\
     chainLog (snd (run E (finalizeResolveJob cfg marketId) w)) = chainLog w /\
     resolutions (snd (run E (finalizeResolveJob cfg marketId) w)) = resolutions w) /\
  (disputeUntil <= clock E (ticks w) ->
     forall (id0 id1 : Z) (t0Snapshot t1Snapshot : Snapshot.t) (txHash : string),
       Resolution.t0SnapshotId r = Some id0 ->
       findSnapshot id0 (snapshots w) = Some t0Snapshot ->
       Resolution.t1SnapshotId r = Some id1 ->
       findSnapshot id1 (snapshots w) = Some t1Snapshot ->
       hasAccount cfg = true ->
       chainWrite E (chainLog w) (finalizeCall marketId r t0Snapshot t1Snapshot) = Sent txHash ->
       fst (run E (finalizeResolveJob cfg marketId) w)
       = Ok (Finalized marketId txHash (Resolution.outcome r)) /\
       chainLog (snd (run E (finalizeResolveJob cfg marketId) w))
       = (chainLog w ++ [finalizeCall marketId r t0Snapshot t1Snapshot])%list /\
       resolutions (snd (run E (finalizeResolveJob cfg marketId) w))
       = <[marketId := Resolution.merge (finalizePatch txHash (clock E (S (ticks w)))) r]>
           (resolutions w)) /\
  (disputeUntil <= clock E (ticks w) ->
     snapshotOf (Resolution.t0SnapshotId r) w = None \/
     snapshotOf (Resolution.t1SnapshotId r) w = None ->
     fst (run E (finalizeResolveJob cfg marketId) w) = Throw (MissingSnapshotEvidence marketId) /\
     chainLog (snd (run E (finalizeResolveJob cfg marketId) w)) = chainLog w /\
     resolutions (snd (run E (finalizeResolveJob cfg marketId) w)) = resolutions w).
Proof.
  intros Hm Hr Hc Hd Hf. split; [|split].
  - intros Hnow. unfold finalizeResolveJob. rewrite run_tryCatch.
    rewrite (finalizeResolveBody_window_active cfg E w marketId market r disputeUntil)
      by assumption.
    rewrite run_catch. cbn [fst snd].
    destruct (failureAlerted_tables cfg E "finalizeResolve" marketId
                (DisputeWindowActive disputeUntil) (tick (tick w))) as (_ & _ & -> & -> ).
    repeat split.
  - intros Hnow id0 id1 t0Snapshot t1Snapshot txHash Hid0 Hs0 Hid1 Hs1 Hacc Hsent.
    unfold finalizeResolveJob. rewrite run_tryCatch.
    rewrite (finalizeResolveBody_window_closed cfg E w marketId market r disputeUntil
               id0 id1 t0Snapshot t1Snapshot txHash) by assumption.
    cbn [fst snd].
    destruct (finalized_tables cfg E marketId r
                (finalizeCall marketId r t0Snapshot t1Snapshot) txHash w)
      as (_ & _ & -> & ->).
    repeat split.
  - intros Hnow Hmissing. unfold finalizeResolveJob. rewrite run_tryCatch.
    rewrite (finalizeResolveBody_missing_evidence cfg E w marketId market r disputeUntil)
      by assumption.
    rewrite run_catch. cbn [fst snd].
    destruct (failureAlerted_tables cfg E "finalizeResolve" marketId
                (MissingSnapshotEvidence marketId) (tick w)) as (_ & _ & -> & -> ).
    repeat split.
Qed.

Lemma finalize_window_gate_witness :
  (fst (run Fixture.env (finalizeResolveJob Fixture.config 42) Fixture.worldOpen)
   = Throw (DisputeWindowActive 10000) /\
   chainLog (snd (run Fixture.env (finalizeResolveJob Fixture.config 42) Fixture.worldOpen))
   = [Fixture.commitCall]) /\
  (fst (run Fixture.env (finalizeResolveJob Fixture.config 42) Fixture.worldClosed)
   = Ok (Finalized 42 "0xf001" (Some 1)) /\
   chainLog (snd (run Fixture.env (finalizeResolveJob Fixture.config 42) Fixture.worldClosed))
   = [Fixture.commitCall;
      finalizeCall 42 Fixture.committedRow Fixture.snapshot0 Fixture.snapshot1]) /\
  (fst (run Fixture.env (finalizeResolveJob Fixture.config 42) Fixture.worldRouteClosed)
   = Throw (MissingSnapshotEvidence 42) /\
   chainLog (snd (run Fixture.env (finalizeResolveJob Fixture.config 42)
                    Fixture.worldRouteClosed))
   = [Fixture.routeCommitCall]).
Proof.
  split; [|split].
  - destruct (finalize_window_gate Fixture.config Fixture.env Fixture.worldOpen 42
                Fixture.market Fixture.committedRow 10000) as [Hopen _];
      try reflexivity.
    destruct Hopen as (Hres & Hlog & _); [vm_compute; reflexivity|].
    split; [exact Hres | exact Hlog].
  - destruct (finalize_window_gate Fixture.config Fixture.env Fixture.worldClosed 42
                Fixture.market Fixture.committedRow 10000) as (_ & Hclosed & _);
      try reflexivity.
    destruct (Hclosed ltac:(vm_compute; discriminate) 1 2 Fixture.snapshot0 Fixture.snapshot1
                "0xf001") as (Hres & Hlog & _); try reflexivity.
    split; [exact Hres | exact Hlog].
  - destruct (finalize_window_gate Fixture.config Fixture.env Fixture.worldRouteClosed 42
                Fixture.market Fixture.routeCommittedRow 10000) as (_ & _ & Hmissing);
      try reflexivity.
    destruct (Hmissing ltac:(vm_compute; discriminate) (or_introl eq_refl))
      as (Hres & Hlog & _).
    split; [exact Hres | exact Hlog].
Defined.

(** C5, as it is worded, fails. The row below is committed and not
    finalized, and the clock reads 20000, past the end of the window at
    10000; the row holds no snapshot reference, as a row prepared and
    committed through the HTTP routes does. The job throws its missing
    evidence error: nothing is sent and no finalize reference is stored. *)
Lemma finalize_without_evidence_rows :
  resolutions Fixture.worldRouteClosed !! 42 = Some Fixture.routeCommittedRow /\
  Resolution.commitTx Fixture.routeCommittedRow = Some "0xc001" /\
  Resolution.disputeUntil Fixture.routeCommittedRow = Some 10000 /\
  Resolution.finalizeTx Fixture.routeCommittedRow = None /\
  clock Fixture.env (ticks Fixture.worldRouteClosed) = 20000 /\
  fst (run Fixture.env (finalizeResolveJob Fixture.config 42) Fixture.worldRouteClosed)
  = Throw (MissingSnapshotEvidence 42) /\
  chainLog (snd (run Fixture.env (finalizeResolveJob Fixture.config 42) Fixture.worldRouteClosed))
  = chainLog Fixture.worldRouteClosed /\
  resolutions (snd (run Fixture.env (finalizeResolveJob Fixture.config 42) Fixture.worldRouteClosed))
    !! 42 = Some Fixture.routeCommittedRow.
Proof. repeat split; vm_compute; reflexivity. Qed.

(** C7, as the code has it. The window-active failure of the finalize job
    goes through the [catch] block like every other failure:
    [alertJobFailure] is called, and the alert is posted to the webhook
    when one is configured, and is a warning on the console otherwise. *)
Theorem finalize_window_active_is_alerted (cfg : Config) (E : Env) (w : World)
    (marketId : Z) (market : Market.t) (r : Resolution.t) (disputeUntil : Z) :
  findMarket marketId (markets w) = Some market ->
  resolutions w !! marketId = Some r ->
  truthyStr (Resolution.commitTx r) = true ->
  Resolution.disputeUntil r = Some disputeUntil ->
  truthyStr (Resolution.finalizeTx r) = false ->
  clock E (ticks w) < disputeUntil ->
  fst (run E (finalizeResolveJob cfg marketId) w) = Throw (DisputeWindowActive disputeUntil) /\
  (truthyStr (SLACK_WEBHOOK_URL cfg) = true ->
     slackOutbox (snd (run E (finalizeResolveJob cfg marketId) w))
     = (slackOutbox w ++
        [mkAlert "❌ Job failed: finalizeResolve"
           (Some (JobFailure marketId (DisputeWindowActive disputeUntil)
                    (clock E (S (S (ticks w))))))])%list) /\
  (truthyStr (SLACK_WEBHOOK_URL cfg) = false ->
     slackOutbox (snd (run E (finalizeResolveJob cfg marketId) w)) = slackOutbox w /\
     consoleWarnings (snd (run E (finalizeResolveJob cfg marketId) w))
     = (consoleWarnings w ++ ["❌ Job failed: finalizeResolve"])%list).
Proof.
  intros Hm Hr Hc Hd Hf Hnow. unfold finalizeResolveJob. rewrite run_tryCatch.
  rewrite (finalizeResolveBody_window_active cfg E w marketId market r disputeUntil)
    by assumption.
  rewrite run_catch. cbn [fst snd]. unfold failureAlerted, notified.
  split; [reflexivity|]. split; intros ->; cbn [negb]; repeat split.
Qed.

Lemma finalize_window_active_is_alerted_witness :
  fst (run Fixture.env (finalizeResolveJob Fixture.config 42) Fixture.worldOpen)
  = Throw (DisputeWindowActive 10000) /\
  slackOutbox (snd (run Fixture.env (finalizeResolveJob Fixture.config 42) Fixture.worldOpen))
  = [mkAlert "❌ Job failed: finalizeResolve"
       (Some (JobFailure 42 (DisputeWindowActive 10000) 5000))].
Proof.
  destruct (finalize_window_active_is_alerted Fixture.config Fixture.env Fixture.worldOpen 42
              Fixture.market Fixture.committedRow 10000) as (Hres & Hpost & _);
    try reflexivity.
  split; [exact Hres|]. exact (Hpost eq_refl).
Defined.

(** C7, as it is worded, fails: with a webhook configured, a finalize
    attempt during the window (the clock reads 3000, the window ends at
    10000) fails for that reason alone and leaves one alert in the outbox
    of the notification channel, which was empty. *)
Lemma finalize_window_active_alert_posted :
  slackOutbox Fixture.worldOpen = [] /\
  fst (run Fixture.env (finalizeResolveJob Fixture.config 42) Fixture.worldOpen)
  = Throw (DisputeWindowActive 10000) /\
  slackOutbox (snd (run Fixture.env (finalizeResolveJob Fixture.config 42) Fixture.worldOpen))
  = [mkAlert "❌ Job failed: finalizeResolve"
       (Some (JobFailure 42 (DisputeWindowActive 10000) 5000))].
Proof. repeat split. Qed.





(** *** The prepare job: its reads, then its one write *)

Lemma run_fetchAndVerifyHash (P : Platform) (E : Env) (url expectedHash : string) (w : World) :
  run E (fetchAndVerifyHash P url expectedHash) w = (verified P E url expectedHash, w).
Proof.
  unfold fetchAndVerifyHash, verified, perform. cbn [bind run handle].
  destruct (http E url) as [|ok status body]; [reflexivity|].
  destruct ok; cbn [negb]; [|reflexivity].
  destruct (Hash.verifyHash P body expectedHash); reflexivity.
Qed.

Lemma prepareResolveBody_run (P : Platform) (E : Env) (data : PrepareResolveJobData) (w : World) :
  run E (prepareResolveBody P data) w =
  match preparePlan P E data (markets w) (snapshots w) with
  | Throw e => (Throw e, w)
  | Ok (key, patch, result) =>
      match upsert key patch w with
      | (Ok _, w') => (Ok result, w')
      | (Throw e, w') => (Throw e, w')
      end
  end.
Proof.
  unfold prepareResolveBody, preparePlan, getMarket, getSnapshotByDate, perform.
  cbn [bind run handle].
  destruct (findMarket (pMarketId data) (markets w)) as [market|]; [|reflexivity].
  cbn [bind run handle].
  destruct (findSnapshotByDate (t0Date data) (default "global" (region data)) (snapshots w))
    as [t0Snapshot|];
    destruct (findSnapshotByDate (t1Date data) (default "global" (region data)) (snapshots w))
      as [t1Snapshot|];
    try reflexivity.
  rewrite run_bind, run_fetchAndVerifyHash.
  destruct (verified P E (Snapshot.jsonUrl t0Snapshot) _) as [t0Buffer|]; [|reflexivity].
  cbn [exc_bind]. rewrite run_bind, run_fetchAndVerifyHash.
  destruct (verified P E (Snapshot.jsonUrl t1Snapshot) _) as [t1Buffer|]; [|reflexivity].
  cbn [exc_bind]. unfold lift. cbn [bind].
  destruct (JSON_parse P t0Buffer) as [t0Data|]; [|reflexivity].
  destruct (JSON_parse P t1Buffer) as [t1Data|]; [|reflexivity].
  cbn [exc_bind bind].
  destruct (exc_and _ _) as [valid|]; [|reflexivity].
  cbn [exc_bind bind].
  destruct valid, (Json.asSnapshot t0Data), (Json.asSnapshot t1Data); try reflexivity.
  unfold upsertResolution, attempt. cbn [bind run handle].
  destruct (upsert _ _ w) as [[[]|e] w']; reflexivity.
Qed.

Lemma over_idem {A} (new old : option A) :
  Resolution.over new (Resolution.over new old) = Resolution.over new old.
Proof. destruct new; reflexivity. Qed.

Lemma over_self {A} (new : option A) : Resolution.over new new = new.
Proof. destruct new; reflexivity. Qed.

Lemma merge_idem (patch old : Resolution.t) :
  Resolution.merge patch (Resolution.merge patch old) = Resolution.merge patch old.
Proof. unfold Resolution.merge. cbn. rewrite !over_idem. reflexivity. Qed.

Lemma merge_self (patch : Resolution.t) : Resolution.merge patch patch = patch.
Proof. destruct patch. unfold Resolution.merge. cbn. rewrite !over_self. reflexivity. Qed.

Lemma upsert_ok (marketId : Z) (patch : Resolution.t) (w w1 : World) :
  upsert marketId patch w = (Ok tt, w1) ->
  w1 = setResolutions (<[marketId := upserted marketId patch w]> (resolutions w)) w.
Proof.
  unfold upsert, upserted.
  destruct (Resolution.namesNoField patch); [discriminate|].
  destruct (_ && _); intros H; [|discriminate].
  injection H as <-. reflexivity.
Qed.

(** An upsert that went through goes through again and changes nothing. *)
Lemma upsert_again (marketId : Z) (patch : Resolution.t) (w w1 : World) :
  upsert marketId patch w = (Ok tt, w1) -> upsert marketId patch w1 = (Ok tt, w1).
Proof.
  intros H. pose proof (upsert_ok _ _ _ _ H) as ->.
  unfold upsert in *. cbn [markets snapshots resolutions setResolutions].
  destruct (Resolution.namesNoField patch); [discriminate|].
  destruct (_ && _); [|discriminate]. rewrite lookup_insert_eq.
  replace (Resolution.merge patch (upserted marketId patch w)) with (upserted marketId patch w)
    by (unfold upserted; destruct (resolutions w !! marketId);
        [rewrite merge_idem | rewrite merge_self]; reflexivity).
  rewrite insert_insert_eq. reflexivity.
Qed.

(** A prepare job that returned went through its plan and its upsert. *)
Lemma prepareResolveJob_returned (P : Platform) (cfg : Config) (E : Env)
    (data : PrepareResolveJobData) (w w1 : World) (result : PrepareResult) :
  run E (prepareResolveJob P cfg data) w = (Ok result, w1) ->
  exists (market : Market.t) (t0Id t1Id t0Rank t1Rank : Z),
    findMarket (pMarketId data) (markets w) = Some market /\
    result = mkPrepareResult (pMarketId data) t0Rank t1Rank
               (Rank.computeOutcome t0Rank t1Rank) t0Id t1Id /\
    preparePlan P E data (markets w) (snapshots w)
    = Ok (pMarketId data,
          Resolution.mk (Some t0Id) (Some t1Id) (Some t0Rank) (Some t1Rank)
            (Some (Rank.computeOutcome t0Rank t1Rank)) None None None None None,
          result) /\
    upsert (pMarketId data)
      (Resolution.mk (Some t0Id) (Some t1Id) (Some t0Rank) (Some t1Rank)
         (Some (Rank.computeOutcome t0Rank t1Rank)) None None None None None) w
    = (Ok tt, w1).
Proof.
  unfold prepareResolveJob. rewrite run_tryCatch, prepareResolveBody_run.
  destruct (preparePlan P E data (markets w) (snapshots w)) as [[[key patch] res]|e] eqn:Hplan;
    [|rewrite run_catch; discriminate].
  destruct (upsert key patch w) as [[[]|e] w'] eqn:Hup; [|rewrite run_catch; discriminate].
  intros H. injection H as -> ->.
  revert Hplan. unfold preparePlan.
  destruct (findMarket (pMarketId data) (markets w)) as [market|] eqn:Hm; [|discriminate].
  pose proof (findMarket_marketId _ _ _ Hm) as Hkey.
  destruct (findSnapshotByDate (t0Date data) _ _) as [t0Snapshot|]; [|discriminate].
  destruct (findSnapshotByDate (t1Date data) _ _) as [t1Snapshot|]; [|discriminate].
  destruct (verified P E (Snapshot.jsonUrl t0Snapshot) _) as [t0Buffer|]; [|discriminate].
  destruct (verified P E (Snapshot.jsonUrl t1Snapshot) _) as [t1Buffer|]; [|discriminate].
  cbn [exc_bind].
  destruct (JSON_parse P t0Buffer) as [t0Data|]; [|discriminate].
  destruct (JSON_parse P t1Buffer) as [t1Data|]; [|discriminate].
  cbn [exc_bind].
  destruct (exc_and _ _) as [[]|]; try discriminate.
  cbn [exc_bind].
  destruct (Json.asSnapshot t0Data) as [t0Typed|]; [|discriminate].
  destruct (Json.asSnapshot t1Data) as [t1Typed|]; [|discriminate].
  intros Hplan. injection Hplan as <- <- <-.
  exists market, (Snapshot.id t0Snapshot), (Snapshot.id t1Snapshot),
    (Rank.extractRankBySongId t0Typed (Market.songId market)),
    (Rank.extractRankBySongId t1Typed (Market.songId market)).
  rewrite Hkey in *. repeat split; try reflexivity. exact Hup.
Qed.

Lemma upserted_fields (marketId : Z) (patch : Resolution.t) (w : World) :
  forall t0Id t1Id t0Rank t1Rank outcome : Z,
    patch = Resolution.mk (Some t0Id) (Some t1Id) (Some t0Rank) (Some t1Rank) (Some outcome)
              None None None None None ->
    let row := upserted marketId patch w in
    Resolution.t0SnapshotId row = Some t0Id /\ Resolution.t1SnapshotId row = Some t1Id /\
    Resolution.t0Rank row = Some t0Rank /\ Resolution.t1Rank row = Some t1Rank /\
    Resolution.outcome row = Some outcome /\
    forall old, resolutions w !! marketId = Some old ->
      Resolution.commitTx row = Resolution.commitTx old /\
      Resolution.committedAt row = Resolution.committedAt old /\
      Resolution.disputeUntil row = Resolution.disputeUntil old /\
      Resolution.finalizeTx row = Resolution.finalizeTx old /\
      Resolution.finalizedAt row = Resolution.finalizedAt old.
Proof.
  intros t0Id t1Id t0Rank t1Rank outcome ->. unfold upserted.
  destruct (resolutions w !! marketId) as [old|].
  - repeat split; try reflexivity;
      match goal with H : Some _ = Some _ |- _ => injection H as <-; reflexivity end.
  - repeat split; try reflexivity; discriminate.
Qed.

(** C3, as the code has it. The prepare job has no check of the row: on
    every run that returns it has recomputed both ranks and the outcome
    and written them, with the two snapshot references, over whatever the
    row held; the commit and finalize fields of an existing row stay. Run
    again with the same job data on the world it left, the job recomputes
    the same values: it returns the same result, raises no error, and
    leaves the row and the rest of the world as they are. *)
Theorem prepare_recomputes_and_overwrites (P : Platform) (cfg : Config) (E : Env)
    (data : PrepareResolveJobData) (w w1 : World) (result : PrepareResult) :
  run E (prepareResolveJob P cfg data) w = (Ok result, w1) ->
  (exists row : Resolution.t,
     resolutions w1 !! pMarketId data = Some row /\
     Resolution.t0SnapshotId row = Some (rT0SnapshotId result) /\
     Resolution.t1SnapshotId row = Some (rT1SnapshotId result) /\
     Resolution.t0Rank row = Some (rT0Rank result) /\
     Resolution.t1Rank row = Some (rT1Rank result) /\
     Resolution.outcome row = Some (rOutcome result) /\
     rOutcome result = Rank.computeOutcome (rT0Rank result) (rT1Rank result) /\
     forall old : Resolution.t, resolutions w !! pMarketId data = Some old ->
       Resolution.commitTx row = Resolution.commitTx old /\
       Resolution.committedAt row = Resolution.committedAt old /\
       Resolution.disputeUntil row = Resolution.disputeUntil old /\
       Resolution.finalizeTx row = Resolution.finalizeTx old /\
       Resolution.finalizedAt row = Resolution.finalizedAt old) /\
  run E (prepareResolveJob P cfg data) w1 = (Ok result, w1).
Proof.
  intros Hrun.
  destruct (prepareResolveJob_returned P cfg E data w w1 result Hrun)
    as (market & t0Id & t1Id & t0Rank & t1Rank & Hm & -> & Hplan & Hup).
  pose proof (upsert_ok _ _ _ _ Hup) as Hw1.
  split.
  - exists (upserted (pMarketId data)
              (Resolution.mk (Some t0Id) (Some t1Id) (Some t0Rank) (Some t1Rank)
                 (Some (Rank.computeOutcome t0Rank t1Rank)) None None None None None) w).
    split; [rewrite Hw1; cbn [resolutions setResolutions]; apply lookup_insert_eq|].
    cbn [rT0SnapshotId rT1SnapshotId rT0Rank rT1Rank rOutcome].
    destruct (upserted_fields (pMarketId data) _ w t0Id t1Id t0Rank t1Rank
                (Rank.computeOutcome t0Rank t1Rank) eq_refl)
      as (H1 & H2 & H3 & H4 & H5 & H6).
    repeat (split; [assumption|]). split; [reflexivity | exact H6].
  - unfold prepareResolveJob. rewrite run_tryCatch, prepareResolveBody_run.
    replace (markets w1) with (markets w) by (rewrite Hw1; reflexivity).
    replace (snapshots w1) with (snapshots w) by (rewrite Hw1; reflexivity).
    rewrite Hplan, (upsert_again _ _ _ _ Hup). reflexivity.
Qed.

Lemma prepare_recomputes_and_overwrites_witness :
  run Fixture.env
    (prepareResolveJob Fixture.platform Fixture.config
       (mkPrepareData 42 "2024-01-15" "2024-01-22" None))
    (snd (run Fixture.env
            (prepareResolveJob Fixture.platform Fixture.config
               (mkPrepareData 42 "2024-01-15" "2024-01-22" None)) Fixture.world0))
  = (Ok (mkPrepareResult 42 12 8 1 1 2),
     snd (run Fixture.env
            (prepareResolveJob Fixture.platform Fixture.config
               (mkPrepareData 42 "2024-01-15" "2024-01-22" None)) Fixture.world0)).
Proof.
  apply (prepare_recomputes_and_overwrites Fixture.platform Fixture.config Fixture.env
           (mkPrepareData 42 "2024-01-15" "2024-01-22" None) Fixture.world0).
  vm_compute. reflexivity.
Defined.

(** C3, as it is worded, fails. Market 42 is committed with outcome YES
    from the charts of 2024-01-15 and 2024-01-22. A prepare job for the
    charts of 2024-01-15 and 2024-01-29 returns without error and leaves
    the row with rank 30 at t1 and outcome NO, next to the commit
    reference that was sent for YES. *)
Lemma prepare_overwrites_committed_outcome :
  resolutions Fixture.worldOpen !! 42 = Some Fixture.committedRow /\
  Resolution.outcome Fixture.committedRow = Some Rank.YES /\
  Resolution.commitTx Fixture.committedRow = Some "0xc001" /\
  fst (run Fixture.env
         (prepareResolveJob Fixture.platform Fixture.config
            (mkPrepareData 42 "2024-01-15" "2024-01-29" None)) Fixture.worldOpen)
  = Ok (mkPrepareResult 42 12 30 Rank.NO 1 3) /\
  resolutions
    (snd (run Fixture.env
            (prepareResolveJob Fixture.platform Fixture.config
               (mkPrepareData 42 "2024-01-15" "2024-01-29" None)) Fixture.worldOpen)) !! 42
  = Some (Resolution.mk (Some 1) (Some 3) (Some 12) (Some 30) (Some Rank.NO)
            (Some "0xc001") (Some 1000) (Some 10000) None None).
Proof. repeat split; vm_compute; reflexivity. Qed.

(** Whatever [computeCommitment] throws is an encoding error. *)
Lemma encodePacked_throws (types : list Abi.abiType) (values : list Abi.abiValue) (e : Error) :
  Abi.encodePacked types values = Throw e -> e = AbiEncodingError.
Proof.
  revert values. induction types as [|t types IH]; intros [|v values]; simpl;
    try (intros [= <-]; reflexivity); try discriminate.
  destruct (Abi.encode t v) as [b|e'] eqn:He; simpl.
  - destruct (Abi.encodePacked types values) as [rest|e'] eqn:Hrest; simpl; [discriminate|].
    intros [= <-]. exact (IH values Hrest).
  - intros [= <-]. revert He. unfold Abi.encode.
    repeat match goal with
           | |- context [match ?x with _ => _ end] => destruct x
           end; congruence.
Qed.

(** The commit job on a row whose outcome is truthy does not answer that
    the resolution is not prepared. *)
Lemma commitResolveJob_prepared (P : Platform) (cfg : Config) (E : Env) (w : World)
    (marketId : Z) (market : Market.t) (r : Resolution.t) :
  findMarket marketId (markets w) = Some market ->
  resolutions w !! marketId = Some r ->
  truthyNum (Resolution.outcome r) = true ->
  fst (run E (commitResolveJob P cfg marketId) w) <> Throw (ResolutionNotPrepared marketId).
Proof.
  intros Hm Hr Ho.
  assert (Hbody : forall e, fst (run E (commitResolveBody P cfg marketId) w) = Throw e ->
                            e <> ResolutionNotPrepared marketId).
  { unfold commitResolveBody, getMarket, getResolution, perform.
    cbn [bind run handle]. rewrite Hm. cbn [bind run handle]. rewrite Hr, Ho. cbn [negb].
    destruct (truthyStr (Resolution.commitTx r)); [discriminate|].
    rewrite run_bind.
    destruct (Resolution.t0SnapshotId r) as [id0|]; unfold getSnapshotIfSet, getSnapshot, perform, ret;
      cbn [bind run handle]; rewrite run_bind;
      (destruct (Resolution.t1SnapshotId r) as [id1|]; cbn [bind run handle]);
      repeat match goal with
             | |- context [findSnapshot ?i ?s] => destruct (findSnapshot i s)
             end;
      try (intros e [= <-]; discriminate).
    unfold lift. cbn [bind].
    destruct (Resolution.t0Rank r), (Resolution.t1Rank r);
      try (intros e [= <-]; discriminate).
    destruct (Chain.computeCommitment P _ _ _ _ _ _ _) as [commitment|e'] eqn:Hc.
    - cbn [bind]. unfold sendCommitResolve. destruct (negb (hasAccount cfg));
        [intros e [= <-]; discriminate|].
      unfold getDisputeWindow, upsertResolution, alertResolutionSuccess.
      unfold attempt, perform. cbn [bind run handle].
      destruct (chainWrite E _ _); cbn [bind run handle];
        try (intros e [= <-]; discriminate).
      match goal with
      | |- context [chainDisputeWindow E ?l] => destruct (chainDisputeWindow E l)
      end; cbn [bind run handle]; try (intros e [= <-]; discriminate).
      unfold upsert.
      cbn [Resolution.namesNoField Resolution.isSet Resolution.t0SnapshotId
           Resolution.t1SnapshotId Resolution.t0Rank Resolution.t1Rank Resolution.outcome
           Resolution.commitTx Resolution.committedAt Resolution.disputeUntil
           Resolution.finalizeTx Resolution.finalizedAt orb negb].
      destruct (_ && _); cbn [bind run handle]; try (intros e [= <-]; discriminate).
      rewrite run_bind, run_sendSlackAlert. discriminate.
    - intros e [= <-]. unfold Chain.computeCommitment, Chain.packed in Hc.
      destruct (Abi.encodePacked _ _) as [b|e''] eqn:Hp; [discriminate|].
      injection Hc as <-. rewrite (encodePacked_throws _ _ _ Hp). discriminate. }
  unfold commitResolveJob. rewrite run_tryCatch.
  destruct (run E (commitResolveBody P cfg marketId) w) as [[res|e] w'] eqn:Hrun.
  - discriminate.
  - rewrite run_catch. cbn [fst]. intros [= ->]. exact (Hbody _ eq_refl eq_refl).
Qed.

(** C9. [computeOutcome] returns 1 or 2 and never 0. The outcome that a
    prepare job stores is therefore truthy, and a commit job that finds
    the row as prepare left it is not turned away by the check that reads
    a falsy outcome as "not prepared". *)
Theorem prepared_outcome_is_truthy (P : Platform) (cfg : Config) (E : Env)
    (data : PrepareResolveJobData) (w w1 : World) (result : PrepareResult) :
  (forall t0Rank t1Rank : Z,
     (Rank.computeOutcome t0Rank t1Rank = 1 \/ Rank.computeOutcome t0Rank t1Rank = 2) /\
     Rank.computeOutcome t0Rank t1Rank <> 0) /\
  (run E (prepareResolveJob P cfg data) w = (Ok result, w1) ->
   exists row : Resolution.t,
     resolutions w1 !! pMarketId data = Some row /\
     Resolution.outcome row = Some (rOutcome result) /\
     rOutcome result <> 0 /\
     truthyNum (Resolution.outcome row) = true /\
     forall (cfg' : Config) (E' : Env),
       fst (run E' (commitResolveJob P cfg' (pMarketId data)) w1)
       <> Throw (ResolutionNotPrepared (pMarketId data))).
Proof.
  assert (Hout : forall t0Rank t1Rank : Z,
            (Rank.computeOutcome t0Rank t1Rank = 1 \/ Rank.computeOutcome t0Rank t1Rank = 2) /\
            Rank.computeOutcome t0Rank t1Rank <> 0).
  { intros t0Rank t1Rank. unfold Rank.computeOutcome.
    destruct (t1Rank <? t0Rank); split; auto; discriminate. }
  split; [exact Hout|].
  intros Hrun.
  destruct (prepareResolveJob_returned P cfg E data w w1 result Hrun)
    as (market & t0Id & t1Id & t0Rank & t1Rank & Hm & -> & _ & Hup).
  pose proof (upsert_ok _ _ _ _ Hup) as Hw1.
  destruct (upserted_fields (pMarketId data) _ w t0Id t1Id t0Rank t1Rank
              (Rank.computeOutcome t0Rank t1Rank) eq_refl) as (_ & _ & _ & _ & Ho & _).
  assert (Htruthy : truthyNum (Some (Rank.computeOutcome t0Rank t1Rank)) = true).
  { unfold truthyNum. destruct (Z.eqb_spec (Rank.computeOutcome t0Rank t1Rank) 0) as [H0|_];
      [|reflexivity]. exfalso. exact (proj2 (Hout t0Rank t1Rank) H0). }
  eexists. split; [rewrite Hw1; cbn [resolutions setResolutions]; apply lookup_insert_eq|].
  cbn [rOutcome]. split; [exact Ho|]. split; [apply Hout|]. split; [rewrite Ho; exact Htruthy|].
  intros cfg' E'.
  apply (commitResolveJob_prepared P cfg' E' w1 (pMarketId data) market
           (upserted (pMarketId data)
              (Resolution.mk (Some t0Id) (Some t1Id) (Some t0Rank) (Some t1Rank)
                 (Some (Rank.computeOutcome t0Rank t1Rank)) None None None None None) w)).
  - rewrite Hw1. exact Hm.
  - rewrite Hw1. cbn [resolutions setResolutions]. apply lookup_insert_eq.
  - rewrite Ho. exact Htruthy.
Qed.

Lemma prepared_outcome_is_truthy_witness :
  fst (run Fixture.env (commitResolveJob Fixture.platform Fixture.config 42)
         (snd (run Fixture.env
                 (prepareResolveJob Fixture.platform Fixture.config
                    (mkPrepareData 42 "2024-01-15" "2024-01-22" None)) Fixture.world0)))
  <> Throw (ResolutionNotPrepared 42).
Proof.
  destruct (proj2 (prepared_outcome_is_truthy Fixture.platform Fixture.config Fixture.env
                     (mkPrepareData 42 "2024-01-15" "2024-01-22" None) Fixture.world0
                     (snd (run Fixture.env
                             (prepareResolveJob Fixture.platform Fixture.config
                                (mkPrepareData 42 "2024-01-15" "2024-01-22" None))
                             Fixture.world0))
                     (mkPrepareResult 42 12 8 1 1 2)))
    as (row & _ & _ & _ & _ & Hcommit); [vm_compute; reflexivity|].
  exact (Hcommit Fixture.config Fixture.env).
Defined.

(** The scenario of the design document: the market starts at rank 12,
    the chart at t1 shows rank 8; the outcome is YES, the window ends at
    the commit time plus the window read from the chain, a finalize
    attempt before that is refused, and one after it goes through. *)
Lemma scenario_rank_12_to_8 :
  let prepared := run Fixture.env
                    (prepareResolveJob Fixture.platform Fixture.config
                       (mkPrepareData 42 "2024-01-15" "2024-01-22" None)) Fixture.world0 in
  let committed := run Fixture.env (commitResolveJob Fixture.platform Fixture.config 42)
                     (snd prepared) in
  let early := run Fixture.env (finalizeResolveJob Fixture.config 42) (snd committed) in
  let late := run (mkEnv (fun n => 20000 + 1000 * Z.of_nat n) (http Fixture.env)
                     (chainWrite Fixture.env) (chainDisputeWindow Fixture.env))
                (finalizeResolveJob Fixture.config 42) (snd early) in
  fst prepared = Ok (mkPrepareResult 42 12 8 Rank.YES 1 2) /\
  fst committed = Ok (Committed 42 "0xc001" (0 + 10 * 1000) Rank.YES) /\
  chainLog (snd committed) = [Fixture.commitCall] /\
  fst early = Throw (DisputeWindowActive 10000) /\
  fst late = Ok (Finalized 42 "0xf001" (Some Rank.YES)) /\
  Resolution.finalizeTx <$> resolutions (snd late) !! 42 = Some (Some "0xf001").
Proof. repeat split; vm_compute; reflexivity. Qed.

(** *** Invariant 3 along the jobs *)

(** What each job does to the table of resolutions: nothing, or one
    upsert of its own fields on the row of its market. *)
Lemma prepareResolveJob_rows (P : Platform) (cfg : Config) (E : Env)
    (data : PrepareResolveJobData) (w : World) :
  resolutions (snd (run E (prepareResolveJob P cfg data) w)) = resolutions w \/
  exists t0Id t1Id t0Rank t1Rank : Z,
    resolutions (snd (run E (prepareResolveJob P cfg data) w))
    = <[pMarketId data :=
          upserted (pMarketId data)
            (Resolution.mk (Some t0Id) (Some t1Id) (Some t0Rank) (Some t1Rank)
               (Some (Rank.computeOutcome t0Rank t1Rank)) None None None None None) w]>
        (resolutions w).
Proof.
  destruct (run E (prepareResolveJob P cfg data) w) as [[result|e] w1] eqn:Hrun.
  - right.
    destruct (prepareResolveJob_returned P cfg E data w w1 result Hrun)
      as (market & t0Id & t1Id & t0Rank & t1Rank & _ & _ & _ & Hup).
    exists t0Id, t1Id, t0Rank, t1Rank. rewrite (upsert_ok _ _ _ _ Hup). reflexivity.
  - left. revert Hrun. unfold prepareResolveJob. rewrite run_tryCatch, prepareResolveBody_run.
    destruct (preparePlan P E data (markets w) (snapshots w)) as [[[key patch] res]|e'].
    + unfold upsert.
      destruct (Resolution.namesNoField patch); [|destruct (_ && _); [discriminate|]];
        rewrite run_catch; intros [= _ <-]; apply failureAlerted_tables.
    + rewrite run_catch. intros [= _ <-]. apply failureAlerted_tables.
Qed.

Lemma commitResolveJob_rows (P : Platform) (cfg : Config) (E : Env) (w : World) (marketId : Z) :
  resolutions (snd (run E (commitResolveJob P cfg marketId) w)) = resolutions w \/
  exists (r : Resolution.t) (txHash : string) (committedAt disputeUntil : Z),
    resolutions w !! marketId = Some r /\
    truthyNum (Resolution.outcome r) = true /\
    resolutions (snd (run E (commitResolveJob P cfg marketId) w))
    = <[marketId := Resolution.merge (commitPatch txHash committedAt disputeUntil) r]>
        (resolutions w).
Proof.
  unfold commitResolveJob. rewrite run_tryCatch.
  assert (Hfail : forall (e : Error) (w' : World),
            resolutions w' = resolutions w ->
            resolutions
              (snd (run E (alertJobFailure cfg "commitResolve" marketId e ;;
                           @throw CommitResult e) w')) = resolutions w).
  { intros e w' Hw'. rewrite run_catch. cbn [snd].
    rewrite <- Hw'. apply failureAlerted_tables. }
  unfold commitResolveBody, getMarket, getResolution, perform.
  cbn [bind run handle].
  destruct (findMarket marketId (markets w)) as [market|] eqn:Hm; cbn [bind run handle];
    [|left; apply Hfail; reflexivity].
  pose proof (findMarket_marketId _ _ _ Hm) as Hkey.
  destruct (resolutions w !! marketId) as [r|] eqn:Hr; [|left; apply Hfail; reflexivity].
  destruct (truthyNum (Resolution.outcome r)) eqn:Ho; cbn [negb];
    [|left; apply Hfail; reflexivity].
  destruct (truthyStr (Resolution.commitTx r)); [left; reflexivity|].
  rewrite run_bind.
  destruct (Resolution.t0SnapshotId r) as [id0|]; unfold getSnapshotIfSet, getSnapshot, perform, ret;
    cbn [bind run handle]; rewrite run_bind;
    (destruct (Resolution.t1SnapshotId r) as [id1|]; cbn [bind run handle]);
    repeat match goal with
           | |- context [findSnapshot ?i ?s] => destruct (findSnapshot i s)
           end;
    try (left; apply Hfail; reflexivity).
  unfold lift. cbn [bind].
  destruct (Resolution.t0Rank r), (Resolution.t1Rank r);
    try (left; apply Hfail; reflexivity).
  destruct (Chain.computeCommitment P _ _ _ _ _ _ _) as [commitment|e'];
    [|left; apply Hfail; reflexivity].
  cbn [bind]. unfold sendCommitResolve.
  destruct (negb (hasAccount cfg)); [left; apply Hfail; reflexivity|].
  unfold getDisputeWindow, upsertResolution, alertResolutionSuccess.
  unfold attempt, perform. cbn [bind run handle].
  destruct (chainWrite E _ _) as [message|txHash|message]; cbn [bind run handle];
    try (left; apply Hfail; reflexivity).
  match goal with
  | |- context [chainDisputeWindow E ?l] => destruct (chainDisputeWindow E l) as [seconds|]
  end; cbn [bind run handle]; try (left; apply Hfail; reflexivity).
  rewrite Hkey.
  match goal with
  | |- context [upsert marketId ?patch ?w0] =>
      rewrite (upsert_transaction_fields w0 marketId market r) by first [assumption | reflexivity]
  end.
  cbn [bind run handle]. rewrite run_bind, run_sendSlackAlert. cbn [run snd].
  right. exists r, txHash. eexists. eexists.
  split; [first [reflexivity | exact Hr]|]. split; [first [reflexivity | exact Ho]|].
  match goal with
  | |- context [notified ?c ?m ?d ?w0] =>
      destruct (notified_tables c m d w0) as (_ & _ & -> & _)
  end.
  reflexivity.
Qed.

Lemma finalizeResolveJob_rows (cfg : Config) (E : Env) (w : World) (marketId : Z) :
  resolutions (snd (run E (finalizeResolveJob cfg marketId) w)) = resolutions w \/
  exists (r : Resolution.t) (txHash : string) (finalizedAt : Z),
    resolutions w !! marketId = Some r /\
    truthyStr (Resolution.commitTx r) = true /\
    resolutions (snd (run E (finalizeResolveJob cfg marketId) w))
    = <[marketId := Resolution.merge (finalizePatch txHash finalizedAt) r]> (resolutions w).
Proof.
  unfold finalizeResolveJob. rewrite run_tryCatch.
  assert (Hfail : forall (e : Error) (w' : World),
            resolutions w' = resolutions w ->
            resolutions
              (snd (run E (alertJobFailure cfg "finalizeResolve" marketId e ;;
                           @throw FinalizeResult e) w')) = resolutions w).
  { intros e w' Hw'. rewrite run_catch. cbn [snd].
    rewrite <- Hw'. apply failureAlerted_tables. }
  unfold finalizeResolveBody, getMarket, getResolution, perform.
  cbn [bind run handle].
  destruct (findMarket marketId (markets w)) as [market|] eqn:Hm; cbn [bind run handle];
    [|left; apply Hfail; reflexivity].
  pose proof (findMarket_marketId _ _ _ Hm) as Hkey.
  destruct (resolutions w !! marketId) as [r|] eqn:Hr; [|left; apply Hfail; reflexivity].
  destruct (Resolution.disputeUntil r) as [disputeUntil|]; [|left; apply Hfail; reflexivity].
  destruct (truthyStr (Resolution.commitTx r)) eqn:Hc; cbn [negb];
    [|left; apply Hfail; reflexivity].
  destruct (truthyStr (Resolution.finalizeTx r)); [left; reflexivity|].
  cbn [bind run handle].
  destruct (clock E (ticks w) <? disputeUntil); cbn [bind run handle];
    [left; apply Hfail; reflexivity|].
  rewrite run_bind.
  destruct (Resolution.t0SnapshotId r) as [id0|]; unfold getSnapshotIfSet, getSnapshot, perform, ret;
    cbn [bind run handle tick snapshots]; rewrite run_bind;
    (destruct (Resolution.t1SnapshotId r) as [id1|]; cbn [bind run handle tick snapshots]);
    repeat match goal with
           | |- context [findSnapshot ?i ?s] => destruct (findSnapshot i s)
           end;
    try (left; apply Hfail; reflexivity).
  unfold sendFinalizeResolve.
  destruct (negb (hasAccount cfg)); [left; apply Hfail; reflexivity|].
  unfold upsertResolution, alertResolutionSuccess.
  unfold attempt, perform. cbn [bind run handle].
  destruct (chainWrite E _ _) as [message|txHash|message]; cbn [bind run handle];
    try (left; apply Hfail; reflexivity).
  rewrite Hkey.
  match goal with
  | |- context [upsert marketId ?patch ?w0] =>
      rewrite (upsert_transaction_fields w0 marketId market r) by first [assumption | reflexivity]
  end.
  cbn [bind run handle]. rewrite run_bind, run_sendSlackAlert. cbn [run snd].
  right. exists r, txHash. eexists.
  split; [first [reflexivity | exact Hr]|]. split; [first [reflexivity | exact Hc]|].
  match goal with
  | |- context [notified ?c ?m ?d ?w0] =>
      destruct (notified_tables c m d w0) as (_ & _ & -> & _)
  end.
  reflexivity.
Qed.

Lemma commitAfterOutcome_insert (rows : gmap Z Resolution.t) (marketId : Z) (r : Resolution.t) :
  commitAfterOutcome rows ->
  (truthyStr (Resolution.commitTx r) = true -> truthyNum (Resolution.outcome r) = true) ->
  commitAfterOutcome (<[marketId := r]> rows).
Proof.
  intros Hrows Hr m r'. rewrite lookup_insert. case_decide as Hm.
  - intros [= <-]. exact Hr.
  - apply Hrows.
Qed.

(** Invariant 3 of the data model holds along the three jobs: if every
    row with a commit reference has an outcome before a job runs, the
    same is true after it, however the job ends. *)
Theorem jobs_keep_commit_after_outcome (P : Platform) (cfg : Config) (E : Env) (w : World) :
  commitAfterOutcome (resolutions w) ->
  (forall data : PrepareResolveJobData,
     commitAfterOutcome (resolutions (snd (run E (prepareResolveJob P cfg data) w)))) /\
  (forall marketId : Z,
     commitAfterOutcome (resolutions (snd (run E (commitResolveJob P cfg marketId) w)))) /\
  (forall marketId : Z,
     commitAfterOutcome (resolutions (snd (run E (finalizeResolveJob cfg marketId) w)))).
Proof.
  intros Hinv. split; [|split].
  - intros data.
    destruct (prepareResolveJob_rows P cfg E data w)
      as [-> | (t0Id & t1Id & t0Rank & t1Rank & ->)]; [exact Hinv|].
    apply commitAfterOutcome_insert; [exact Hinv|]. intros _.
    destruct (upserted_fields (pMarketId data) _ w t0Id t1Id t0Rank t1Rank
                (Rank.computeOutcome t0Rank t1Rank) eq_refl) as (_ & _ & _ & _ & -> & _).
    unfold truthyNum, Rank.computeOutcome. destruct (t1Rank <? t0Rank); reflexivity.
  - intros marketId.
    destruct (commitResolveJob_rows P cfg E w marketId)
      as [-> | (r & txHash & committedAt & disputeUntil & _ & Ho & ->)]; [exact Hinv|].
    apply commitAfterOutcome_insert; [exact Hinv|]. intros _. exact Ho.
  - intros marketId.
    destruct (finalizeResolveJob_rows cfg E w marketId)
      as [-> | (r & txHash & finalizedAt & Hr & Hc & ->)]; [exact Hinv|].
    apply commitAfterOutcome_insert; [exact Hinv|]. intros _.
    exact (Hinv marketId r Hr Hc).
Qed.

(** *** The routes of the HTTP API *)

(** The tables and the chain log of [worldRouteClosed] are what the
    prepare route followed by the commit route leave from the empty table;
    only the clock has moved on. *)
Lemma route_committed_world_is_reachable :
  fst (run Fixture.env (prepareResolveRoute Fixture.platform 42 Fixture.prepareBody)
         Fixture.world0)
  = Reply200 (mkPreparePayload ("0x" +:+ Hex.encode Fixture.keccak01) 12 8 Rank.YES
                (Chain.mkEvidence "" ZERO_HASH Fixture.url0 (t0Sha Fixture.prepareBody) "")
                (Chain.mkEvidence "" ZERO_HASH Fixture.url1 (t1Sha Fixture.prepareBody) "")) /\
  run Fixture.env (commitRoute Fixture.platform Fixture.config 42)
    (snd (run Fixture.env (prepareResolveRoute Fixture.platform 42 Fixture.prepareBody)
            Fixture.world0))
  = (Reply200 ("0xc001", 10000),
     mkWorld (markets Fixture.worldRouteClosed) (snapshots Fixture.worldRouteClosed)
       (resolutions Fixture.worldRouteClosed) 2 (chainLog Fixture.worldRouteClosed) [] []).
Proof. split; vm_compute; reflexivity. Qed.

(** The prepare route overwrites like the job: on the committed market 42
    a request that names the chart of 2024-01-29 for t1 replaces rank 8 and
    outcome YES by rank 30 and outcome NO. *)
Lemma prepareResolveRoute_overwrites :
  Resolution.outcome <$>
    resolutions
      (snd (run Fixture.env
              (prepareResolveRoute Fixture.platform 42
                 (mkPrepareBody Fixture.url0 ("0x" +:+ Hex.encode Fixture.digest0)
                    Fixture.url2 ("0x" +:+ Hex.encode Fixture.digest2)))
              Fixture.worldOpen)) !! 42
  = Some (Some Rank.NO) /\
  Resolution.commitTx <$>
    resolutions
      (snd (run Fixture.env
              (prepareResolveRoute Fixture.platform 42
                 (mkPrepareBody Fixture.url0 ("0x" +:+ Hex.encode Fixture.digest0)
                    Fixture.url2 ("0x" +:+ Hex.encode Fixture.digest2)))
              Fixture.worldOpen)) !! 42
  = Some (Some "0xc001").
Proof. split; vm_compute; reflexivity. Qed.

Lemma run_tryReply (E : Env) {A} (m : Job (Reply A)) (label : string) (w : World) :
  run E (tryReply m label) w =
  match run E m w with
  | (Ok r, w') => (r, w')
  | (Throw e, w') => (Reply400 label (Some e), w')
  end.
Proof.
  revert w. induction m as [[a|e]|X e k IH]; intros w; simpl; try reflexivity.
  destruct (handle E e w) as [x w']. apply IH.
Qed.

Lemma prepareResolveRoute_rows (P : Platform) (E : Env) (w : World) (id : Z)
    (body : PrepareResolveBody) :
  resolutions (snd (run E (prepareResolveRoute P id body) w)) = resolutions w \/
  exists (t0Rank t1Rank : Z) (r : Resolution.t),
    Resolution.outcome r = Some (Rank.computeOutcome t0Rank t1Rank) /\
    resolutions (snd (run E (prepareResolveRoute P id body) w)) = <[id := r]> (resolutions w).
Proof.
  unfold prepareResolveRoute. cbn [run handle].
  destruct (findMarket id (markets w)) as [market|] eqn:Hm; [|left; reflexivity].
  pose proof (findMarket_marketId _ _ _ Hm) as Hkey.
  rewrite run_tryReply, run_bind, run_fetchAndVerifyHash.
  destruct (verified P E (t0Url body) (t0Sha body)) as [t0Buffer|]; [|left; reflexivity].
  rewrite run_bind, run_fetchAndVerifyHash.
  destruct (verified P E (t1Url body) (t1Sha body)) as [t1Buffer|]; [|left; reflexivity].
  unfold lift. cbn [bind].
  destruct (JSON_parse P t0Buffer) as [t0Data|]; [|left; reflexivity].
  destruct (JSON_parse P t1Buffer) as [t1Data|]; [|left; reflexivity].
  cbn [bind].
  destruct (exc_and _ _) as [valid|]; [|left; reflexivity].
  cbn [bind].
  destruct valid, (Json.asSnapshot t0Data) as [t0Typed|], (Json.asSnapshot t1Data) as [t1Typed|];
    try (left; reflexivity).
  destruct (Chain.computeCommitment P _ _ _ _ _ _ _) as [commitment|]; [|left; reflexivity].
  cbn [bind]. unfold upsertResolution, attempt. cbn [bind run handle]. rewrite Hkey.
  destruct (upsert id _ w) as [[[]|e] w1] eqn:Hup.
  - right. rewrite (upsert_ok _ _ _ _ Hup). cbn [run snd resolutions setResolutions].
    eexists _, _, _. split; [|reflexivity].
    unfold upserted. destruct (resolutions w !! id); reflexivity.
  - left. revert Hup. unfold upsert. destruct (_ && _); [discriminate|].
    intros [= _ <-]. reflexivity.
Qed.

Lemma commitRoute_rows (P : Platform) (cfg : Config) (E : Env) (w : World) (id : Z) :
  resolutions (snd (run E (commitRoute P cfg id) w)) = resolutions w \/
  exists (r : Resolution.t) (txHash : string) (committedAt disputeUntil : Z),
    resolutions w !! id = Some r /\
    truthyNum (Resolution.outcome r) = true /\
    resolutions (snd (run E (commitRoute P cfg id) w))
    = <[id := Resolution.merge (commitPatch txHash committedAt disputeUntil) r]> (resolutions w).
Proof.
  unfold commitRoute. cbn [run handle].
  destruct (findMarket id (markets w)) as [market|] eqn:Hm; [|left; reflexivity].
  pose proof (findMarket_marketId _ _ _ Hm) as Hkey.
  cbn [run handle].
  destruct (resolutions w !! id) as [r|] eqn:Hr; [|left; reflexivity].
  destruct (truthyNum (Resolution.outcome r)) eqn:Ho; cbn [negb]; [|left; reflexivity].
  destruct (truthyStr (Resolution.commitTx r)); [left; reflexivity|].
  rewrite run_tryReply. unfold lift. cbn [bind].
  destruct (Resolution.t0Rank r), (Resolution.t1Rank r); try (left; reflexivity).
  destruct (Chain.computeCommitment P _ _ _ _ _ _ _) as [commitment|]; [|left; reflexivity].
  cbn [bind]. unfold sendCommitResolve.
  destruct (negb (hasAccount cfg)); [left; reflexivity|].
  unfold getDisputeWindow, upsertResolution.
  unfold attempt, perform. cbn [bind run handle].
  destruct (chainWrite E _ _) as [message|txHash|message]; cbn [bind run handle];
    try (left; reflexivity).
  match goal with
  | |- context [chainDisputeWindow E ?l] => destruct (chainDisputeWindow E l) as [seconds|]
  end; cbn [bind run handle]; try (left; reflexivity).
  rewrite Hkey.
  match goal with
  | |- context [upsert id ?patch ?w0] =>
      rewrite (upsert_transaction_fields w0 id market r) by first [assumption | reflexivity]
  end.
  cbn [bind run handle snd resolutions setResolutions].
  right. exists r, txHash. eexists. eexists.
  split; [first [reflexivity | exact Hr]|]. split; [first [reflexivity | exact Ho]|].
  reflexivity.
Qed.

(** Invariant 3 holds along the two routes as well. *)
Lemma routes_keep_commit_after_outcome (P : Platform) (cfg : Config) (E : Env) (w : World) :
  commitAfterOutcome (resolutions w) ->
  (forall (id : Z) (body : PrepareResolveBody),
     commitAfterOutcome (resolutions (snd (run E (prepareResolveRoute P id body) w)))) /\
  (forall id : Z,
     commitAfterOutcome (resolutions (snd (run E (commitRoute P cfg id) w)))).
Proof.
  intros Hinv. split.
  - intros id body.
    destruct (prepareResolveRoute_rows P E w id body)
      as [-> | (t0Rank & t1Rank & r & Ho & ->)]; [exact Hinv|].
    apply commitAfterOutcome_insert; [exact Hinv|]. intros _. rewrite Ho.
    unfold truthyNum, Rank.computeOutcome. destruct (t1Rank <? t0Rank); reflexivity.
  - intros id.
    destruct (commitRoute_rows P cfg E w id)
      as [-> | (r & txHash & committedAt & disputeUntil & _ & Ho & ->)]; [exact Hinv|].
    apply commitAfterOutcome_insert; [exact Hinv|]. intros _. exact Ho.
Qed.

(** * Further properties of the code *)

(** ** lib/rank.ts: the type guard *)

Lemma asItem_validItem (item : Json.json) (i : Rank.Item) :
  Json.asItem item = Some i -> Json.validItem item = Ok true.
Proof.
  destruct item as [| | | | |props]; try discriminate.
  unfold Json.validItem, Json.propHasType, Json.asItem; simpl.
  intros H.
  repeat match type of H with
         | context [Json.lookup ?k props] =>
             destruct (Json.lookup k props) as [[]|]; simpl in H; try discriminate H
         end.
  reflexivity.
Qed.

Lemma asItems_every_validItem (elems : list Json.json) (its : list Rank.Item) :
  Json.asItems elems = Some its -> Json.every Json.validItem elems = Ok true.
Proof.
  revert its. induction elems as [|e elems IH]; intros its; simpl; [reflexivity|].
  destruct (Json.asItem e) as [i|] eqn:He; [|discriminate].
  destruct (Json.asItems elems) as [its'|]; [|discriminate].
  intros _. rewrite (asItem_validItem e i He). exact (IH its' eq_refl).
Qed.

(** X1. [validateSnapshotSchema] answers [true] on exactly the documents
    that have the shape of [SpotifySnapshot] and carry the schema tag: an
    object whose [schema] is the tag, whose [dateUTC], [region] and
    [provider] are strings, whose [listLength] is a number and whose
    [items] is an array of objects with a number [rank] and [streams] and
    a string [title], [artist], [trackId] and [spotifyUrl]. *)
Theorem validateSnapshotSchema_accepts_iff (data : Json.json) :
  Json.validateSnapshotSchema data = Ok true <->
  exists snapshot : Rank.SpotifySnapshot,
    Json.asSnapshot data = Some snapshot /\ Rank.schema snapshot = Json.SCHEMA_TAG.
Proof.
  split.
  - destruct data as [| | | | |props]; try discriminate.
    unfold Json.validateSnapshotSchema, Json.propHasType, Json.asSnapshot; simpl.
    intros H.
    repeat match type of H with
           | context [String.eqb ?a ?b] =>
               destruct (String.eqb_spec a b); simpl in H; try discriminate H
           | context [Json.lookup ?k props] =>
               destruct (Json.lookup k props) as [[]|]; simpl in H; try discriminate H
           end.
    destruct (every_validItem_asItems _ H) as [its ->].
    eexists. split; [reflexivity | simpl; assumption].
  - intros (snapshot & Hs & Htag).
    destruct data as [| | | | |props]; try discriminate.
    unfold Json.validateSnapshotSchema, Json.propHasType, Json.asSnapshot in *; simpl in *.
    repeat match type of Hs with
           | context [Json.lookup ?k props] =>
               destruct (Json.lookup k props) as [[]|]; simpl in Hs; try discriminate Hs
           end.
    destruct (Json.asItems elems) as [its|] eqn:Hits; [|discriminate].
    injection Hs as <-. simpl in Htag. subst s. simpl.
    exact (asItems_every_validItem _ _ Hits).
Qed.

Lemma validItem_throws (item : Json.json) (e : Error) :
  Json.validItem item = Throw e -> item = Json.JNull /\ e = TypeError.
Proof.
  destruct item as [| | | | |props]; try discriminate.
  - intros [= <-]. split; reflexivity.
  - unfold Json.validItem, Json.propHasType; simpl.
    repeat match goal with
           | |- context [Json.lookup ?k props] =>
               destruct (Json.lookup k props) as [[]|]; simpl; try discriminate
           end.
Qed.

Lemma every_validItem_throws (elems : list Json.json) (e : Error) :
  Json.every Json.validItem elems = Throw e -> In Json.JNull elems /\ e = TypeError.
Proof.
  induction elems as [|x elems IH]; simpl; [discriminate|].
  destruct (Json.validItem x) as [[]|e'] eqn:Hx.
  - intros H. destruct (IH H) as [Hin ->]. split; [right; exact Hin | reflexivity].
  - discriminate.
  - intros [= <-]. destruct (validItem_throws x e' Hx) as [-> ->].
    split; [left; reflexivity | reflexivity].
Qed.

(** X2. [validateSnapshotSchema] is a guard that can throw: on [null]
    ([typeof null] is ['object'], and [data.schema] is then read), and on
    a document that passes every check before [items] and holds a [null]
    among its items ([item.rank] is read). What it throws is a
    [TypeError]; on every other document it answers [true] or [false]. *)
Theorem validateSnapshotSchema_throws_on_null_only (data : Json.json) (e : Error) :
  Json.validateSnapshotSchema data = Throw e ->
  e = TypeError /\
  (data = Json.JNull \/
   exists (props : list (string * Json.json)) (elems : list Json.json),
     data = Json.JObj props /\ Json.lookup "items" props = Some (Json.JArr elems) /\
     In Json.JNull elems).
Proof.
  destruct data as [| | | | |props]; try discriminate.
  - intros [= <-]. split; [reflexivity | left; reflexivity].
  - unfold Json.validateSnapshotSchema, Json.propHasType; simpl.
    intros H.
    repeat match type of H with
           | context [String.eqb ?a ?b] =>
               destruct (String.eqb a b); simpl in H; try discriminate H
           | context [Json.lookup ?k props] =>
               destruct (Json.lookup k props) as [[]|] eqn:?; simpl in H; try discriminate H
           end.
    destruct (every_validItem_throws _ _ H) as [Hin ->].
    split; [reflexivity|]. right. eauto.
Qed.

Lemma validateSnapshotSchema_throws_on_null_only_witness :
  TypeError = TypeError /\
  (Fixture.withProps (Some (Json.JStr Json.SCHEMA_TAG)) (Json.JArr [Json.JNull]) = Json.JNull \/
   exists (props : list (string * Json.json)) (elems : list Json.json),
     Fixture.withProps (Some (Json.JStr Json.SCHEMA_TAG)) (Json.JArr [Json.JNull])
     = Json.JObj props /\
     Json.lookup "items" props = Some (Json.JArr elems) /\ In Json.JNull elems).
Proof.
  apply (validateSnapshotSchema_throws_on_null_only
           (Fixture.withProps (Some (Json.JStr Json.SCHEMA_TAG)) (Json.JArr [Json.JNull]))
           TypeError).
  reflexivity.
Defined.

(** ** lib/hash.ts: the fetch *)

(** X3. [fetchAndVerifyHash] returns a buffer exactly when the host
    answers with an [ok] response whose body has the expected digest, and
    the buffer is that body; it fails with the fetch error when there is
    no response, with the status when the response is not [ok] (whatever
    its body), and with the two digests when they differ. It changes
    nothing. *)
Theorem fetchAndVerifyHash_returns_iff (P : Platform) (E : Env) (url expectedHash : string)
    (w : World) :
  snd (run E (fetchAndVerifyHash P url expectedHash) w) = w /\
  (forall buffer : Hex.bytes,
     fst (run E (fetchAndVerifyHash P url expectedHash) w) = Ok buffer <->
     exists status : Z,
       http E url = Response true status buffer /\
       Hash.verifyHash P buffer expectedHash = true) /\
  (forall e : Error,
     fst (run E (fetchAndVerifyHash P url expectedHash) w) = Throw e <->
     (http E url = Rejected /\ e = FetchRejected url) \/
     (exists (status : Z) (body : Hex.bytes),
        http E url = Response false status body /\ e = FetchFailed url status) \/
     (exists (status : Z) (body : Hex.bytes),
        http E url = Response true status body /\
        Hash.verifyHash P body expectedHash = false /\
        e = HashVerificationFailed url expectedHash (Hash.sha256 P body))).
Proof.
  rewrite run_fetchAndVerifyHash. cbn [fst snd]. unfold verified.
  split; [reflexivity|]. split.
  - intros buffer. destruct (http E url) as [|[] status body]; cbn [negb].
    + split; [discriminate | intros (status & [=] & _)].
    + destruct (Hash.verifyHash P body expectedHash) eqn:Hv; cbn [negb].
      * split.
        -- intros [= <-]. exists status. split; [reflexivity | exact Hv].
        -- intros (status' & [= _ <-] & _). reflexivity.
      * split; [discriminate|]. intros (status' & [= _ <-] & Hv'). congruence.
    + split; [discriminate | intros (status' & [=] & _)].
  - intros e. destruct (http E url) as [|[] status body]; cbn [negb].
    + split.
      * intros [= <-]. left. split; reflexivity.
      * intros [[_ ->] | [(s & b & [=] & _) | (s & b & [=] & _)]]. reflexivity.
    + destruct (Hash.verifyHash P body expectedHash) eqn:Hv; cbn [negb].
      * split; [discriminate|].
        intros [[[=] _] | [(s & b & [=] & _) | (s & b & [= _ <-] & Hv' & _)]]. congruence.
      * split.
        -- intros [= <-]. right. right. exists status, body. repeat split. exact Hv.
        -- intros [[[=] _] | [(s & b & [=] & _) | (s & b & [= _ <-] & _ & ->)]]. reflexivity.
    + split.
      * intros [= <-]. right. left. exists status, body. split; reflexivity.
      * intros [[[=] _] | [(s & b & [= <- _] & ->) | (s & b & [=] & _)]]. reflexivity.
Qed.

(** ** db/index.ts: keys and columns *)

Lemma includes_underscore_cons (c : ascii) (s : string) :
  JsString.includes "_" (String c s) = false ->
  c <> "_"%char /\ JsString.includes "_" s = false.
Proof.
  cbn [JsString.includes JsString.startsWith].
  destruct (Ascii.eqb_spec "_" c) as [<-|Hc]; [discriminate|].
  cbn [andb orb]. intros H. split; [congruence | exact H].
Qed.

Lemma lower_inj_upper (c c' : ascii) :
  Db.isUpper c = true -> Db.isUpper c' = true ->
  JsString.lower c = JsString.lower c' -> c = c'.
Proof.
  unfold Db.isUpper, JsString.lower. intros H H'. rewrite H, H'.
  intros Heq. apply (f_equal N_of_ascii) in Heq.
  pose proof (N_ascii_bounded c) as Hb. pose proof (N_ascii_bounded c') as Hb'.
  apply andb_true_iff in H as [_ H]. apply andb_true_iff in H' as [_ H'].
  apply N.leb_le in H, H'.
  rewrite !N_ascii_embedding in Heq by lia.
  rewrite <- (ascii_N_embedding c), <- (ascii_N_embedding c'). f_equal. lia.
Qed.

Lemma isUpper_underscore (c : ascii) : Db.isUpper c = true -> c <> "_"%char.
Proof. intros H ->. discriminate H. Qed.

Lemma toSnakeCase_inj (s s' : string) :
  JsString.includes "_" s = false -> JsString.includes "_" s' = false ->
  Db.toSnakeCase s = Db.toSnakeCase s' -> s = s'.
Proof.
  revert s'. induction s as [|c s IH]; intros [|c' s'] Hs Hs'; cbn [Db.toSnakeCase].
  - reflexivity.
  - destruct (Db.isUpper c'); discriminate.
  - destruct (Db.isUpper c); discriminate.
  - apply includes_underscore_cons in Hs as [Hc Hs].
    apply includes_underscore_cons in Hs' as [Hc' Hs'].
    destruct (Db.isUpper c) eqn:Hu, (Db.isUpper c') eqn:Hu'.
    + intros [= Hl Hrest]. rewrite (lower_inj_upper c c' Hu Hu' Hl), (IH s' Hs Hs' Hrest).
      reflexivity.
    + intros [= <- _]. contradiction.
    + intros [= -> _]. contradiction.
    + intros [= <- Hrest]. rewrite (IH s' Hs Hs' Hrest). reflexivity.
Qed.

(** X4. [toSnakeCase] sends two different keys that hold no underscore to
    two different columns, so no two keys of a patch are written to one
    column. The restriction is needed: the keys [aB] and [a_b] share the
    column [a_b]. *)
Theorem toSnakeCase_injective (key key' : string) :
  JsString.includes "_" key = false -> JsString.includes "_" key' = false ->
  key <> key' -> Db.toSnakeCase key <> Db.toSnakeCase key'.
Proof. intros H H' Hne Heq. exact (Hne (toSnakeCase_inj key key' H H' Heq)). Qed.

Lemma toSnakeCase_injective_witness :
  Db.toSnakeCase "commitTx" <> Db.toSnakeCase "committedAt" /\
  Db.toSnakeCase "aB" = Db.toSnakeCase "a_b".
Proof.
  split; [|reflexivity].
  apply (toSnakeCase_injective "commitTx" "committedAt"); [reflexivity | reflexivity | discriminate].
Defined.

(** X5. Whatever keys a patch holds, each once, [upsertResolution] names
    for them columns that the table [resolutions] has, each once: every
    key of [Resolution] is sent by [toSnakeCase] to the column of
    001_init.sql, and different keys to different columns. *)
Theorem upsert_names_existing_columns (fields : list string) :
  List.NoDup fields -> incl fields Db.resolutionKeys ->
  List.NoDup (map Db.toSnakeCase fields) /\
  incl (map Db.toSnakeCase fields) Db.resolutionColumns.
Proof.
  intros Hnodup Hincl. split.
  - apply NoDup_map_NoDup_ForallPairs; [|exact Hnodup].
    intros k k' Hk Hk'. apply toSnakeCase_inj.
    + apply Hincl in Hk. cbn in Hk.
      repeat (destruct Hk as [<-|Hk]; [reflexivity|]). contradiction.
    + apply Hincl in Hk'. cbn in Hk'.
      repeat (destruct Hk' as [<-|Hk']; [reflexivity|]). contradiction.
  - intros column Hc. apply in_map_iff in Hc as (k & <- & Hk).
    apply Hincl in Hk. cbn in Hk.
    repeat (destruct Hk as [<-|Hk]; [vm_compute; tauto|]). contradiction.
Qed.

Lemma upsert_names_existing_columns_witness :
  List.NoDup (map Db.toSnakeCase ["commitTx"; "committedAt"; "disputeUntil"]) /\
  incl (map Db.toSnakeCase ["commitTx"; "committedAt"; "disputeUntil"]) Db.resolutionColumns.
Proof.
  apply (upsert_names_existing_columns ["commitTx"; "committedAt"; "disputeUntil"]).
  - repeat constructor; cbn; intuition discriminate.
  - intros k Hk. cbn in Hk. cbn. intuition.
Defined.

(** ** chain/viem.ts: when the commitment is defined *)

Lemma nibble_isHexDigit (c : ascii) :
  Pattern.isHexDigit c = true <-> exists n : N, Hex.nibble c = Some n.
Proof.
  unfold Pattern.isHexDigit, Hex.nibble.
  destruct ((48 <=? N_of_ascii c) && (N_of_ascii c <=? 57))%N;
    destruct ((97 <=? N_of_ascii c) && (N_of_ascii c <=? 102))%N;
    destruct ((65 <=? N_of_ascii c) && (N_of_ascii c <=? 70))%N; cbn;
    split; eauto; try discriminate; intros [n [=]].
Qed.

Lemma decode_allHexDigits (n : nat) :
  forall s : string, (String.length s <= n)%nat ->
    (forall bs, Hex.decode s = Some bs ->
       Pattern.allHexDigits s = true /\ String.length s = (2 * List.length bs)%nat) /\
    (Pattern.allHexDigits s = true -> Nat.Even (String.length s) ->
       exists bs, Hex.decode s = Some bs).
Proof.
  induction n as [|n IH]; intros s Hlen.
  - destruct s; [|cbn in Hlen; lia]. split.
    + intros bs [= <-]. split; reflexivity.
    + intros _ _. exists []. reflexivity.
  - destruct s as [|hi [|lo rest]].
    + split; [intros bs [= <-]; split; reflexivity | intros _ _; exists []; reflexivity].
    + split; [discriminate|]. intros _ [k Hk]. cbn in Hk. lia.
    + assert (Hrest : (String.length rest <= n)%nat) by (cbn in Hlen; lia).
      destruct (IH rest Hrest) as [IH1 IH2].
      cbn [Hex.decode Pattern.allHexDigits String.length]. split.
      * intros bs.
        destruct (Hex.nibble hi) as [h|] eqn:Hh; [|discriminate].
        destruct (Hex.nibble lo) as [l|] eqn:Hl; [|discriminate].
        destruct (Hex.decode rest) as [bs'|]; [|discriminate].
        intros [= <-]. destruct (IH1 bs' eq_refl) as [Hall Hl'].
        rewrite (proj2 (nibble_isHexDigit hi)) by eauto.
        rewrite (proj2 (nibble_isHexDigit lo)) by eauto.
        rewrite Hall, Hl'. cbn [andb List.length]. split; [reflexivity | lia].
      * intros Hall Heven.
        apply andb_true_iff in Hall as [Hhi Hall]. apply andb_true_iff in Hall as [Hlo Hall].
        apply nibble_isHexDigit in Hhi as [h ->]. apply nibble_isHexDigit in Hlo as [l ->].
        destruct IH2 as [bs' ->]; [exact Hall | | eauto].
        destruct Heven as [k Hk]. exists (k - 1)%nat. lia.
Qed.

Ltac by_bits c :=
  destruct c as [[] [] [] [] [] [] [] []];
  try discriminate; try (intros [? [=]]); try congruence.

Lemma encode_bytes32 (s : string) :
  Pattern.isHex32 s = true <->
  exists bs : Hex.bytes, Abi.encode (Abi.bytesN 32) (Abi.VHex s) = Ok bs.
Proof.
  unfold Pattern.isHex32, Abi.encode.
  destruct s as [|c0 [|c1 digits]].
  - cbn. split; [discriminate | intros [bs [=]]].
  - cbn. split; [by_bits c0 | intros [bs [=]]].
  - change (String.length (String c0 (String c1 digits)))
      with (S (S (String.length digits))).
    change (2 + 2 * 32)%nat with (S (S 64)). cbn [Nat.eqb].
    destruct (decode_allHexDigits (String.length digits) digits (le_n _)) as [H1 H2].
    destruct (Ascii.eqb_spec c0 "0") as [->|H0];
      [destruct (Ascii.eqb_spec c1 "x") as [->|Hx]|].
    + destruct (Nat.eqb_spec (String.length digits) 64) as [Hlen|Hlen]; cbn [andb].
      * split.
        -- intros Hall. destruct (H2 Hall) as [bs ->]; [|eauto].
           rewrite Hlen. exists 32%nat. reflexivity.
        -- destruct (Hex.decode digits) as [bs|]; [|intros [bs' [=]]].
           intros _. exact (proj1 (H1 bs eq_refl)).
      * split; [discriminate | intros [bs [=]]].
    + split; [by_bits c1 | destruct (Nat.eqb (String.length digits) 64); by_bits c1].
    + split; [by_bits c0 | destruct (Nat.eqb (String.length digits) 64); by_bits c0].
Qed.

Lemma bigEndian_length (size : nat) (z : Z) : List.length (Hex.bigEndian size z) = size.
Proof.
  revert z. induction size as [|size IH]; intros z; cbn [Hex.bigEndian]; [reflexivity|].
  rewrite List.length_app, IH. cbn. lia.
Qed.

Lemma encode_bytes32_length (s : string) (bs : Hex.bytes) :
  Abi.encode (Abi.bytesN 32) (Abi.VHex s) = Ok bs -> List.length bs = 32%nat.
Proof.
  unfold Abi.encode.
  destruct (Nat.eqb_spec (String.length s) (2 + 2 * 32)) as [Hlen|]; [|discriminate].
  destruct s as [|c0 [|c1 digits]]; try discriminate.
  destruct (Ascii.eqb_spec c0 "0") as [->|H0]; [|by_bits c0].
  destruct (Ascii.eqb_spec c1 "x") as [->|Hx]; [|by_bits c1].
  destruct (Hex.decode digits) as [bs'|] eqn:Hd; [|discriminate].
  intros [= <-].
  destruct (decode_allHexDigits (String.length digits) digits (le_n _)) as [H1 _].
  destruct (H1 bs' Hd) as [_ Hl]. cbn in Hlen. lia.
Qed.

(** A digit of either case has the value of the lower-case digit that
    [Hex.encode] writes for it. *)
Lemma nibble_digit (c : ascii) (h : N) :
  Hex.nibble c = Some h -> (h < 16)%N /\ Hex.digit h = JsString.lower c.
Proof.
  destruct c as [[] [] [] [] [] [] [] []]; try discriminate;
    intros [= <-]; split; reflexivity.
Qed.

Lemma isHexDigit_lower (c : ascii) :
  Pattern.isHexDigit (JsString.lower c) = Pattern.isHexDigit c.
Proof. destruct c as [[] [] [] [] [] [] [] []]; reflexivity. Qed.

Lemma allHexDigits_toLowerCase (s : string) :
  Pattern.allHexDigits (JsString.toLowerCase s) = Pattern.allHexDigits s.
Proof.
  induction s as [|c s IH]; [reflexivity|].
  cbn [JsString.toLowerCase Pattern.allHexDigits]. rewrite isHexDigit_lower, IH. reflexivity.
Qed.

Lemma allHexDigits_encode (bs : Hex.bytes) : Pattern.allHexDigits (Hex.encode bs) = true.
Proof.
  induction bs as [|b bs IH]; [reflexivity|].
  cbn [Hex.encode Pattern.allHexDigits]. rewrite IH. destruct b; reflexivity.
Qed.

Lemma byte_digits (h l : N) :
  (h < 16)%N -> (l < 16)%N ->
  (Strings.Byte.to_N (Hex.byteOfN (h * 16 + l)) / 16 = h)%N /\
  (Strings.Byte.to_N (Hex.byteOfN (h * 16 + l)) mod 16 = l)%N.
Proof.
  intros Hh Hl. rewrite byteOfN_to_N by lia. split.
  - rewrite N.div_add_l by discriminate. rewrite N.div_small by exact Hl. lia.
  - rewrite N.add_comm, N.Div0.mod_add. apply N.mod_small. exact Hl.
Qed.

(** The digits that denote some bytes are, up to their case, the digits
    that [Hex.encode] writes for these bytes. *)
Lemma decode_toLowerCase (n : nat) :
  forall (s : string) (bs : Hex.bytes),
    (String.length s <= n)%nat -> Hex.decode s = Some bs ->
    JsString.toLowerCase s = Hex.encode bs.
Proof.
  induction n as [|n IH]; intros s bs Hlen.
  - destruct s; [|cbn in Hlen; lia]. intros [= <-]. reflexivity.
  - destruct s as [|hi [|lo rest]]; [intros [= <-]; reflexivity | discriminate |].
    cbn [Hex.decode].
    destruct (Hex.nibble hi) as [h|] eqn:Hh; [|discriminate].
    destruct (Hex.nibble lo) as [l|] eqn:Hl; [|discriminate].
    destruct (Hex.decode rest) as [bs'|] eqn:Hrest; [|discriminate].
    intros [= <-].
    destruct (nibble_digit hi h Hh) as [Hh16 Hhi]. destruct (nibble_digit lo l Hl) as [Hl16 Hlo].
    destruct (byte_digits h l Hh16 Hl16) as [Hdiv Hmod].
    cbn [Hex.encode JsString.toLowerCase]. rewrite Hdiv, Hmod, Hhi, Hlo.
    rewrite (IH rest bs') by (cbn in Hlen; (lia || assumption)). reflexivity.
Qed.

(** X6. The pattern that the request schema and [assertHex32] demand of a
    digest accepts exactly ["0x"] followed by the hexadecimal notation of
    32 bytes, in digits of either case: the texts that [sha256] of
    lib/hash.ts writes, up to the case of their digits. For a text that
    the pattern accepts, what [encodePacked] packs as the [bytes32] value
    is these 32 bytes. *)
Theorem hex32_pattern_iff_bytes32 (s : string) :
  (Pattern.isHex32 s = true <->
   exists (digits : string) (bs : Hex.bytes),
     s = "0x" +:+ digits /\ List.length bs = 32%nat /\
     JsString.toLowerCase digits = Hex.encode bs) /\
  (forall (digits : string) (bs : Hex.bytes),
     s = "0x" +:+ digits -> List.length bs = 32%nat ->
     JsString.toLowerCase digits = Hex.encode bs ->
     Abi.encode (Abi.bytesN 32) (Abi.VHex s) = Ok bs).
Proof.
  assert (Hpacked : forall bs, Abi.encode (Abi.bytesN 32) (Abi.VHex s) = Ok bs ->
            exists digits, s = "0x" +:+ digits /\ List.length bs = 32%nat /\
                           JsString.toLowerCase digits = Hex.encode bs).
  { intros bs Hbs. pose proof (encode_bytes32_length s bs Hbs) as Hlen.
    revert Hbs. unfold Abi.encode.
    destruct (Nat.eqb_spec (String.length s) (2 + 2 * 32)) as [Hs|]; [|discriminate].
    destruct s as [|c0 [|c1 digits]]; try discriminate.
    destruct (Ascii.eqb_spec c0 "0") as [->|H0]; [|by_bits c0].
    destruct (Ascii.eqb_spec c1 "x") as [->|Hx]; [|by_bits c1].
    destruct (Hex.decode digits) as [bs'|] eqn:Hd; [|discriminate].
    intros [= <-]. exists digits. split; [reflexivity|]. split; [exact Hlen|].
    exact (decode_toLowerCase _ digits bs' (le_n _) Hd). }
  assert (Haccepts : forall digits bs,
            s = "0x" +:+ digits -> List.length bs = 32%nat ->
            JsString.toLowerCase digits = Hex.encode bs -> Pattern.isHex32 s = true).
  { intros digits bs -> Hlen Hlower.
    change (Pattern.isHex32 ("0x" +:+ digits))
      with (Nat.eqb (String.length digits) 64 && Pattern.allHexDigits digits).
    rewrite <- (allHexDigits_toLowerCase digits), <- (toLowerCase_length digits), Hlower.
    rewrite encode_length, Hlen, allHexDigits_encode. reflexivity. }
  split; [split|].
  - intros Hs. apply encode_bytes32 in Hs as [bs Hbs].
    destruct (Hpacked bs Hbs) as [digits H]. exists digits, bs. exact H.
  - intros (digits & bs & Hs & Hlen & Hlower). exact (Haccepts digits bs Hs Hlen Hlower).
  - intros digits bs Hs Hlen Hlower.
    destruct (proj1 (encode_bytes32 s) (Haccepts digits bs Hs Hlen Hlower)) as [bs' Hbs'].
    destruct (Hpacked bs' Hbs') as (digits' & Hs' & _ & Hlower').
    assert (Hsame : String "0" (String "x" digits) = String "0" (String "x" digits'))
      by (transitivity s; [symmetry; exact Hs | exact Hs']).
    injection Hsame as <-.
    rewrite Hlower in Hlower'. apply encode_inj in Hlower' as <-. exact Hbs'.
Qed.

Lemma encode_uint (bits : nat) (z : Z) :
  0 <= z < 2 ^ Z.of_nat bits <->
  exists b : Hex.bytes, Abi.encode (Abi.uint bits) (Abi.VInt z) = Ok b.
Proof.
  unfold Abi.encode.
  destruct (Z.leb_spec 0 z), (Z.ltb_spec z (2 ^ Z.of_nat bits)); cbn [andb];
    split; eauto; try lia; intros [b [=]].
Qed.

Lemma encodePacked_cons (t : Abi.abiType) (types : list Abi.abiType)
    (v : Abi.abiValue) (values : list Abi.abiValue) :
  (exists b, Abi.encodePacked (t :: types) (v :: values) = Ok b) <->
  (exists b, Abi.encode t v = Ok b) /\ (exists b, Abi.encodePacked types values = Ok b).
Proof.
  cbn [Abi.encodePacked].
  destruct (Abi.encode t v) as [b1|]; cbn [exc_bind];
    [destruct (Abi.encodePacked types values) as [b2|]; cbn [exc_bind]|].
  - split; eauto.
  - split; [intros [b [=]] | intros [_ [b [=]]]].
  - split; [intros [b [=]] | intros [[b [=]] _]].
Qed.

(** X7. When [computeCommitment] is defined. The four digests of the
    evidence are each ["0x"] followed by 64 hexadecimal digits, as
    [sha256] of lib/hash.ts writes them and as the zero hash is that
    stands in for a missing CSV digest. Then the call returns a commitment
    exactly when every number is of its declared type: the market id and
    the nonce are in [0 .. 2^256 - 1], the two ranks in [0 .. 65535] and
    the outcome in [0 .. 255]. The URLs and content identifiers may be any
    strings. Otherwise the call throws, and what it throws is an encoding
    error. *)
Theorem computeCommitment_returns_iff (P : Platform) (marketId t0Rank t1Rank outcome : Z)
    (t0Evidence t1Evidence : Chain.Evidence) (nonce : Z) :
  Pattern.isHex32 (Chain.csvSha256 t0Evidence) = true ->
  Pattern.isHex32 (Chain.jsonSha256 t0Evidence) = true ->
  Pattern.isHex32 (Chain.csvSha256 t1Evidence) = true ->
  Pattern.isHex32 (Chain.jsonSha256 t1Evidence) = true ->
  ((exists commitment : string,
      Chain.computeCommitment P marketId t0Rank t1Rank outcome t0Evidence t1Evidence nonce
      = Ok commitment) <->
   0 <= marketId < 2 ^ 256 /\ 0 <= t0Rank < 2 ^ 16 /\ 0 <= t1Rank < 2 ^ 16 /\
   0 <= outcome < 2 ^ 8 /\ 0 <= nonce < 2 ^ 256) /\
  (forall e : Error,
     Chain.computeCommitment P marketId t0Rank t1Rank outcome t0Evidence t1Evidence nonce
     = Throw e -> e = AbiEncodingError).
Proof.
  intros Hcsv0 Hjson0 Hcsv1 Hjson1. split.
  - transitivity (exists b : Hex.bytes,
                    Chain.packed marketId t0Rank t1Rank outcome t0Evidence t1Evidence nonce
                    = Ok b).
    + unfold Chain.computeCommitment.
      destruct (Chain.packed _ _ _ _ _ _ _) as [b|e]; cbn [exc_bind].
      * split; eauto.
      * split; intros [x [=]].
    + unfold Chain.packed, Chain.commitmentTypes, Chain.commitmentValues.
      rewrite !encodePacked_cons.
      rewrite <- !encode_uint, <- !encode_bytes32.
      change (Z.of_nat 256) with 256. change (Z.of_nat 16) with 16. change (Z.of_nat 8) with 8.
      assert (Hs : forall s, (exists b, Abi.encode Abi.string_t (Abi.VStr s) = Ok b) <-> True)
        by (intros s; split; [trivial | intros _; cbn; eauto]).
      rewrite !Hs.
      assert (Hnil : (exists b, Abi.encodePacked [] [] = Ok b) <-> True)
        by (split; [trivial | intros _; cbn; eauto]).
      rewrite Hnil. tauto.
  - intros e. unfold Chain.computeCommitment, Chain.packed.
    destruct (Abi.encodePacked _ _) as [b|e'] eqn:Hp; cbn [exc_bind]; [discriminate|].
    intros [= <-]. exact (encodePacked_throws _ _ _ Hp).
Qed.

Lemma computeCommitment_returns_iff_witness :
  (exists commitment : string,
     Chain.computeCommitment Fixture.platform 42 12 101 2
       (evidenceOf Fixture.snapshot0) (evidenceOf Fixture.snapshot1) 0 = Ok commitment) /\
  ~ (exists commitment : string,
       Chain.computeCommitment Fixture.platform 42 12 (-1) 2
         (evidenceOf Fixture.snapshot0) (evidenceOf Fixture.snapshot1) 0 = Ok commitment).
Proof.
  split.
  - apply (proj1 (computeCommitment_returns_iff Fixture.platform 42 12 101 2
                    (evidenceOf Fixture.snapshot0) (evidenceOf Fixture.snapshot1) 0
                    eq_refl eq_refl eq_refl eq_refl)).
    lia.
  - intros Hreturns.
    apply (proj1 (computeCommitment_returns_iff Fixture.platform 42 12 (-1) 2
                    (evidenceOf Fixture.snapshot0) (evidenceOf Fixture.snapshot1) 0
                    eq_refl eq_refl eq_refl eq_refl)) in Hreturns.
    lia.
Defined.

(** ** The commit and finalize paths as functions of the world *)

Lemma run_getSnapshotIfSet (E : Env) (id : option Z) (w : World) :
  run E (getSnapshotIfSet id) w = (Ok (snapshotOf id w), w).
Proof. destruct id; reflexivity. Qed.

Lemma run_job (cfg : Config) (E : Env) {A} (body : Job A) (jobName : string) (marketId : Z)
    (w : World) :
  run E (tryCatch body (fun error => alertJobFailure cfg jobName marketId error ;; throw error)) w
  = caught cfg E jobName marketId (run E body w).
Proof.
  rewrite run_tryCatch. unfold caught.
  destruct (run E body w) as [[a|e] w']; [reflexivity | apply run_catch].
Qed.

Lemma run_commitSending (P : Platform) (cfg : Config) (E : Env) (marketId : Z)
    (market : Market.t) (r : Resolution.t) (commitment : string) (evidence : Chain.Evidence)
    {A} (k : string -> Z -> Job A) (w : World) :
  findMarket marketId (markets w) = Some market ->
  resolutions w !! marketId = Some r ->
  run E (let* txHash := sendCommitResolve cfg marketId commitment evidence in
         let* disputeWindowSeconds := getDisputeWindow in
         let* now := perform DateNow in
         let disputeUntil := now + disputeWindowSeconds * 1000 in
         let* committedAt := perform DateNow in
         upsertResolution marketId
           (Resolution.mk None None None None None
              (Some txHash) (Some committedAt) (Some disputeUntil) None None) ;;
         k txHash disputeUntil) w
  = match commitSending cfg E marketId r (CommitResolve marketId commitment evidence) w with
    | (Throw e, w') => (Throw e, w')
    | (Ok (txHash, disputeUntil), w') => run E (k txHash disputeUntil) w'
    end.
Proof.
  intros Hm Hr. unfold commitSending, sendCommitResolve.
  destruct (negb (hasAccount cfg)); [reflexivity|].
  unfold getDisputeWindow, upsertResolution, attempt, perform. cbn [bind run handle].
  destruct (chainWrite E (chainLog w) _) as [message|txHash|message]; cbn [bind run handle];
    try reflexivity.
  cbn [chainLog submit].
  destruct (chainDisputeWindow E _) as [seconds|]; cbn [bind run handle]; [|reflexivity].
  match goal with
  | |- context [upsert marketId ?patch ?w0] =>
      rewrite (upsert_transaction_fields w0 marketId market r) by first [assumption | reflexivity]
  end.
  cbn [bind]. reflexivity.
Qed.

Lemma run_commitResolveBody (P : Platform) (cfg : Config) (E : Env) (marketId : Z) (w : World) :
  run E (commitResolveBody P cfg marketId) w = commitResolveOutcome P cfg E marketId w.
Proof.
  unfold commitResolveBody, commitResolveOutcome, getMarket, getResolution, perform.
  cbn [bind run handle].
  destruct (findMarket marketId (markets w)) as [market|] eqn:Hm; cbn [bind run handle];
    [|reflexivity].
  pose proof (findMarket_marketId _ _ _ Hm) as Hkey. rewrite Hkey.
  destruct (resolutions w !! marketId) as [r|] eqn:Hr; [|reflexivity].
  destruct (negb (truthyNum (Resolution.outcome r))); [reflexivity|].
  destruct (truthyStr (Resolution.commitTx r)); [reflexivity|].
  rewrite run_bind, run_getSnapshotIfSet, run_bind, run_getSnapshotIfSet.
  destruct (snapshotOf (Resolution.t0SnapshotId r) w) as [t0Snapshot|];
    destruct (snapshotOf (Resolution.t1SnapshotId r) w) as [t1Snapshot|]; try reflexivity.
  rewrite run_bind. unfold lift. cbn [run]. fold (rowCommitment P marketId r
    (evidenceOf t0Snapshot) (evidenceOf t1Snapshot)).
  destruct (rowCommitment P marketId r _ _) as [commitment|e]; [|reflexivity].
  etransitivity;
    [exact (run_commitSending P cfg E marketId market r commitment (evidenceOf t0Snapshot)
              (fun txHash disputeUntil =>
                 alertResolutionSuccess cfg marketId (default 0 (Resolution.outcome r)) "commit" ;;
                 ret (Committed marketId txHash disputeUntil
                        (default 0 (Resolution.outcome r)))) w Hm Hr)|].
  destruct (commitSending cfg E marketId r _ w) as [[[txHash disputeUntil]|e] w'];
    [|reflexivity].
  rewrite run_bind. unfold alertResolutionSuccess, perform. cbn [bind run handle].
  rewrite run_sendSlackAlert. reflexivity.
Qed.

Lemma run_commitResolveJob (P : Platform) (cfg : Config) (E : Env) (marketId : Z) (w : World) :
  run E (commitResolveJob P cfg marketId) w
  = caught cfg E "commitResolve" marketId (commitResolveOutcome P cfg E marketId w).
Proof. unfold commitResolveJob. rewrite run_job, run_commitResolveBody. reflexivity. Qed.

Lemma run_commitRoute (P : Platform) (cfg : Config) (E : Env) (id : Z) (w : World) :
  run E (commitRoute P cfg id) w = commitRouteOutcome P cfg E id w.
Proof.
  unfold commitRoute, commitRouteOutcome. cbn [run handle].
  destruct (findMarket id (markets w)) as [market|] eqn:Hm; cbn [run handle]; [|reflexivity].
  pose proof (findMarket_marketId _ _ _ Hm) as Hkey. rewrite Hkey.
  destruct (resolutions w !! id) as [r|] eqn:Hr; [|reflexivity].
  destruct (negb (truthyNum (Resolution.outcome r))); [reflexivity|].
  destruct (truthyStr (Resolution.commitTx r)); [reflexivity|].
  rewrite run_tryReply, run_bind. unfold lift. cbn [run].
  fold (rowCommitment P id r emptyEvidence emptyEvidence).
  destruct (rowCommitment P id r _ _) as [commitment|e]; [|reflexivity].
  pose proof (run_commitSending P cfg E id market r commitment emptyEvidence
                (fun txHash disputeUntil => ret (Reply200 (txHash, disputeUntil))) w Hm Hr)
    as Hsend.
  cbv zeta beta in Hsend. rewrite Hsend.
  destruct (commitSending cfg E id r _ w) as [[[txHash disputeUntil]|e] w']; reflexivity.
Qed.

Lemma run_finalizeSending (cfg : Config) (E : Env) (marketId : Z)
    (market : Market.t) (r : Resolution.t) (call : ContractCall)
    {A} (k : string -> Job A) (w : World) :
  findMarket marketId (markets w) = Some market ->
  resolutions w !! marketId = Some r ->
  run E (let* txHash :=
           (if negb (hasAccount cfg) then throw NoWalletAccount
            else attempt (WriteContract call)) in
         let* finalizedAt := perform DateNow in
         upsertResolution marketId
           (Resolution.mk None None None None None None None None
              (Some txHash) (Some finalizedAt)) ;;
         k txHash) w
  = match finalizeSending cfg E marketId r call w with
    | (Throw e, w') => (Throw e, w')
    | (Ok txHash, w') => run E (k txHash) w'
    end.
Proof.
  intros Hm Hr. unfold finalizeSending.
  destruct (negb (hasAccount cfg)); [reflexivity|].
  unfold upsertResolution, attempt, perform. cbn [bind run handle].
  destruct (chainWrite E (chainLog w) _) as [message|txHash|message]; cbn [bind run handle];
    try reflexivity.
  match goal with
  | |- context [upsert marketId ?patch ?w0] =>
      rewrite (upsert_transaction_fields w0 marketId market r) by first [assumption | reflexivity]
  end.
  cbn [bind]. reflexivity.
Qed.

Lemma run_finalizeResolveBody (cfg : Config) (E : Env) (marketId : Z) (w : World) :
  run E (finalizeResolveBody cfg marketId) w = finalizeResolveOutcome cfg E marketId w.
Proof.
  unfold finalizeResolveBody, finalizeResolveOutcome, getMarket, getResolution, perform.
  cbn [bind run handle].
  destruct (findMarket marketId (markets w)) as [market|] eqn:Hm; cbn [bind run handle];
    [|reflexivity].
  pose proof (findMarket_marketId _ _ _ Hm) as Hkey. rewrite Hkey.
  destruct (resolutions w !! marketId) as [r|] eqn:Hr; [|reflexivity].
  destruct (Resolution.disputeUntil r) as [disputeUntil|]; [|reflexivity].
  destruct (negb (truthyStr (Resolution.commitTx r))); [reflexivity|].
  destruct (truthyStr (Resolution.finalizeTx r)); [reflexivity|].
  cbn [bind run handle].
  destruct (clock E (ticks w) <? disputeUntil); cbn [bind run handle]; [reflexivity|].
  rewrite run_bind, run_getSnapshotIfSet, run_bind, run_getSnapshotIfSet.
  change (snapshotOf ?i (tick w)) with (snapshotOf i w).
  destruct (snapshotOf (Resolution.t0SnapshotId r) w) as [t0Snapshot|];
    destruct (snapshotOf (Resolution.t1SnapshotId r) w) as [t1Snapshot|]; try reflexivity.
  unfold sendFinalizeResolve.
  fold (finalizeCall marketId r t0Snapshot t1Snapshot).
  etransitivity;
    [exact (run_finalizeSending cfg E marketId market r
              (finalizeCall marketId r t0Snapshot t1Snapshot)
              (fun txHash =>
                 alertResolutionSuccess cfg marketId (default 0 (Resolution.outcome r))
                   "finalize" ;;
                 ret (Finalized marketId txHash (Resolution.outcome r))) (tick w) Hm Hr)|].
  destruct (finalizeSending cfg E marketId r _ (tick w)) as [[txHash|e] w']; [|reflexivity].
  rewrite run_bind. unfold alertResolutionSuccess, perform. cbn [bind run handle].
  rewrite run_sendSlackAlert. reflexivity.
Qed.

Lemma run_finalizeResolveJob (cfg : Config) (E : Env) (marketId : Z) (w : World) :
  run E (finalizeResolveJob cfg marketId) w
  = caught cfg E "finalizeResolve" marketId (finalizeResolveOutcome cfg E marketId w).
Proof. unfold finalizeResolveJob. rewrite run_job, run_finalizeResolveBody. reflexivity. Qed.

Lemma run_finalizeRoute (cfg : Config) (E : Env) (id : Z) (w : World) :
  run E (finalizeRoute cfg id) w = finalizeRouteOutcome cfg E id w.
Proof.
  unfold finalizeRoute, finalizeRouteOutcome. cbn [run handle].
  destruct (findMarket id (markets w)) as [market|] eqn:Hm; cbn [run handle]; [|reflexivity].
  pose proof (findMarket_marketId _ _ _ Hm) as Hkey. rewrite Hkey.
  destruct (resolutions w !! id) as [r|] eqn:Hr; [|reflexivity].
  destruct (negb (truthyStr (Resolution.commitTx r)));
    [destruct (Resolution.disputeUntil r); reflexivity|].
  destruct (Resolution.disputeUntil r) as [disputeUntil|]; [|reflexivity].
  destruct (truthyStr (Resolution.finalizeTx r)); [reflexivity|].
  cbn [run handle].
  destruct (clock E (ticks w) <? disputeUntil); [reflexivity|].
  rewrite run_tryReply. unfold sendFinalizeResolve.
  pose proof (run_finalizeSending cfg E id market r
                (FinalizeResolve id (Resolution.outcome r) (Resolution.t0Rank r)
                   (Resolution.t1Rank r) emptyEvidence emptyEvidence 0)
                (fun txHash => ret (Reply200 (txHash, Resolution.outcome r))) (tick w) Hm Hr)
    as Hsend.
  cbv zeta beta in Hsend. rewrite Hsend.
  destruct (finalizeSending cfg E id r _ (tick w)) as [[txHash|e] w']; reflexivity.
Qed.

(** The parts of the world that an alert leaves as they are, and what it
    adds to the outbox or to the console. *)
Lemma notified_markets (cfg : Config) (message : string) (details : option SlackDetails)
    (w : World) : markets (notified cfg message details w) = markets w.
Proof. apply notified_tables. Qed.

Lemma notified_snapshots (cfg : Config) (message : string) (details : option SlackDetails)
    (w : World) : snapshots (notified cfg message details w) = snapshots w.
Proof. apply notified_tables. Qed.

Lemma notified_resolutions (cfg : Config) (message : string) (details : option SlackDetails)
    (w : World) : resolutions (notified cfg message details w) = resolutions w.
Proof. apply notified_tables. Qed.

Lemma notified_chainLog (cfg : Config) (message : string) (details : option SlackDetails)
    (w : World) : chainLog (notified cfg message details w) = chainLog w.
Proof. apply notified_tables. Qed.

Lemma notified_ticks (cfg : Config) (message : string) (details : option SlackDetails)
    (w : World) : ticks (notified cfg message details w) = ticks w.
Proof. apply notified_tables. Qed.

Lemma notified_slackOutbox (cfg : Config) (message : string) (details : option SlackDetails)
    (w : World) :
  slackOutbox (notified cfg message details w)
  = (if truthyStr (SLACK_WEBHOOK_URL cfg)
     then slackOutbox w ++ [mkAlert message details] else slackOutbox w)%list.
Proof. unfold notified. destruct (truthyStr (SLACK_WEBHOOK_URL cfg)); reflexivity. Qed.

Lemma notified_consoleWarnings (cfg : Config) (message : string)
    (details : option SlackDetails) (w : World) :
  consoleWarnings (notified cfg message details w)
  = (if truthyStr (SLACK_WEBHOOK_URL cfg)
     then consoleWarnings w else consoleWarnings w ++ [message])%list.
Proof. unfold notified. destruct (truthyStr (SLACK_WEBHOOK_URL cfg)); reflexivity. Qed.

Create Rewrite HintDb world.
#[local] Hint Rewrite notified_markets notified_snapshots notified_resolutions
  notified_chainLog notified_ticks notified_slackOutbox notified_consoleWarnings : world.

(** Reading a part of a world that was built by the steps above. *)
Ltac world :=
  repeat (unfold failureAlerted;
          autorewrite with world;
          cbn [markets snapshots resolutions chainLog ticks slackOutbox consoleWarnings
               tick submit setResolutions post warn fst snd caught]).

Lemma commitSending_facts (cfg : Config) (E : Env) (marketId : Z) (r : Resolution.t)
    (call : ContractCall) (w : World) :
  let res := fst (commitSending cfg E marketId r call w) in
  let w' := snd (commitSending cfg E marketId r call w) in
  markets w' = markets w /\ snapshots w' = snapshots w /\
  slackOutbox w' = slackOutbox w /\ consoleWarnings w' = consoleWarnings w /\
  (chainLog w' = chainLog w \/
   hasAccount cfg = true /\ chainLog w' = (chainLog w ++ [call])%list) /\
  match res with
  | Throw _ => resolutions w' = resolutions w
  | Ok (txHash, disputeUntil) =>
      hasAccount cfg = true /\
      chainWrite E (chainLog w) call = Sent txHash /\
      chainLog w' = (chainLog w ++ [call])%list /\
      ticks w' = S (S (ticks w)) /\
      (exists seconds : Z,
         chainDisputeWindow E (chainLog w ++ [call]) = Some seconds /\
         disputeUntil = clock E (ticks w) + seconds * 1000) /\
      resolutions w'
      = <[marketId := Resolution.merge
                        (commitPatch txHash (clock E (S (ticks w))) disputeUntil) r]>
          (resolutions w)
  end.
Proof.
  unfold commitSending. destruct (hasAccount cfg); cbn [negb fst snd]; [|tauto].
  destruct (chainWrite E (chainLog w) call) as [message|txHash|message]; cbn [fst snd];
    [tauto | | cbn; tauto].
  destruct (chainDisputeWindow E (chainLog w ++ [call])) as [seconds|]; cbn [fst snd];
    [|cbn; tauto].
  cbn. repeat split; eauto.
Qed.

Lemma finalizeSending_facts (cfg : Config) (E : Env) (marketId : Z) (r : Resolution.t)
    (call : ContractCall) (w : World) :
  let res := fst (finalizeSending cfg E marketId r call w) in
  let w' := snd (finalizeSending cfg E marketId r call w) in
  markets w' = markets w /\ snapshots w' = snapshots w /\
  slackOutbox w' = slackOutbox w /\ consoleWarnings w' = consoleWarnings w /\
  (chainLog w' = chainLog w \/
   hasAccount cfg = true /\ chainLog w' = (chainLog w ++ [call])%list) /\
  match res with
  | Throw _ => resolutions w' = resolutions w
  | Ok txHash =>
      hasAccount cfg = true /\
      chainWrite E (chainLog w) call = Sent txHash /\
      chainLog w' = (chainLog w ++ [call])%list /\
      ticks w' = S (ticks w) /\
      resolutions w'
      = <[marketId := Resolution.merge (finalizePatch txHash (clock E (ticks w))) r]>
          (resolutions w)
  end.
Proof.
  unfold finalizeSending. destruct (hasAccount cfg); cbn [negb fst snd]; [|tauto].
  destruct (chainWrite E (chainLog w) call) as [message|txHash|message]; cbn [fst snd];
    cbn; tauto.
Qed.

Lemma snapshotOf_found (id : option Z) (w : World) (s : Snapshot.t) :
  snapshotOf id w = Some s ->
  exists i : Z, id = Some i /\ findSnapshot i (snapshots w) = Some s.
Proof. destruct id as [i|]; [|discriminate]. intros H. exists i. split; [reflexivity | exact H]. Qed.

Lemma rowCommitment_defined (P : Platform) (marketId : Z) (r : Resolution.t)
    (t0Evidence t1Evidence : Chain.Evidence) (commitment : string) :
  rowCommitment P marketId r t0Evidence t1Evidence = Ok commitment ->
  exists t0Rank t1Rank : Z,
    Resolution.t0Rank r = Some t0Rank /\ Resolution.t1Rank r = Some t1Rank /\
    Chain.computeCommitment P marketId t0Rank t1Rank (default 0 (Resolution.outcome r))
      t0Evidence t1Evidence 0 = Ok commitment.
Proof.
  unfold rowCommitment.
  destruct (Resolution.t0Rank r) as [t0Rank|]; [|discriminate].
  destruct (Resolution.t1Rank r) as [t1Rank|]; [|discriminate].
  eauto.
Qed.

Lemma truthyNum_default (o : option Z) :
  truthyNum o = true -> exists z : Z, o = Some z /\ z <> 0 /\ default 0 o = z.
Proof.
  destruct o as [z|]; [|discriminate]. cbn. intros H. exists z.
  destruct (Z.eqb_spec z 0); [discriminate | auto].
Qed.

(** The commit job sends nothing, or one commit call for a prepared row
    without commit reference. *)
Lemma commitResolveJob_calls (P : Platform) (cfg : Config) (E : Env) (marketId : Z)
    (w : World) :
  let w' := snd (run E (commitResolveJob P cfg marketId) w) in
  chainLog w' = chainLog w \/
  exists (r : Resolution.t) (t0Id t1Id : Z) (t0Snapshot t1Snapshot : Snapshot.t)
         (t0Rank t1Rank outcome : Z) (commitment : string),
    resolutions w !! marketId = Some r /\
    truthyStr (Resolution.commitTx r) = false /\
    Resolution.t0SnapshotId r = Some t0Id /\
    findSnapshot t0Id (snapshots w) = Some t0Snapshot /\
    Resolution.t1SnapshotId r = Some t1Id /\
    findSnapshot t1Id (snapshots w) = Some t1Snapshot /\
    Resolution.t0Rank r = Some t0Rank /\ Resolution.t1Rank r = Some t1Rank /\
    Resolution.outcome r = Some outcome /\ outcome <> 0 /\
    hasAccount cfg = true /\
    Chain.computeCommitment P marketId t0Rank t1Rank outcome
      (evidenceOf t0Snapshot) (evidenceOf t1Snapshot) 0 = Ok commitment /\
    chainLog w'
    = (chainLog w ++ [CommitResolve marketId commitment (evidenceOf t0Snapshot)])%list.
Proof.
  cbv zeta. rewrite run_commitResolveJob. unfold commitResolveOutcome.
  assert (Hfail : forall (e : Error) (w0 : World),
            chainLog (snd (caught cfg E "commitResolve" marketId (@Throw CommitResult e, w0)))
            = chainLog w0).
  { intros e w0. world. reflexivity. }
  destruct (findMarket marketId (markets w)) as [market|]; [|left; apply Hfail].
  destruct (resolutions w !! marketId) as [r|]; [|left; apply Hfail].
  destruct (truthyNum (Resolution.outcome r)) eqn:Ho; cbn [negb]; [|left; apply Hfail].
  destruct (truthyStr (Resolution.commitTx r)) eqn:Hc; [left; reflexivity|].
  destruct (snapshotOf (Resolution.t0SnapshotId r) w) as [t0Snapshot|] eqn:H0;
    [|left; apply Hfail].
  destruct (snapshotOf (Resolution.t1SnapshotId r) w) as [t1Snapshot|] eqn:H1;
    [|left; apply Hfail].
  destruct (rowCommitment P marketId r _ _) as [commitment|e] eqn:Hcommit;
    [|left; apply Hfail].
  pose proof (commitSending_facts cfg E marketId r
                (CommitResolve marketId commitment (evidenceOf t0Snapshot)) w)
    as (_ & _ & _ & _ & Hlog & _).
  cbv zeta in Hlog.
  assert (Hend : chainLog
                   (snd (caught cfg E "commitResolve" marketId
                           match commitSending cfg E marketId r
                                   (CommitResolve marketId commitment (evidenceOf t0Snapshot)) w
                           with
                           | (Throw e, w') => (Throw e, w')
                           | (Ok (txHash, disputeUntil), w') =>
                               (Ok (Committed marketId txHash disputeUntil
                                      (default 0 (Resolution.outcome r))),
                                notified cfg
                                  ("✅ Resolution " +:+ "commit" +:+ " successful for market "
                                   +:+ decimal marketId)
                                  (Some (ResolutionSuccess marketId
                                           (if default 0 (Resolution.outcome r) =? 1
                                            then "YES" else "NO") "commit"
                                           (clock E (ticks w'))))
                                  (tick w'))
                           end))
                 = chainLog (snd (commitSending cfg E marketId r
                                    (CommitResolve marketId commitment (evidenceOf t0Snapshot))
                                    w))).
  { destruct (commitSending cfg E marketId r _ w) as [[[txHash disputeUntil]|e] w'].
    - world. reflexivity.
    - apply Hfail. }
  rewrite Hend.
  destruct Hlog as [Hlog | [Hacc Hlog]]; [left; exact Hlog|]. right.
  destruct (snapshotOf_found _ _ _ H0) as (t0Id & Hid0 & Hs0).
  destruct (snapshotOf_found _ _ _ H1) as (t1Id & Hid1 & Hs1).
  destruct (rowCommitment_defined _ _ _ _ _ _ Hcommit) as (t0Rank & t1Rank & Hr0 & Hr1 & Hcc).
  destruct (truthyNum_default _ Ho) as (outcome & Hout & Hnz & Hdef). rewrite Hdef in Hcc.
  exists r, t0Id, t1Id, t0Snapshot, t1Snapshot, t0Rank, t1Rank, outcome, commitment.
  repeat split; assumption.
Qed.

(** The finalize job sends nothing, or one finalize call for a committed
    row without finalize reference whose window has closed. *)
Lemma finalizeResolveJob_calls (cfg : Config) (E : Env) (marketId : Z) (w : World) :
  let w' := snd (run E (finalizeResolveJob cfg marketId) w) in
  chainLog w' = chainLog w \/
  exists (r : Resolution.t) (disputeUntil t0Id t1Id : Z) (t0Snapshot t1Snapshot : Snapshot.t),
    resolutions w !! marketId = Some r /\
    truthyStr (Resolution.commitTx r) = true /\
    truthyStr (Resolution.finalizeTx r) = false /\
    Resolution.disputeUntil r = Some disputeUntil /\
    disputeUntil <= clock E (ticks w) /\
    Resolution.t0SnapshotId r = Some t0Id /\
    findSnapshot t0Id (snapshots w) = Some t0Snapshot /\
    Resolution.t1SnapshotId r = Some t1Id /\
    findSnapshot t1Id (snapshots w) = Some t1Snapshot /\
    hasAccount cfg = true /\
    chainLog w'
    = (chainLog w ++
       [FinalizeResolve marketId (Resolution.outcome r) (Resolution.t0Rank r)
          (Resolution.t1Rank r) (evidenceOf t0Snapshot) (evidenceOf t1Snapshot) 0])%list.
Proof.
  cbv zeta. rewrite run_finalizeResolveJob. unfold finalizeResolveOutcome.
  destruct (findMarket marketId (markets w)) as [market|]; [|left; world; reflexivity].
  destruct (resolutions w !! marketId) as [r|]; [|left; world; reflexivity].
  destruct (Resolution.disputeUntil r) as [disputeUntil|] eqn:Hd; [|left; world; reflexivity].
  destruct (truthyStr (Resolution.commitTx r)) eqn:Hc; cbn [negb];
    [|left; world; reflexivity].
  destruct (truthyStr (Resolution.finalizeTx r)) eqn:Hf; [left; reflexivity|].
  destruct (Z.ltb_spec (clock E (ticks w)) disputeUntil) as [Hnow|Hnow];
    [left; world; reflexivity|].
  destruct (snapshotOf (Resolution.t0SnapshotId r) w) as [t0Snapshot|] eqn:H0;
    [|left; world; reflexivity].
  destruct (snapshotOf (Resolution.t1SnapshotId r) w) as [t1Snapshot|] eqn:H1;
    [|left; world; reflexivity].
  pose proof (finalizeSending_facts cfg E marketId r
                (finalizeCall marketId r t0Snapshot t1Snapshot) (tick w))
    as (_ & _ & _ & _ & Hlog & _).
  cbv zeta in Hlog.
  destruct (finalizeSending cfg E marketId r _ (tick w)) as [[txHash|e] w'];
    world; cbn [fst snd chainLog tick] in Hlog;
    (destruct Hlog as [Hlog | [Hacc Hlog]]; [left; exact Hlog|]);
    right;
    destruct (snapshotOf_found _ _ _ H0) as (t0Id & Hid0 & Hs0);
    destruct (snapshotOf_found _ _ _ H1) as (t1Id & Hid1 & Hs1);
    exists r, disputeUntil, t0Id, t1Id, t0Snapshot, t1Snapshot;
    repeat split; assumption.
Qed.

(** ** What the jobs send to the chain *)

(** X8. Whatever the world, one run of the commit job sends at most one
    transaction. When it sends one, the row of the market was prepared
    (its outcome is set and not 0) and held no commit reference, both
    snapshots that the row names were found, a wallet account was
    configured, and the transaction is [commitResolve] for this market
    with the commitment of the stored ranks and outcome over the evidence
    of the two snapshots and nonce 0, and with the evidence of the first
    snapshot. *)
Theorem commit_sends_commitment_of_row (P : Platform) (cfg : Config) (E : Env)
    (marketId : Z) (w : World) :
  let w' := snd (run E (commitResolveJob P cfg marketId) w) in
  chainLog w' = chainLog w \/
  exists (r : Resolution.t) (t0Id t1Id : Z) (t0Snapshot t1Snapshot : Snapshot.t)
         (t0Rank t1Rank outcome : Z) (commitment : string),
    resolutions w !! marketId = Some r /\
    truthyStr (Resolution.commitTx r) = false /\
    Resolution.t0SnapshotId r = Some t0Id /\
    findSnapshot t0Id (snapshots w) = Some t0Snapshot /\
    Resolution.t1SnapshotId r = Some t1Id /\
    findSnapshot t1Id (snapshots w) = Some t1Snapshot /\
    Resolution.t0Rank r = Some t0Rank /\ Resolution.t1Rank r = Some t1Rank /\
    Resolution.outcome r = Some outcome /\ outcome <> 0 /\
    hasAccount cfg = true /\
    Chain.computeCommitment P marketId t0Rank t1Rank outcome
      (evidenceOf t0Snapshot) (evidenceOf t1Snapshot) 0 = Ok commitment /\
    chainLog w'
    = (chainLog w ++ [CommitResolve marketId commitment (evidenceOf t0Snapshot)])%list.
Proof. exact (commitResolveJob_calls P cfg E marketId w). Qed.

(** X9. Whatever the world, one run of the finalize job sends at most one
    transaction, and it sends none before the window has closed: when it
    sends one, the row held a commit reference and no finalize reference,
    the clock read at least the stored [disputeUntil], both snapshots
    were found and a wallet account was configured; the transaction is
    [finalizeResolve] with the stored outcome and ranks, the evidence of
    the two snapshots and nonce 0. *)
Theorem finalize_sends_only_after_window (cfg : Config) (E : Env) (marketId : Z) (w : World) :
  let w' := snd (run E (finalizeResolveJob cfg marketId) w) in
  chainLog w' = chainLog w \/
  exists (r : Resolution.t) (disputeUntil t0Id t1Id : Z) (t0Snapshot t1Snapshot : Snapshot.t),
    resolutions w !! marketId = Some r /\
    truthyStr (Resolution.commitTx r) = true /\
    truthyStr (Resolution.finalizeTx r) = false /\
    Resolution.disputeUntil r = Some disputeUntil /\
    disputeUntil <= clock E (ticks w) /\
    Resolution.t0SnapshotId r = Some t0Id /\
    findSnapshot t0Id (snapshots w) = Some t0Snapshot /\
    Resolution.t1SnapshotId r = Some t1Id /\
    findSnapshot t1Id (snapshots w) = Some t1Snapshot /\
    hasAccount cfg = true /\
    chainLog w'
    = (chainLog w ++
       [FinalizeResolve marketId (Resolution.outcome r) (Resolution.t0Rank r)
          (Resolution.t1Rank r) (evidenceOf t0Snapshot) (evidenceOf t1Snapshot) 0])%list.
Proof. exact (finalizeResolveJob_calls cfg E marketId w). Qed.

Lemma commitResolveJob_frame (P : Platform) (cfg : Config) (E : Env) (marketId : Z)
    (w : World) :
  markets (snd (run E (commitResolveJob P cfg marketId) w)) = markets w /\
  snapshots (snd (run E (commitResolveJob P cfg marketId) w)) = snapshots w.
Proof.
  rewrite run_commitResolveJob. unfold commitResolveOutcome.
  destruct (findMarket marketId (markets w)) as [market|]; [|world; tauto].
  destruct (resolutions w !! marketId) as [r|]; [|world; tauto].
  destruct (negb (truthyNum (Resolution.outcome r))); [world; tauto|].
  destruct (truthyStr (Resolution.commitTx r)); [world; tauto|].
  destruct (snapshotOf (Resolution.t0SnapshotId r) w) as [t0Snapshot|]; [|world; tauto].
  destruct (snapshotOf (Resolution.t1SnapshotId r) w) as [t1Snapshot|]; [|world; tauto].
  destruct (rowCommitment P marketId r _ _) as [commitment|e]; [|world; tauto].
  pose proof (commitSending_facts cfg E marketId r
                (CommitResolve marketId commitment (evidenceOf t0Snapshot)) w)
    as (Hm & Hs & _).
  cbv zeta in Hm, Hs.
  destruct (commitSending cfg E marketId r _ w) as [[[txHash disputeUntil]|e] w'];
    world; tauto.
Qed.

Lemma app_one_neq {A} (l : list A) (x : A) : l <> (l ++ [x])%list.
Proof.
  intros H. apply (f_equal (@List.length A)) in H. rewrite List.length_app in H.
  cbn in H. lia.
Qed.

Lemma app_one_inj {A} (l : list A) (x y : A) : (l ++ [x])%list = (l ++ [y])%list -> x = y.
Proof. intros H. apply app_inv_head in H. injection H as ->. reflexivity. Qed.

(** X10. The finalize job reveals what the commit job committed to. If a
    run of the commit job sent a commitment, and a later run of the
    finalize job sends its transaction from a world in which the row of
    the market and the snapshots are as the commit job left them, then
    both transactions are for this market, and the commitment is
    [computeCommitment] of exactly the ranks, the outcome, the two
    evidence structures and the nonce that the finalize transaction
    carries. *)
Theorem finalize_reveals_the_commitment (P : Platform) (cfg cfg' : Config) (E E' : Env)
    (marketId : Z) (w w2 : World) (committedId revealedId : Z) (commitment : string)
    (evidence t0Evidence t1Evidence : Chain.Evidence) (outcome t0Rank t1Rank : option Z)
    (nonce : Z) :
  let w1 := snd (run E (commitResolveJob P cfg marketId) w) in
  chainLog w1 = (chainLog w ++ [CommitResolve committedId commitment evidence])%list ->
  snapshots w2 = snapshots w1 ->
  resolutions w2 !! marketId = resolutions w1 !! marketId ->
  chainLog (snd (run E' (finalizeResolveJob cfg' marketId) w2))
  = (chainLog w2 ++
     [FinalizeResolve revealedId outcome t0Rank t1Rank t0Evidence t1Evidence nonce])%list ->
  committedId = marketId /\ revealedId = marketId /\ evidence = t0Evidence /\
  exists o r0 r1 : Z,
    outcome = Some o /\ t0Rank = Some r0 /\ t1Rank = Some r1 /\
    Chain.computeCommitment P marketId r0 r1 o t0Evidence t1Evidence nonce = Ok commitment.
Proof.
  cbv zeta. intros Hcommit Hsnap Hrow Hfinal.
  destruct (commitResolveJob_calls P cfg E marketId w)
    as [Hsame | (r & t0Id & t1Id & t0Snapshot & t1Snapshot & v0 & v1 & vo & c &
                 Hr & _ & Hid0 & Hs0 & Hid1 & Hs1 & Hr0 & Hr1 & Ho & _ & _ & Hcc & Hlog)].
  { rewrite Hsame in Hcommit. destruct (app_one_neq _ _ Hcommit). }
  rewrite Hlog in Hcommit. apply app_one_inj in Hcommit. injection Hcommit as <- <- <-.
  assert (Hrow1 : exists r1 : Resolution.t,
            resolutions (snd (run E (commitResolveJob P cfg marketId) w)) !! marketId = Some r1 /\
            Resolution.t0SnapshotId r1 = Some t0Id /\ Resolution.t1SnapshotId r1 = Some t1Id /\
            Resolution.t0Rank r1 = Some v0 /\ Resolution.t1Rank r1 = Some v1 /\
            Resolution.outcome r1 = Some vo).
  { destruct (commitResolveJob_rows P cfg E w marketId)
      as [-> | (r' & txHash & committedAt & disputeUntil & Hr' & _ & ->)].
    - exists r. repeat split; assumption.
    - rewrite Hr in Hr'. injection Hr' as <-. eexists. split; [apply lookup_insert_eq|].
      cbn. rewrite Hid0, Hid1, Hr0, Hr1, Ho. repeat split. }
  destruct Hrow1 as (r1 & Hr1row & Hid0' & Hid1' & Hr0' & Hr1' & Ho').
  destruct (commitResolveJob_frame P cfg E marketId w) as [_ Hsnap1].
  destruct (finalizeResolveJob_calls cfg' E' marketId w2)
    as [Hsame | (r2 & disputeUntil & t0Id' & t1Id' & t0Snapshot' & t1Snapshot' &
                 Hr2 & _ & _ & _ & _ & Hid02 & Hs02 & Hid12 & Hs12 & _ & Hlog2)].
  { rewrite Hsame in Hfinal. destruct (app_one_neq _ _ Hfinal). }
  rewrite Hlog2 in Hfinal. apply app_one_inj in Hfinal.
  rewrite Hrow, Hr1row in Hr2. injection Hr2 as <-.
  rewrite Hid0' in Hid02. injection Hid02 as <-.
  rewrite Hid1' in Hid12. injection Hid12 as <-.
  rewrite Hsnap, Hsnap1, Hs0 in Hs02. injection Hs02 as <-.
  rewrite Hsnap, Hsnap1, Hs1 in Hs12. injection Hs12 as <-.
  injection Hfinal as <- <- <- <- <- <- <-.
  repeat split. exists vo, v0, v1. repeat split; assumption.
Qed.

Lemma finalize_reveals_the_commitment_witness :
  Chain.computeCommitment Fixture.platform 42 12 8 1
    (evidenceOf Fixture.snapshot0) (evidenceOf Fixture.snapshot1) 0
  = Ok ("0x" +:+ Hex.encode Fixture.keccak01).
Proof.
  pose (prepared := snd (run Fixture.env
                           (prepareResolveJob Fixture.platform Fixture.config
                              (mkPrepareData 42 "2024-01-15" "2024-01-22" None))
                           Fixture.world0)).
  pose (late := mkEnv (fun n => 20000 + 1000 * Z.of_nat n) (http Fixture.env)
                  (chainWrite Fixture.env) (chainDisputeWindow Fixture.env)).
  destruct (finalize_reveals_the_commitment Fixture.platform Fixture.config Fixture.config
              Fixture.env late 42 prepared
              (snd (run Fixture.env (commitResolveJob Fixture.platform Fixture.config 42)
                      prepared))
              42 42 ("0x" +:+ Hex.encode Fixture.keccak01)
              (evidenceOf Fixture.snapshot0)
              (evidenceOf Fixture.snapshot0) (evidenceOf Fixture.snapshot1)
              (Some 1) (Some 12) (Some 8) 0)
    as (_ & _ & _ & o & r0 & r1 & Ho & Hr0 & Hr1 & Hcc);
    [vm_compute; reflexivity .. |].
  injection Ho as <-. injection Hr0 as <-. injection Hr1 as <-. exact Hcc.
Defined.

(** ** What the jobs leave alone *)

Lemma finalizeResolveJob_frame (cfg : Config) (E : Env) (marketId : Z) (w : World) :
  markets (snd (run E (finalizeResolveJob cfg marketId) w)) = markets w /\
  snapshots (snd (run E (finalizeResolveJob cfg marketId) w)) = snapshots w.
Proof.
  rewrite run_finalizeResolveJob. unfold finalizeResolveOutcome.
  destruct (findMarket marketId (markets w)) as [market|]; [|world; tauto].
  destruct (resolutions w !! marketId) as [r|]; [|world; tauto].
  destruct (Resolution.disputeUntil r) as [disputeUntil|]; [|world; tauto].
  destruct (negb (truthyStr (Resolution.commitTx r))); [world; tauto|].
  destruct (truthyStr (Resolution.finalizeTx r)); [world; tauto|].
  destruct (clock E (ticks w) <? disputeUntil); [world; tauto|].
  destruct (snapshotOf (Resolution.t0SnapshotId r) w) as [t0Snapshot|]; [|world; tauto].
  destruct (snapshotOf (Resolution.t1SnapshotId r) w) as [t1Snapshot|]; [|world; tauto].
  pose proof (finalizeSending_facts cfg E marketId r
                (finalizeCall marketId r t0Snapshot t1Snapshot) (tick w))
    as (Hm & Hs & _).
  cbv zeta in Hm, Hs.
  destruct (finalizeSending cfg E marketId r _ (tick w)) as [[txHash|e] w'];
    world; tauto.
Qed.

(** The patch of the prepare job names its five fields. *)
Lemma preparePlan_names_fields (P : Platform) (E : Env) (data : PrepareResolveJobData)
    (ms : list Market.t) (ss : list Snapshot.t) (key : Z) (patch : Resolution.t)
    (result : PrepareResult) :
  preparePlan P E data ms ss = Ok (key, patch, result) ->
  Resolution.namesNoField patch = false.
Proof.
  unfold preparePlan.
  destruct (findMarket (pMarketId data) ms) as [market|]; [|discriminate].
  destruct (findSnapshotByDate (t0Date data) _ _) as [t0Snapshot|]; [|discriminate].
  destruct (findSnapshotByDate (t1Date data) _ _) as [t1Snapshot|]; [|discriminate].
  destruct (verified P E (Snapshot.jsonUrl t0Snapshot) _) as [t0Buffer|]; [|discriminate].
  destruct (verified P E (Snapshot.jsonUrl t1Snapshot) _) as [t1Buffer|]; [|discriminate].
  cbn [exc_bind].
  destruct (JSON_parse P t0Buffer) as [t0Data|]; [|discriminate].
  destruct (JSON_parse P t1Buffer) as [t1Data|]; [|discriminate].
  cbn [exc_bind].
  destruct (exc_and _ _) as [[]|]; try discriminate.
  cbn [exc_bind].
  destruct (Json.asSnapshot t0Data) as [t0Typed|]; [|discriminate].
  destruct (Json.asSnapshot t1Data) as [t1Typed|]; [|discriminate].
  intros [= _ <- _]. reflexivity.
Qed.

Lemma run_prepareResolveJob (P : Platform) (cfg : Config) (E : Env)
    (data : PrepareResolveJobData) (w : World) :
  run E (prepareResolveJob P cfg data) w
  = caught cfg E "prepareResolve" (pMarketId data)
      match preparePlan P E data (markets w) (snapshots w) with
      | Throw e => (Throw e, w)
      | Ok (key, patch, result) =>
          if isSmallint (Resolution.t0Rank patch) && isSmallint (Resolution.t1Rank patch)
             && isSmallint (Resolution.outcome patch)
             && bool_decide (is_Some (findMarket key (markets w)))
             && references (Resolution.t0SnapshotId patch) (snapshots w)
             && references (Resolution.t1SnapshotId patch) (snapshots w)
          then (Ok result,
                setResolutions (<[key := upserted key patch w]> (resolutions w)) w)
          else (Throw (DatabaseError "constraint"), w)
      end.
Proof.
  unfold prepareResolveJob. rewrite run_job, prepareResolveBody_run.
  destruct (preparePlan P E data (markets w) (snapshots w)) as [[[key patch] result]|e] eqn:Hplan;
    [|reflexivity].
  unfold upsert, upserted. rewrite (preparePlan_names_fields _ _ _ _ _ _ _ _ Hplan).
  destruct (_ && _); reflexivity.
Qed.

Lemma preparePlan_key (P : Platform) (E : Env) (data : PrepareResolveJobData)
    (ms : list Market.t) (ss : list Snapshot.t) (key : Z) (patch : Resolution.t)
    (result : PrepareResult) :
  preparePlan P E data ms ss = Ok (key, patch, result) -> key = pMarketId data.
Proof.
  unfold preparePlan.
  destruct (findMarket (pMarketId data) ms) as [market|] eqn:Hm; [|discriminate].
  pose proof (findMarket_marketId _ _ _ Hm) as Hkey.
  destruct (findSnapshotByDate (t0Date data) _ _) as [t0Snapshot|]; [|discriminate].
  destruct (findSnapshotByDate (t1Date data) _ _) as [t1Snapshot|]; [|discriminate].
  destruct (verified P E (Snapshot.jsonUrl t0Snapshot) _) as [t0Buffer|]; [|discriminate].
  destruct (verified P E (Snapshot.jsonUrl t1Snapshot) _) as [t1Buffer|]; [|discriminate].
  cbn [exc_bind].
  destruct (JSON_parse P t0Buffer) as [t0Data|]; [|discriminate].
  destruct (JSON_parse P t1Buffer) as [t1Data|]; [|discriminate].
  cbn [exc_bind].
  destruct (exc_and _ _) as [[]|]; try discriminate.
  cbn [exc_bind].
  destruct (Json.asSnapshot t0Data) as [t0Typed|]; [|discriminate].
  destruct (Json.asSnapshot t1Data) as [t1Typed|]; [|discriminate].
  intros [= <- _ _]. exact Hkey.
Qed.

(** X11. No job changes the table of markets or the table of snapshots,
    and no job changes the resolution of another market than its own.
    The prepare job sends nothing to the chain. *)
Theorem jobs_touch_only_their_row (P : Platform) (cfg : Config) (E : Env) (w : World) :
  (forall data : PrepareResolveJobData,
     let w' := snd (run E (prepareResolveJob P cfg data) w) in
     markets w' = markets w /\ snapshots w' = snapshots w /\ chainLog w' = chainLog w /\
     forall other : Z, other <> pMarketId data ->
       resolutions w' !! other = resolutions w !! other) /\
  (forall marketId : Z,
     let w' := snd (run E (commitResolveJob P cfg marketId) w) in
     markets w' = markets w /\ snapshots w' = snapshots w /\
     forall other : Z, other <> marketId ->
       resolutions w' !! other = resolutions w !! other) /\
  (forall marketId : Z,
     let w' := snd (run E (finalizeResolveJob cfg marketId) w) in
     markets w' = markets w /\ snapshots w' = snapshots w /\
     forall other : Z, other <> marketId ->
       resolutions w' !! other = resolutions w !! other).
Proof.
  split; [|split].
  - intros data. cbv zeta. rewrite run_prepareResolveJob.
    destruct (preparePlan P E data (markets w) (snapshots w))
      as [[[key patch] result]|e] eqn:Hplan; [|world; tauto].
    apply preparePlan_key in Hplan as ->.
    destruct (_ && _); world; [|tauto].
    repeat split. intros other Hother. apply lookup_insert_ne. congruence.
  - intros marketId. cbv zeta.
    destruct (commitResolveJob_frame P cfg E marketId w) as [-> ->].
    repeat split. intros other Hother.
    destruct (commitResolveJob_rows P cfg E w marketId)
      as [-> | (r & txHash & committedAt & disputeUntil & _ & _ & ->)]; [reflexivity|].
    apply lookup_insert_ne. congruence.
  - intros marketId. cbv zeta.
    destruct (finalizeResolveJob_frame cfg E marketId w) as [-> ->].
    repeat split. intros other Hother.
    destruct (finalizeResolveJob_rows cfg E w marketId)
      as [-> | (r & txHash & finalizedAt & _ & _ & ->)]; [reflexivity|].
    apply lookup_insert_ne. congruence.
Qed.

(** ** Alerts *)

Lemma failureAlerted_reported (cfg : Config) (E : Env) (jobName : string) (marketId : Z)
    (e : Error) (w w0 : World) :
  resolutions w0 = resolutions w -> slackOutbox w0 = slackOutbox w ->
  consoleWarnings w0 = consoleWarnings w ->
  resolutions (failureAlerted cfg E jobName marketId e w0) = resolutions w /\
  exists timestamp : Z,
    alertedOnce cfg ("❌ Job failed: " +:+ jobName) (JobFailure marketId e timestamp)
      w (failureAlerted cfg E jobName marketId e w0).
Proof.
  intros Hr Hs Hc. split; [world; exact Hr|].
  exists (clock E (ticks w0)). unfold alertedOnce. world.
  destruct (truthyStr (SLACK_WEBHOOK_URL cfg)); rewrite Hs, Hc; split; reflexivity.
Qed.

(** A commit or finalize path that threw has written no row and raised
    no alert. *)
Lemma commitResolveOutcome_thrown (P : Platform) (cfg : Config) (E : Env) (marketId : Z)
    (w w0 : World) (e : Error) :
  commitResolveOutcome P cfg E marketId w = (Throw e, w0) ->
  resolutions w0 = resolutions w /\ slackOutbox w0 = slackOutbox w /\
  consoleWarnings w0 = consoleWarnings w.
Proof.
  unfold commitResolveOutcome.
  destruct (findMarket marketId (markets w)) as [market|]; [|intros [= _ <-]; tauto].
  destruct (resolutions w !! marketId) as [r|]; [|intros [= _ <-]; tauto].
  destruct (negb (truthyNum (Resolution.outcome r))); [intros [= _ <-]; tauto|].
  destruct (truthyStr (Resolution.commitTx r)); [discriminate|].
  destruct (snapshotOf (Resolution.t0SnapshotId r) w) as [t0Snapshot|];
    [|intros [= _ <-]; tauto].
  destruct (snapshotOf (Resolution.t1SnapshotId r) w) as [t1Snapshot|];
    [|intros [= _ <-]; tauto].
  destruct (rowCommitment P marketId r _ _) as [commitment|e']; [|intros [= _ <-]; tauto].
  pose proof (commitSending_facts cfg E marketId r
                (CommitResolve marketId commitment (evidenceOf t0Snapshot)) w)
    as (_ & _ & Hs & Hc & _ & Hres).
  cbv zeta in Hs, Hc, Hres.
  destruct (commitSending cfg E marketId r _ w) as [[[txHash disputeUntil]|e'] w'];
    [discriminate|].
  intros [= _ <-]. cbn [fst snd] in *. tauto.
Qed.

Lemma finalizeResolveOutcome_thrown (cfg : Config) (E : Env) (marketId : Z)
    (w w0 : World) (e : Error) :
  finalizeResolveOutcome cfg E marketId w = (Throw e, w0) ->
  resolutions w0 = resolutions w /\ slackOutbox w0 = slackOutbox w /\
  consoleWarnings w0 = consoleWarnings w.
Proof.
  unfold finalizeResolveOutcome.
  destruct (findMarket marketId (markets w)) as [market|]; [|intros [= _ <-]; tauto].
  destruct (resolutions w !! marketId) as [r|]; [|intros [= _ <-]; tauto].
  destruct (Resolution.disputeUntil r) as [disputeUntil|]; [|intros [= _ <-]; tauto].
  destruct (negb (truthyStr (Resolution.commitTx r))); [intros [= _ <-]; tauto|].
  destruct (truthyStr (Resolution.finalizeTx r)); [discriminate|].
  destruct (clock E (ticks w) <? disputeUntil); [intros [= _ <-]; cbn; tauto|].
  destruct (snapshotOf (Resolution.t0SnapshotId r) w) as [t0Snapshot|];
    [|intros [= _ <-]; cbn; tauto].
  destruct (snapshotOf (Resolution.t1SnapshotId r) w) as [t1Snapshot|];
    [|intros [= _ <-]; cbn; tauto].
  pose proof (finalizeSending_facts cfg E marketId r
                (finalizeCall marketId r t0Snapshot t1Snapshot) (tick w))
    as (_ & _ & Hs & Hc & _ & Hres).
  cbv zeta in Hs, Hc, Hres.
  destruct (finalizeSending cfg E marketId r _ (tick w)) as [[txHash|e'] w'];
    [discriminate|].
  intros [= _ <-]. cbn [fst snd] in *. tauto.
Qed.

Lemma caught_thrown {A} (cfg : Config) (E : Env) (jobName : string) (marketId : Z)
    (outcome : Exc A * World) (e : Error) (w' : World) :
  caught cfg E jobName marketId outcome = (Throw e, w') ->
  exists w0 : World,
    outcome = (Throw e, w0) /\ w' = failureAlerted cfg E jobName marketId e w0.
Proof.
  destruct outcome as [[a|e0] w0]; cbn [caught]; [discriminate|].
  intros [= <- <-]. exists w0. split; reflexivity.
Qed.

(** X12. A job that fails, for whatever reason, has written nothing to
    the table of resolutions, and has reported the failure exactly once
    before it rethrows: one alert with the message of [alertJobFailure],
    the market and the error that is rethrown, to the webhook when one is
    configured and as a warning on the console otherwise. *)
Theorem failed_job_alerts_once (P : Platform) (cfg : Config) (E : Env) (w w' : World)
    (e : Error) :
  (forall data : PrepareResolveJobData,
     run E (prepareResolveJob P cfg data) w = (Throw e, w') ->
     resolutions w' = resolutions w /\
     exists timestamp : Z,
       alertedOnce cfg "❌ Job failed: prepareResolve"
         (JobFailure (pMarketId data) e timestamp) w w') /\
  (forall marketId : Z,
     run E (commitResolveJob P cfg marketId) w = (Throw e, w') ->
     resolutions w' = resolutions w /\
     exists timestamp : Z,
       alertedOnce cfg "❌ Job failed: commitResolve" (JobFailure marketId e timestamp) w w') /\
  (forall marketId : Z,
     run E (finalizeResolveJob cfg marketId) w = (Throw e, w') ->
     resolutions w' = resolutions w /\
     exists timestamp : Z,
       alertedOnce cfg "❌ Job failed: finalizeResolve" (JobFailure marketId e timestamp) w w').
Proof.
  split; [|split].
  - intros data. rewrite run_prepareResolveJob. intros H.
    apply caught_thrown in H as (w0 & H & ->).
    apply (failureAlerted_reported cfg E "prepareResolve");
      (destruct (preparePlan P E data (markets w) (snapshots w)) as [[[key patch] result]|e'];
       [destruct (_ && _); [discriminate|] |]; injection H as _ <-; reflexivity).
  - intros marketId. rewrite run_commitResolveJob. intros H.
    apply caught_thrown in H as (w0 & H & ->).
    apply commitResolveOutcome_thrown in H as (Hr & Hs & Hc).
    apply (failureAlerted_reported cfg E "commitResolve"); assumption.
  - intros marketId. rewrite run_finalizeResolveJob. intros H.
    apply caught_thrown in H as (w0 & H & ->).
    apply finalizeResolveOutcome_thrown in H as (Hr & Hs & Hc).
    apply (failureAlerted_reported cfg E "finalizeResolve"); assumption.
Qed.

Lemma failed_job_alerts_once_witness :
  resolutions (snd (run Fixture.env (finalizeResolveJob Fixture.config 42) Fixture.worldOpen))
  = resolutions Fixture.worldOpen /\
  exists timestamp : Z,
    alertedOnce Fixture.config "❌ Job failed: finalizeResolve"
      (JobFailure 42 (DisputeWindowActive 10000) timestamp) Fixture.worldOpen
      (snd (run Fixture.env (finalizeResolveJob Fixture.config 42) Fixture.worldOpen)).
Proof.
  apply (proj2 (proj2 (failed_job_alerts_once Fixture.platform Fixture.config Fixture.env
                         Fixture.worldOpen
                         (snd (run Fixture.env (finalizeResolveJob Fixture.config 42)
                                 Fixture.worldOpen))
                         (DisputeWindowActive 10000))) 42).
  vm_compute. reflexivity.
Defined.

(** A commit path that returned: the row was committed already, or the
    sending went through and one success alert followed. *)
Lemma commitResolveOutcome_returned (P : Platform) (cfg : Config) (E : Env) (marketId : Z)
    (w w' : World) (result : CommitResult) :
  commitResolveOutcome P cfg E marketId w = (Ok result, w') ->
  exists r : Resolution.t,
    resolutions w !! marketId = Some r /\ truthyNum (Resolution.outcome r) = true /\
    ((truthyStr (Resolution.commitTx r) = true /\
      result = AlreadyCommitted marketId (default "" (Resolution.commitTx r)) /\ w' = w) \/
     (truthyStr (Resolution.commitTx r) = false /\
      exists (call : ContractCall) (txHash : string) (disputeUntil : Z) (ws : World),
        commitSending cfg E marketId r call w = (Ok (txHash, disputeUntil), ws) /\
        result = Committed marketId txHash disputeUntil (default 0 (Resolution.outcome r)) /\
        w' = notified cfg
               ("✅ Resolution " +:+ "commit" +:+ " successful for market " +:+ decimal marketId)
               (Some (ResolutionSuccess marketId
                        (if default 0 (Resolution.outcome r) =? 1 then "YES" else "NO")
                        "commit" (clock E (ticks ws))))
               (tick ws))).
Proof.
  unfold commitResolveOutcome.
  destruct (findMarket marketId (markets w)) as [market|]; [|discriminate].
  destruct (resolutions w !! marketId) as [r|]; [|discriminate].
  destruct (truthyNum (Resolution.outcome r)) eqn:Ho; cbn [negb]; [|discriminate].
  destruct (truthyStr (Resolution.commitTx r)) eqn:Hc.
  { intros [= <- <-]. exists r. split; [reflexivity|]. split; [exact Ho|].
    left. repeat split. exact Hc. }
  destruct (snapshotOf (Resolution.t0SnapshotId r) w) as [t0Snapshot|]; [|discriminate].
  destruct (snapshotOf (Resolution.t1SnapshotId r) w) as [t1Snapshot|]; [|discriminate].
  destruct (rowCommitment P marketId r _ _) as [commitment|e']; [|discriminate].
  destruct (commitSending cfg E marketId r _ w) as [[[txHash disputeUntil]|e'] ws] eqn:Hsend;
    [|discriminate].
  intros [= <- <-]. exists r. split; [reflexivity|]. split; [exact Ho|].
  right. split; [exact Hc|].
  eexists _, txHash, disputeUntil, ws. split; [exact Hsend|]. split; reflexivity.
Qed.

Lemma finalizeResolveOutcome_returned (cfg : Config) (E : Env) (marketId : Z)
    (w w' : World) (result : FinalizeResult) :
  finalizeResolveOutcome cfg E marketId w = (Ok result, w') ->
  exists (r : Resolution.t) (disputeUntil : Z),
    resolutions w !! marketId = Some r /\ truthyStr (Resolution.commitTx r) = true /\
    Resolution.disputeUntil r = Some disputeUntil /\
    ((truthyStr (Resolution.finalizeTx r) = true /\
      result = AlreadyFinalized marketId (default "" (Resolution.finalizeTx r)) /\ w' = w) \/
     (truthyStr (Resolution.finalizeTx r) = false /\
      disputeUntil <= clock E (ticks w) /\
      exists (call : ContractCall) (txHash : string) (ws : World),
        finalizeSending cfg E marketId r call (tick w) = (Ok txHash, ws) /\
        result = Finalized marketId txHash (Resolution.outcome r) /\
        w' = notified cfg
               ("✅ Resolution " +:+ "finalize" +:+ " successful for market "
                +:+ decimal marketId)
               (Some (ResolutionSuccess marketId
                        (if default 0 (Resolution.outcome r) =? 1 then "YES" else "NO")
                        "finalize" (clock E (ticks ws))))
               (tick ws))).
Proof.
  unfold finalizeResolveOutcome.
  destruct (findMarket marketId (markets w)) as [market|]; [|discriminate].
  destruct (resolutions w !! marketId) as [r|]; [|discriminate].
  destruct (Resolution.disputeUntil r) as [disputeUntil|] eqn:Hd; [|discriminate].
  destruct (truthyStr (Resolution.commitTx r)) eqn:Hc; cbn [negb]; [|discriminate].
  destruct (truthyStr (Resolution.finalizeTx r)) eqn:Hf.
  { intros [= <- <-]. exists r, disputeUntil. do 3 (split; [first [reflexivity | assumption]|]).
    left. repeat split. exact Hf. }
  destruct (Z.ltb_spec (clock E (ticks w)) disputeUntil) as [|Hnow]; [discriminate|].
  destruct (snapshotOf (Resolution.t0SnapshotId r) w) as [t0Snapshot|]; [|discriminate].
  destruct (snapshotOf (Resolution.t1SnapshotId r) w) as [t1Snapshot|]; [|discriminate].
  destruct (finalizeSending cfg E marketId r _ (tick w)) as [[txHash|e'] ws] eqn:Hsend;
    [|discriminate].
  intros [= <- <-]. exists r, disputeUntil. do 3 (split; [first [reflexivity | assumption]|]).
  right. split; [exact Hf|]. split; [exact Hnow|].
  eexists _, txHash, ws. split; [exact Hsend|]. split; reflexivity.
Qed.

Lemma caught_returned {A} (cfg : Config) (E : Env) (jobName : string) (marketId : Z)
    (outcome : Exc A * World) (a : A) (w' : World) :
  caught cfg E jobName marketId outcome = (Ok a, w') -> outcome = (Ok a, w').
Proof. destruct outcome as [[a'|e] w0]; cbn [caught]; [auto | discriminate]. Qed.

Lemma notified_alertedOnce (cfg : Config) (message : string) (details : SlackDetails)
    (w ws : World) :
  slackOutbox ws = slackOutbox w -> consoleWarnings ws = consoleWarnings w ->
  alertedOnce cfg message details w (notified cfg message (Some details) (tick ws)).
Proof.
  intros Hs Hc. unfold alertedOnce. world.
  destruct (truthyStr (SLACK_WEBHOOK_URL cfg)); rewrite Hs, Hc; split; reflexivity.
Qed.

(** X13. What a job that returns has reported. The prepare job reports
    nothing. The commit job and the finalize job report nothing, and
    change nothing at all, when they find their transaction reference in
    the row; when they have sent and recorded their transaction they
    report exactly one success, with the stage, the market, and the text
    [YES] when the stored outcome is 1 and [NO] for every other value. *)
Theorem returned_job_alerts (P : Platform) (cfg : Config) (E : Env) (w w' : World) :
  (forall (data : PrepareResolveJobData) (result : PrepareResult),
     run E (prepareResolveJob P cfg data) w = (Ok result, w') ->
     slackOutbox w' = slackOutbox w /\ consoleWarnings w' = consoleWarnings w) /\
  (forall (marketId id : Z) (txHash : string),
     run E (commitResolveJob P cfg marketId) w = (Ok (AlreadyCommitted id txHash), w') ->
     w' = w) /\
  (forall (marketId id : Z) (txHash : string) (disputeUntil outcome : Z),
     run E (commitResolveJob P cfg marketId) w
     = (Ok (Committed id txHash disputeUntil outcome), w') ->
     exists timestamp : Z,
       alertedOnce cfg
         ("✅ Resolution commit successful for market " +:+ decimal marketId)
         (ResolutionSuccess marketId (if outcome =? 1 then "YES" else "NO")
            "commit" timestamp) w w') /\
  (forall (marketId id : Z) (txHash : string),
     run E (finalizeResolveJob cfg marketId) w = (Ok (AlreadyFinalized id txHash), w') ->
     w' = w) /\
  (forall (marketId id : Z) (txHash : string) (outcome : option Z),
     run E (finalizeResolveJob cfg marketId) w = (Ok (Finalized id txHash outcome), w') ->
     exists timestamp : Z,
       alertedOnce cfg
         ("✅ Resolution finalize successful for market " +:+ decimal marketId)
         (ResolutionSuccess marketId (if default 0 outcome =? 1 then "YES" else "NO")
            "finalize" timestamp) w w').
Proof.
  split; [|split; [|split; [|split]]].
  - intros data result. rewrite run_prepareResolveJob. intros H.
    apply caught_returned in H.
    destruct (preparePlan P E data (markets w) (snapshots w)) as [[[key patch] res]|e];
      [|discriminate].
    destruct (_ && _); [|discriminate]. injection H as _ <-. split; reflexivity.
  - intros marketId id txHash. rewrite run_commitResolveJob. intros H.
    apply caught_returned, commitResolveOutcome_returned in H
      as (r & _ & _ & [(_ & _ & ->) | (_ & call & tx & du & ws & _ & [=] & _)]).
    reflexivity.
  - intros marketId id txHash disputeUntil outcome. rewrite run_commitResolveJob. intros H.
    apply caught_returned, commitResolveOutcome_returned in H
      as (r & _ & _ & [(_ & [=] & _) | (_ & call & tx & du & ws & Hsend & [= -> -> -> ->] & ->)]).
    pose proof (commitSending_facts cfg E marketId r call w) as (_ & _ & Hs & Hc & _).
    cbv zeta in Hs, Hc. rewrite Hsend in Hs, Hc. cbn [snd] in Hs, Hc.
    eexists. apply notified_alertedOnce; assumption.
  - intros marketId id txHash. rewrite run_finalizeResolveJob. intros H.
    apply caught_returned, finalizeResolveOutcome_returned in H
      as (r & du & _ & _ & _ & [(_ & _ & ->) | (_ & _ & call & tx & ws & _ & [=] & _)]).
    reflexivity.
  - intros marketId id txHash outcome. rewrite run_finalizeResolveJob. intros H.
    apply caught_returned, finalizeResolveOutcome_returned in H
      as (r & du & _ & _ & _ &
          [(_ & [=] & _) | (_ & _ & call & tx & ws & Hsend & [= -> -> ->] & ->)]).
    pose proof (finalizeSending_facts cfg E marketId r call (tick w)) as (_ & _ & Hs & Hc & _).
    cbv zeta in Hs, Hc. rewrite Hsend in Hs, Hc. cbn [snd] in Hs, Hc.
    eexists. apply notified_alertedOnce; assumption.
Qed.

Lemma returned_job_alerts_witness :
  exists timestamp : Z,
    alertedOnce Fixture.config
      ("✅ Resolution finalize successful for market " +:+ decimal 42)
      (ResolutionSuccess 42 "YES" "finalize" timestamp) Fixture.worldClosed
      (snd (run Fixture.env (finalizeResolveJob Fixture.config 42) Fixture.worldClosed)).
Proof.
  apply (proj2 (proj2 (proj2 (proj2
           (returned_job_alerts Fixture.platform Fixture.config Fixture.env
              Fixture.worldClosed
              (snd (run Fixture.env (finalizeResolveJob Fixture.config 42)
                      Fixture.worldClosed))))))
           42 42 "0xf001" (Some 1)).
  vm_compute. reflexivity.
Defined.

(** ** What each path writes *)

Lemma commitSending_update (cfg : Config) (E : Env) (marketId : Z) (r : Resolution.t)
    (call : ContractCall) (w : World) :
  resolutions (snd (commitSending cfg E marketId r call w)) = resolutions w \/
  exists (txHash : string) (committedAt disputeUntil : Z),
    resolutions (snd (commitSending cfg E marketId r call w))
    = <[marketId := Resolution.merge (commitPatch txHash committedAt disputeUntil) r]>
        (resolutions w).
Proof.
  pose proof (commitSending_facts cfg E marketId r call w) as (_ & _ & _ & _ & _ & H).
  cbv zeta in H.
  destruct (fst (commitSending cfg E marketId r call w)) as [[txHash disputeUntil]|e];
    [right | left; exact H].
  destruct H as (_ & _ & _ & _ & _ & ->). eauto.
Qed.

Lemma finalizeSending_update (cfg : Config) (E : Env) (marketId : Z) (r : Resolution.t)
    (call : ContractCall) (w : World) :
  resolutions (snd (finalizeSending cfg E marketId r call w)) = resolutions w \/
  exists (txHash : string) (finalizedAt : Z),
    resolutions (snd (finalizeSending cfg E marketId r call w))
    = <[marketId := Resolution.merge (finalizePatch txHash finalizedAt) r]> (resolutions w).
Proof.
  pose proof (finalizeSending_facts cfg E marketId r call w) as (_ & _ & _ & _ & _ & H).
  cbv zeta in H.
  destruct (fst (finalizeSending cfg E marketId r call w)) as [txHash|e];
    [right | left; exact H].
  destruct H as (_ & _ & _ & _ & ->). eauto.
Qed.

Lemma after_written (P : Platform) (cfg : Config) (E : Env) (path : Path) (w : World) :
  Written (resolutions w) (resolutions (after P cfg E path w)).
Proof.
  destruct path as [data|marketId|marketId|id body|id|id]; cbn [after].
  - destruct (prepareResolveJob_rows P cfg E data w)
      as [-> | (t0Id & t1Id & t0Rank & t1Rank & ->)]; [constructor|].
    exact (WrittenPrepare (resolutions w) (pMarketId data) (Some t0Id) (Some t1Id)
             t0Rank t1Rank).
  - rewrite run_commitResolveJob. unfold commitResolveOutcome.
    destruct (findMarket marketId (markets w)) as [market|]; [|world; constructor].
    destruct (resolutions w !! marketId) as [r|] eqn:Hr; [|world; constructor].
    destruct (truthyNum (Resolution.outcome r)) eqn:Ho; cbn [negb]; [|world; constructor].
    destruct (truthyStr (Resolution.commitTx r)) eqn:Hc; [world; constructor|].
    destruct (snapshotOf (Resolution.t0SnapshotId r) w) as [t0Snapshot|];
      [|world; constructor].
    destruct (snapshotOf (Resolution.t1SnapshotId r) w) as [t1Snapshot|];
      [|world; constructor].
    destruct (rowCommitment P marketId r _ _) as [commitment|e]; [|world; constructor].
    pose proof (commitSending_update cfg E marketId r
                  (CommitResolve marketId commitment (evidenceOf t0Snapshot)) w) as Hup.
    destruct (commitSending cfg E marketId r _ w) as [[[txHash disputeUntil]|e] w'];
      world; cbn [snd] in Hup;
      (destruct Hup as [-> | (tx & ca & du & ->)];
       [constructor | apply WrittenCommit; assumption]).
  - rewrite run_finalizeResolveJob. unfold finalizeResolveOutcome.
    destruct (findMarket marketId (markets w)) as [market|]; [|world; constructor].
    destruct (resolutions w !! marketId) as [r|] eqn:Hr; [|world; constructor].
    destruct (Resolution.disputeUntil r) as [disputeUntil|] eqn:Hd; [|world; constructor].
    destruct (truthyStr (Resolution.commitTx r)) eqn:Hc; cbn [negb]; [|world; constructor].
    destruct (truthyStr (Resolution.finalizeTx r)) eqn:Hf; [world; constructor|].
    destruct (clock E (ticks w) <? disputeUntil); [world; constructor|].
    destruct (snapshotOf (Resolution.t0SnapshotId r) w) as [t0Snapshot|];
      [|world; constructor].
    destruct (snapshotOf (Resolution.t1SnapshotId r) w) as [t1Snapshot|];
      [|world; constructor].
    pose proof (finalizeSending_update cfg E marketId r
                  (finalizeCall marketId r t0Snapshot t1Snapshot) (tick w)) as Hup.
    destruct (finalizeSending cfg E marketId r _ (tick w)) as [[txHash|e] w'];
      world; cbn [snd resolutions tick] in Hup;
      (destruct Hup as [-> | (tx & fa & ->)];
       [constructor | apply WrittenFinalize; eauto]).
  - unfold prepareResolveRoute. cbn [run handle].
    destruct (findMarket id (markets w)) as [market|] eqn:Hm; [|constructor].
    pose proof (findMarket_marketId _ _ _ Hm) as Hkey.
    rewrite run_tryReply, run_bind, run_fetchAndVerifyHash.
    destruct (verified P E (t0Url body) (t0Sha body)) as [t0Buffer|]; [|constructor].
    rewrite run_bind, run_fetchAndVerifyHash.
    destruct (verified P E (t1Url body) (t1Sha body)) as [t1Buffer|]; [|constructor].
    unfold lift. cbn [bind].
    destruct (JSON_parse P t0Buffer) as [t0Data|]; [|constructor].
    destruct (JSON_parse P t1Buffer) as [t1Data|]; [|constructor].
    cbn [bind].
    destruct (exc_and _ _) as [valid|]; [|constructor].
    cbn [bind].
    destruct valid, (Json.asSnapshot t0Data) as [t0Typed|],
      (Json.asSnapshot t1Data) as [t1Typed|]; try constructor.
    destruct (Chain.computeCommitment P _ _ _ _ _ _ _) as [commitment|]; [|constructor].
    cbn [bind]. unfold upsertResolution, attempt. cbn [bind run handle]. rewrite Hkey.
    destruct (upsert id _ w) as [[[]|e] w1] eqn:Hup.
    + rewrite (upsert_ok _ _ _ _ Hup). cbn [run snd resolutions setResolutions].
      exact (WrittenPrepare (resolutions w) id None None _ _).
    + revert Hup. unfold upsert. destruct (_ && _); [discriminate|].
      intros [= _ <-]. constructor.
  - rewrite run_commitRoute. unfold commitRouteOutcome.
    destruct (findMarket id (markets w)) as [market|]; [|constructor].
    destruct (resolutions w !! id) as [r|] eqn:Hr; [|constructor].
    destruct (truthyNum (Resolution.outcome r)) eqn:Ho; cbn [negb]; [|constructor].
    destruct (truthyStr (Resolution.commitTx r)) eqn:Hc; [constructor|].
    destruct (rowCommitment P id r _ _) as [commitment|e]; [|constructor].
    pose proof (commitSending_update cfg E id r
                  (CommitResolve id commitment emptyEvidence) w) as Hup.
    destruct (commitSending cfg E id r _ w) as [[[txHash disputeUntil]|e] w'];
      cbn [snd] in *;
      (destruct Hup as [-> | (tx & ca & du & ->)];
       [constructor | apply WrittenCommit; assumption]).
  - rewrite run_finalizeRoute. unfold finalizeRouteOutcome.
    destruct (findMarket id (markets w)) as [market|]; [|constructor].
    destruct (resolutions w !! id) as [r|] eqn:Hr; [|constructor].
    destruct (Resolution.disputeUntil r) as [disputeUntil|] eqn:Hd; [|constructor].
    destruct (truthyStr (Resolution.commitTx r)) eqn:Hc; cbn [negb]; [|constructor].
    destruct (truthyStr (Resolution.finalizeTx r)) eqn:Hf; [constructor|].
    destruct (clock E (ticks w) <? disputeUntil); [constructor|].
    pose proof (finalizeSending_update cfg E id r
                  (FinalizeResolve id (Resolution.outcome r) (Resolution.t0Rank r)
                     (Resolution.t1Rank r) emptyEvidence emptyEvidence 0) (tick w)) as Hup.
    destruct (finalizeSending cfg E id r _ (tick w)) as [[txHash|e] w'];
      cbn [snd resolutions tick] in *;
      (destruct Hup as [-> | (tx & fa & ->)];
       [constructor | apply WrittenFinalize; eauto]).
Qed.

Lemma everyRow_insert (inv : Resolution.t -> Prop) (rows : gmap Z Resolution.t)
    (marketId : Z) (r : Resolution.t) :
  everyRow inv rows -> inv r -> everyRow inv (<[marketId := r]> rows).
Proof.
  intros Hrows Hr m r'. rewrite lookup_insert. case_decide as Hm.
  - intros [= <-]. exact Hr.
  - apply Hrows.
Qed.

Lemma computeOutcome_truthy (t0Rank t1Rank : Z) :
  truthyNum (Some (Rank.computeOutcome t0Rank t1Rank)) = true.
Proof. unfold truthyNum, Rank.computeOutcome. destruct (t1Rank <? t0Rank); reflexivity. Qed.

Lemma written_outcomeOfRanks (rows rows' : gmap Z Resolution.t) :
  Written rows rows' -> everyRow outcomeOfRanks rows -> everyRow outcomeOfRanks rows'.
Proof.
  intros [ | m i0 i1 a b | m r tx ca du Hr _ _ | m r tx fa Hr _ _ _] Hrows;
    [exact Hrows | | |]; apply everyRow_insert; try exact Hrows.
  - cbv zeta. destruct (rows !! m) as [old|]; unfold outcomeOfRanks; cbn;
      intros o [= <-]; exists a, b; repeat split.
  - pose proof (Hrows m r Hr) as Hinv. unfold outcomeOfRanks in *. cbn. exact Hinv.
  - pose proof (Hrows m r Hr) as Hinv. unfold outcomeOfRanks in *. cbn. exact Hinv.
Qed.

Lemma written_stagesInOrder (rows rows' : gmap Z Resolution.t) :
  Written rows rows' -> everyRow stagesInOrder rows -> everyRow stagesInOrder rows'.
Proof.
  intros [ | m i0 i1 a b | m r tx ca du Hr Ho Hc | m r tx fa Hr Hc Hd Hf] Hrows;
    [exact Hrows | | |]; apply everyRow_insert; try exact Hrows.
  - cbv zeta. destruct (rows !! m) as [old|] eqn:Hold.
    + destruct (Hrows m old Hold) as (_ & Hb & Hc & Hd & He).
      unfold stagesInOrder. cbn. repeat split; try tauto.
      intros _. apply computeOutcome_truthy.
    + unfold stagesInOrder. cbn. repeat split; try discriminate;
        intros H; destruct H as [? [=]].
  - destruct (Hrows m r Hr) as (_ & Hb & _ & _ & He).
    unfold stagesInOrder. cbn. unfold is_Some in *.
    repeat split; eauto; try tauto.
    intros Hf'. rewrite (Hb Hf') in Hc. discriminate.
  - destruct (Hrows m r Hr) as (Ha & _ & Hc' & Hd' & _).
    unfold stagesInOrder. cbn. unfold is_Some in *.
    repeat split; eauto; tauto.
Qed.

Lemma afterAll_invariant (inv : Resolution.t -> Prop) (P : Platform) (cfg : Config) (E : Env) :
  (forall rows rows', Written rows rows' -> everyRow inv rows -> everyRow inv rows') ->
  forall (paths : list Path) (w : World),
    everyRow inv (resolutions w) -> everyRow inv (resolutions (afterAll P cfg E paths w)).
Proof.
  intros Hstep paths. induction paths as [|path paths IH]; intros w Hw; [exact Hw|].
  cbn [afterAll fold_left]. apply IH.
  exact (Hstep _ _ (after_written P cfg E path w) Hw).
Qed.

(** ** Invariants of the table of resolutions *)

(** X14. The stored outcome is always the outcome of the stored ranks.
    If in every row with an outcome both ranks are set and the outcome is
    [computeOutcome] of them, the same holds after any sequence of
    prepare, commit and finalize jobs and of prepare, commit and finalize
    requests, however each of them ends: a prepare writes the two ranks
    and their outcome together, and no other path writes any of the
    three. *)
Theorem outcome_stays_outcome_of_ranks (P : Platform) (cfg : Config) (E : Env)
    (paths : list Path) (w : World) :
  everyRow outcomeOfRanks (resolutions w) ->
  everyRow outcomeOfRanks (resolutions (afterAll P cfg E paths w)).
Proof. apply afterAll_invariant. exact written_outcomeOfRanks. Qed.

Lemma everyRow_empty (inv : Resolution.t -> Prop) : everyRow inv ∅.
Proof. intros m r H. rewrite lookup_empty in H. discriminate H. Qed.

Lemma outcome_stays_outcome_of_ranks_witness :
  everyRow outcomeOfRanks
    (resolutions
       (afterAll Fixture.platform Fixture.config Fixture.env
          [PrepareJob (mkPrepareData 42 "2024-01-15" "2024-01-22" None); CommitJob 42;
           PrepareRoute 42 Fixture.prepareBody; FinalizeJob 42; FinalizeRoute 42]
          Fixture.world0)).
Proof.
  apply (outcome_stays_outcome_of_ranks Fixture.platform Fixture.config Fixture.env).
  apply everyRow_empty.
Defined.

(** X15. The stages of a resolution stay in order, and the fields of a
    stage stay together. If in every row a commit reference comes with an
    outcome, a finalize reference with a commit reference, the commit
    reference, the commit time and the end of the window are all set or
    all unset, and the finalize reference and the finalize time are both
    set or both unset, the same holds after any sequence of jobs and
    requests, however each of them ends. *)
Theorem stages_stay_in_order (P : Platform) (cfg : Config) (E : Env)
    (paths : list Path) (w : World) :
  everyRow stagesInOrder (resolutions w) ->
  everyRow stagesInOrder (resolutions (afterAll P cfg E paths w)).
Proof. apply afterAll_invariant. exact written_stagesInOrder. Qed.

Lemma stages_stay_in_order_witness :
  everyRow stagesInOrder
    (resolutions
       (afterAll Fixture.platform Fixture.config Fixture.env
          [PrepareJob (mkPrepareData 42 "2024-01-15" "2024-01-22" None); CommitJob 42;
           PrepareRoute 42 Fixture.prepareBody; FinalizeJob 42; FinalizeRoute 42]
          Fixture.world0)).
Proof.
  apply (stages_stay_in_order Fixture.platform Fixture.config Fixture.env).
  apply everyRow_empty.
Defined.

(** ** From commit to finalize *)

Lemma commitResolveOutcome_market (P : Platform) (cfg : Config) (E : Env) (marketId : Z)
    (w w' : World) (result : CommitResult) :
  commitResolveOutcome P cfg E marketId w = (Ok result, w') ->
  exists market : Market.t, findMarket marketId (markets w) = Some market.
Proof.
  unfold commitResolveOutcome.
  destruct (findMarket marketId (markets w)) as [market|]; [eauto | discriminate].
Qed.

(** X16. A commit job that returns [Committed] has sent its transaction,
    read the dispute window from the chain after it, and stored the
    transaction reference, the reading of the clock that followed, and as
    the end of the window the reading of the clock before that plus 1000
    times the window; the other fields of the row are as they were, and
    the result carries the stored outcome. From then on the finalize job
    is refused with the window-active error for as long as the clock
    reads less than that end. *)
Theorem commit_opens_the_window (P : Platform) (cfg : Config) (E : Env) (marketId : Z)
    (w w' : World) (id : Z) (txHash : string) (disputeUntil outcome : Z) :
  run E (commitResolveJob P cfg marketId) w
  = (Ok (Committed id txHash disputeUntil outcome), w') ->
  id = marketId /\
  exists (r : Resolution.t) (call : ContractCall) (seconds : Z),
    resolutions w !! marketId = Some r /\
    Resolution.outcome r = Some outcome /\
    chainWrite E (chainLog w) call = Sent txHash /\
    chainLog w' = (chainLog w ++ [call])%list /\
    chainDisputeWindow E (chainLog w ++ [call]) = Some seconds /\
    disputeUntil = clock E (ticks w) + seconds * 1000 /\
    resolutions w'
    = <[marketId := Resolution.merge
                      (commitPatch txHash (clock E (S (ticks w))) disputeUntil) r]>
        (resolutions w) /\
    forall (cfg' : Config) (E' : Env),
      txHash <> "" -> truthyStr (Resolution.finalizeTx r) = false ->
      clock E' (ticks w') < disputeUntil ->
      fst (run E' (finalizeResolveJob cfg' marketId) w')
      = Throw (DisputeWindowActive disputeUntil) /\
      chainLog (snd (run E' (finalizeResolveJob cfg' marketId) w')) = chainLog w'.
Proof.
  rewrite run_commitResolveJob. intros H. apply caught_returned in H.
  destruct (commitResolveOutcome_market _ _ _ _ _ _ _ H) as [market Hm].
  apply commitResolveOutcome_returned in H
    as (r & Hr & Ho & [(_ & [=] & _) | (_ & call & tx & du & ws & Hsend & [= -> -> -> ->] & ->)]).
  split; [reflexivity|].
  pose proof (commitSending_facts cfg E marketId r call w)
    as (Hms & _ & _ & _ & _ & Hok).
  cbv zeta in Hms, Hok. rewrite Hsend in Hms, Hok. cbn [fst snd] in Hms, Hok.
  destruct Hok as (_ & Hsent & Hlog & _ & (seconds & Hwin & ->) & Hrows).
  destruct (truthyNum_default _ Ho) as (o & Hout & _ & ->).
  exists r, call, seconds. world.
  repeat split; try assumption;
    rewrite run_finalizeResolveJob; unfold finalizeResolveOutcome; world;
    rewrite Hms, Hm, Hrows, lookup_insert_eq; cbn;
    (destruct (String.eqb_spec tx "") as [->|_]; [contradiction|]); cbn [negb];
    rewrite H0;
    (destruct (Z.ltb_spec (clock E' (S (ticks ws))) (clock E (ticks w) + seconds * 1000));
     [world; first [reflexivity | assumption] | lia]).
Qed.

Lemma commit_opens_the_window_witness :
  fst (run Fixture.env (finalizeResolveJob Fixture.config 42)
         (snd (run Fixture.env (commitResolveJob Fixture.platform Fixture.config 42)
                 (snd (run Fixture.env
                         (prepareResolveJob Fixture.platform Fixture.config
                            (mkPrepareData 42 "2024-01-15" "2024-01-22" None))
                         Fixture.world0)))))
  = Throw (DisputeWindowActive 10000).
Proof.
  pose (prepared := snd (run Fixture.env
                           (prepareResolveJob Fixture.platform Fixture.config
                              (mkPrepareData 42 "2024-01-15" "2024-01-22" None))
                           Fixture.world0)).
  destruct (commit_opens_the_window Fixture.platform Fixture.config Fixture.env 42 prepared
              (snd (run Fixture.env (commitResolveJob Fixture.platform Fixture.config 42)
                      prepared))
              42 "0xc001" 10000 1)
    as (_ & r & call & seconds & Hr & _ & _ & _ & _ & _ & _ & Hgate);
    [vm_compute; reflexivity|].
  vm_compute in Hr. injection Hr as <-.
  apply (Hgate Fixture.config Fixture.env); [discriminate | reflexivity | vm_compute; reflexivity].
Defined.

(** ** The routes of the HTTP API *)

(** X17. The finalize request on a committed row that is not finalized
    and whose market exists. While the clock reads less than the stored
    [disputeUntil] it is answered with status 400, "Dispute Window
    Active", and nothing is sent or written. Once the clock reads
    [disputeUntil] or more, and a wallet account is configured and the
    transaction is sent with its hash returned, it is answered with the
    hash and the stored outcome; the transaction is [finalizeResolve]
    with the stored outcome and ranks, empty evidence and nonce 0, and
    the hash and the next reading of the clock are stored in the row.
    Unlike the job, the request needs no snapshot. *)
Theorem finalizeRoute_gate (cfg : Config) (E : Env) (w : World) (id : Z)
    (market : Market.t) (r : Resolution.t) (disputeUntil : Z) :
  findMarket id (markets w) = Some market ->
  resolutions w !! id = Some r ->
  truthyStr (Resolution.commitTx r) = true ->
  Resolution.disputeUntil r = Some disputeUntil ->
  truthyStr (Resolution.finalizeTx r) = false ->
  (clock E (ticks w) < disputeUntil ->
   run E (finalizeRoute cfg id) w = (Reply400 "Dispute Window Active" None, tick w)) /\
  (forall txHash : string,
     disputeUntil <= clock E (ticks w) ->
     hasAccount cfg = true ->
     chainWrite E (chainLog w)
       (FinalizeResolve id (Resolution.outcome r) (Resolution.t0Rank r) (Resolution.t1Rank r)
          emptyEvidence emptyEvidence 0) = Sent txHash ->
     fst (run E (finalizeRoute cfg id) w) = Reply200 (txHash, Resolution.outcome r) /\
     chainLog (snd (run E (finalizeRoute cfg id) w))
     = (chainLog w ++
        [FinalizeResolve id (Resolution.outcome r) (Resolution.t0Rank r)
           (Resolution.t1Rank r) emptyEvidence emptyEvidence 0])%list /\
     resolutions (snd (run E (finalizeRoute cfg id) w))
     = <[id := Resolution.merge (finalizePatch txHash (clock E (S (ticks w)))) r]>
         (resolutions w)).
Proof.
  intros Hm Hr Hc Hd Hf. rewrite run_finalizeRoute. unfold finalizeRouteOutcome.
  rewrite Hm, Hr, Hd, Hc, Hf. cbn [negb]. split.
  - intros Hnow. destruct (Z.ltb_spec (clock E (ticks w)) disputeUntil); [reflexivity | lia].
  - intros txHash Hnow Hacc Hsent.
    destruct (Z.ltb_spec (clock E (ticks w)) disputeUntil); [lia|].
    unfold finalizeSending. rewrite Hacc. cbn [negb chainLog tick]. rewrite Hsent.
    repeat split.
Qed.

Lemma finalizeRoute_gate_witness :
  run Fixture.env (finalizeRoute Fixture.config 42) Fixture.worldOpen
  = (Reply400 "Dispute Window Active" None, tick Fixture.worldOpen) /\
  fst (run Fixture.env (finalizeRoute Fixture.config 42) Fixture.worldRouteClosed)
  = Reply200 ("0xf001", Some 1).
Proof.
  split.
  - apply (proj1 (finalizeRoute_gate Fixture.config Fixture.env Fixture.worldOpen 42
                    Fixture.market Fixture.committedRow 10000
                    eq_refl eq_refl eq_refl eq_refl eq_refl)).
    vm_compute. reflexivity.
  - apply (proj2 (finalizeRoute_gate Fixture.config Fixture.env Fixture.worldRouteClosed 42
                    Fixture.market Fixture.routeCommittedRow 10000
                    eq_refl eq_refl eq_refl eq_refl eq_refl) "0xf001");
      [vm_compute; discriminate | reflexivity | vm_compute; reflexivity].
Defined.

(** X18. The routes refuse a repeated request where the jobs answer it
    from the row. On a row whose commit reference is set the commit
    request is answered with status 400, "Already Committed", and on a
    row whose finalize reference is set the finalize request is answered
    with status 400, "Already Finalized"; in both cases nothing is sent
    and nothing is written. *)
Theorem routes_refuse_a_repeat (P : Platform) (cfg : Config) (E : Env) (w : World) (id : Z)
    (market : Market.t) (r : Resolution.t) :
  findMarket id (markets w) = Some market ->
  resolutions w !! id = Some r ->
  (truthyNum (Resolution.outcome r) = true ->
   truthyStr (Resolution.commitTx r) = true ->
   run E (commitRoute P cfg id) w = (Reply400 "Already Committed" None, w)) /\
  (truthyStr (Resolution.commitTx r) = true ->
   is_Some (Resolution.disputeUntil r) ->
   truthyStr (Resolution.finalizeTx r) = true ->
   run E (finalizeRoute cfg id) w = (Reply400 "Already Finalized" None, w)).
Proof.
  intros Hm Hr. split.
  - intros Ho Hc. rewrite run_commitRoute. unfold commitRouteOutcome.
    rewrite Hm, Hr, Ho, Hc. reflexivity.
  - intros Hc [disputeUntil Hd] Hf. rewrite run_finalizeRoute. unfold finalizeRouteOutcome.
    rewrite Hm, Hr, Hd, Hc, Hf. reflexivity.
Qed.

Lemma routes_refuse_a_repeat_witness :
  run Fixture.env (commitRoute Fixture.platform Fixture.config 42) Fixture.worldOpen
  = (Reply400 "Already Committed" None, Fixture.worldOpen).
Proof.
  apply (proj1 (routes_refuse_a_repeat Fixture.platform Fixture.config Fixture.env
                  Fixture.worldOpen 42 Fixture.market Fixture.committedRow
                  eq_refl eq_refl)); reflexivity.
Defined.

Lemma commitRoute_calls (P : Platform) (cfg : Config) (E : Env) (id : Z) (w : World) :
  let w' := snd (run E (commitRoute P cfg id) w) in
  chainLog w' = chainLog w \/
  exists (r : Resolution.t) (t0Rank t1Rank outcome : Z) (commitment : string),
    resolutions w !! id = Some r /\
    truthyStr (Resolution.commitTx r) = false /\
    Resolution.t0Rank r = Some t0Rank /\ Resolution.t1Rank r = Some t1Rank /\
    Resolution.outcome r = Some outcome /\ outcome <> 0 /\
    hasAccount cfg = true /\
    Chain.computeCommitment P id t0Rank t1Rank outcome emptyEvidence emptyEvidence 0
    = Ok commitment /\
    chainLog w' = (chainLog w ++ [CommitResolve id commitment emptyEvidence])%list.
Proof.
  cbv zeta. rewrite run_commitRoute. unfold commitRouteOutcome.
  destruct (findMarket id (markets w)) as [market|]; [|left; reflexivity].
  destruct (resolutions w !! id) as [r|]; [|left; reflexivity].
  destruct (truthyNum (Resolution.outcome r)) eqn:Ho; cbn [negb]; [|left; reflexivity].
  destruct (truthyStr (Resolution.commitTx r)) eqn:Hc; [left; reflexivity|].
  destruct (rowCommitment P id r _ _) as [commitment|e] eqn:Hcommit; [|left; reflexivity].
  pose proof (commitSending_facts cfg E id r (CommitResolve id commitment emptyEvidence) w)
    as (_ & _ & _ & _ & Hlog & _).
  cbv zeta in Hlog.
  destruct (commitSending cfg E id r _ w) as [[[txHash disputeUntil]|e] w'];
    cbn [fst snd] in *;
    (destruct Hlog as [Hlog | [Hacc Hlog]]; [left; exact Hlog|]);
    right;
    destruct (rowCommitment_defined _ _ _ _ _ _ Hcommit) as (t0Rank & t1Rank & Hr0 & Hr1 & Hcc);
    destruct (truthyNum_default _ Ho) as (outcome & Hout & Hnz & Hdef); rewrite Hdef in Hcc;
    exists r, t0Rank, t1Rank, outcome, commitment; repeat split; assumption.
Qed.

Lemma finalizeRoute_calls (cfg : Config) (E : Env) (id : Z) (w : World) :
  let w' := snd (run E (finalizeRoute cfg id) w) in
  chainLog w' = chainLog w \/
  exists (r : Resolution.t) (disputeUntil : Z),
    resolutions w !! id = Some r /\
    truthyStr (Resolution.commitTx r) = true /\
    truthyStr (Resolution.finalizeTx r) = false /\
    Resolution.disputeUntil r = Some disputeUntil /\
    disputeUntil <= clock E (ticks w) /\
    hasAccount cfg = true /\
    chainLog w'
    = (chainLog w ++
       [FinalizeResolve id (Resolution.outcome r) (Resolution.t0Rank r)
          (Resolution.t1Rank r) emptyEvidence emptyEvidence 0])%list.
Proof.
  cbv zeta. rewrite run_finalizeRoute. unfold finalizeRouteOutcome.
  destruct (findMarket id (markets w)) as [market|]; [|left; reflexivity].
  destruct (resolutions w !! id) as [r|]; [|left; reflexivity].
  destruct (Resolution.disputeUntil r) as [disputeUntil|] eqn:Hd; [|left; reflexivity].
  destruct (truthyStr (Resolution.commitTx r)) eqn:Hc; cbn [negb]; [|left; reflexivity].
  destruct (truthyStr (Resolution.finalizeTx r)) eqn:Hf; [left; reflexivity|].
  destruct (Z.ltb_spec (clock E (ticks w)) disputeUntil) as [Hnow|Hnow]; [left; reflexivity|].
  pose proof (finalizeSending_facts cfg E id r
                (FinalizeResolve id (Resolution.outcome r) (Resolution.t0Rank r)
                   (Resolution.t1Rank r) emptyEvidence emptyEvidence 0) (tick w))
    as (_ & _ & _ & _ & Hlog & _).
  cbv zeta in Hlog.
  destruct (finalizeSending cfg E id r _ (tick w)) as [[txHash|e] w'];
    cbn [fst snd chainLog tick] in *;
    (destruct Hlog as [Hlog | [Hacc Hlog]]; [left; exact Hlog|]);
    right; exists r, disputeUntil; repeat split; assumption.
Qed.

(** X19. Whatever the world, a commit request sends at most one
    transaction, and only for a prepared row without commit reference
    when a wallet account is configured: [commitResolve] with the
    commitment of the stored ranks and outcome over empty evidence and
    nonce 0, and with empty evidence. A finalize request sends at most
    one transaction, and only for a committed row without finalize
    reference whose window has closed and when a wallet account is
    configured: [finalizeResolve] with the outcome and ranks that the row
    holds when the request is made, empty evidence and nonce 0. *)
Theorem requests_send_at_most_one (P : Platform) (cfg : Config) (E : Env) (id : Z)
    (w : World) :
  (let w' := snd (run E (commitRoute P cfg id) w) in
   chainLog w' = chainLog w \/
   exists (r : Resolution.t) (t0Rank t1Rank outcome : Z) (commitment : string),
     resolutions w !! id = Some r /\
     truthyStr (Resolution.commitTx r) = false /\
     Resolution.t0Rank r = Some t0Rank /\ Resolution.t1Rank r = Some t1Rank /\
     Resolution.outcome r = Some outcome /\ outcome <> 0 /\
     hasAccount cfg = true /\
     Chain.computeCommitment P id t0Rank t1Rank outcome emptyEvidence emptyEvidence 0
     = Ok commitment /\
     chainLog w' = (chainLog w ++ [CommitResolve id commitment emptyEvidence])%list) /\
  (let w' := snd (run E (finalizeRoute cfg id) w) in
   chainLog w' = chainLog w \/
   exists (r : Resolution.t) (disputeUntil : Z),
     resolutions w !! id = Some r /\
     truthyStr (Resolution.commitTx r) = true /\
     truthyStr (Resolution.finalizeTx r) = false /\
     Resolution.disputeUntil r = Some disputeUntil /\
     disputeUntil <= clock E (ticks w) /\
     hasAccount cfg = true /\
     chainLog w'
     = (chainLog w ++
        [FinalizeResolve id (Resolution.outcome r) (Resolution.t0Rank r)
           (Resolution.t1Rank r) emptyEvidence emptyEvidence 0])%list).
Proof. split; [apply commitRoute_calls | apply finalizeRoute_calls]. Qed.

Lemma without_account (P : Platform) (cfg : Config) (E : Env) (w : World) (marketId : Z)
    (path : Path) :
  hasAccount cfg = false ->
  path = CommitJob marketId \/ path = FinalizeJob marketId \/
  path = CommitRoute marketId \/ path = FinalizeRoute marketId ->
  chainLog (after P cfg E path w) = chainLog w /\
  resolutions (after P cfg E path w) = resolutions w.
Proof.
  intros Hacc Hpath.
  assert (Hcs : forall r call w0, commitSending cfg E marketId r call w0
                                  = (Throw NoWalletAccount, w0))
    by (intros; unfold commitSending; rewrite Hacc; reflexivity).
  assert (Hfs : forall r call w0, finalizeSending cfg E marketId r call w0
                                  = (Throw NoWalletAccount, w0))
    by (intros; unfold finalizeSending; rewrite Hacc; reflexivity).
  destruct Hpath as [-> | [-> | [-> | ->]]]; cbn [after].
  - rewrite run_commitResolveJob. unfold commitResolveOutcome.
    repeat match goal with
           | |- context [commitSending cfg E marketId ?r ?c ?w0] => rewrite (Hcs r c w0)
           | |- context [match ?x with _ => _ end] => destruct x
           end; world; split; reflexivity.
  - rewrite run_finalizeResolveJob. unfold finalizeResolveOutcome.
    repeat match goal with
           | |- context [finalizeSending cfg E marketId ?r ?c ?w0] => rewrite (Hfs r c w0)
           | |- context [match ?x with _ => _ end] => destruct x
           end; world; split; reflexivity.
  - rewrite run_commitRoute. unfold commitRouteOutcome.
    repeat match goal with
           | |- context [commitSending cfg E marketId ?r ?c ?w0] => rewrite (Hcs r c w0)
           | |- context [match ?x with _ => _ end] => destruct x
           end; world; split; reflexivity.
  - rewrite run_finalizeRoute. unfold finalizeRouteOutcome.
    repeat match goal with
           | |- context [finalizeSending cfg E marketId ?r ?c ?w0] => rewrite (Hfs r c w0)
           | |- context [match ?x with _ => _ end] => destruct x
           end; world; split; reflexivity.
Qed.

(** X20. Without a wallet account (no [PRIVATE_KEY] in the environment)
    nothing is ever sent to the chain and no commit or finalize field is
    ever written: the commit job, the finalize job, the commit request
    and the finalize request all leave the chain and the table of
    resolutions as they found them. *)
Theorem without_account_nothing_is_sent (P : Platform) (cfg : Config) (E : Env) (w : World)
    (marketId : Z) :
  hasAccount cfg = false ->
  (chainLog (snd (run E (commitResolveJob P cfg marketId) w)) = chainLog w /\
   resolutions (snd (run E (commitResolveJob P cfg marketId) w)) = resolutions w) /\
  (chainLog (snd (run E (finalizeResolveJob cfg marketId) w)) = chainLog w /\
   resolutions (snd (run E (finalizeResolveJob cfg marketId) w)) = resolutions w) /\
  (chainLog (snd (run E (commitRoute P cfg marketId) w)) = chainLog w /\
   resolutions (snd (run E (commitRoute P cfg marketId) w)) = resolutions w) /\
  (chainLog (snd (run E (finalizeRoute cfg marketId) w)) = chainLog w /\
   resolutions (snd (run E (finalizeRoute cfg marketId) w)) = resolutions w).
Proof.
  intros Hacc. split; [|split; [|split]].
  - apply (without_account P cfg E w marketId (CommitJob marketId) Hacc). tauto.
  - apply (without_account P cfg E w marketId (FinalizeJob marketId) Hacc). tauto.
  - apply (without_account P cfg E w marketId (CommitRoute marketId) Hacc). tauto.
  - apply (without_account P cfg E w marketId (FinalizeRoute marketId) Hacc). tauto.
Qed.

Lemma without_account_nothing_is_sent_witness :
  chainLog
    (snd (run Fixture.env
            (finalizeResolveJob (mkConfig (SLACK_WEBHOOK_URL Fixture.config) None) 42)
            Fixture.worldClosed))
  = chainLog Fixture.worldClosed.
Proof.
  apply (without_account_nothing_is_sent Fixture.platform
           (mkConfig (SLACK_WEBHOOK_URL Fixture.config) None) Fixture.env
           Fixture.worldClosed 42).
  reflexivity.
Defined.

(** ** GET /markets/:id/evidence *)

Lemma run_withEvidence (E : Env) {R} (id : option Z) (k : option EvidenceView -> Prog R)
    (w : World) :
  run E (withEvidence id k) w = run E (k (evidenceView <$> snapshotOf id w)) w.
Proof. destruct id; reflexivity. Qed.

Lemma run_evidenceRoute (E : Env) (id : Z) (w : World) :
  run E (evidenceRoute id) w
  = (match findMarket id (markets w) with
     | None => Reply404
     | Some _ =>
         Reply200
           (mkEvidencePayload
              (evidenceView <$> snapshotOf (resolutions w !! id ≫= Resolution.t0SnapshotId) w)
              (evidenceView <$> snapshotOf (resolutions w !! id ≫= Resolution.t1SnapshotId) w)
              (resolutionView <$> resolutions w !! id))
     end, w).
Proof.
  unfold evidenceRoute. cbn [run handle].
  destruct (findMarket id (markets w)); [|reflexivity].
  cbn [run handle]. rewrite !run_withEvidence. reflexivity.
Qed.

Lemma upsert_references (marketId : Z) (patch : Resolution.t) (w w1 : World) :
  upsert marketId patch w = (Ok tt, w1) ->
  references (Resolution.t0SnapshotId patch) (snapshots w) = true /\
  references (Resolution.t1SnapshotId patch) (snapshots w) = true.
Proof.
  unfold upsert. destruct (Resolution.namesNoField patch); [discriminate|].
  destruct (references (Resolution.t0SnapshotId patch) (snapshots w));
    destruct (references (Resolution.t1SnapshotId patch) (snapshots w));
    rewrite ?andb_false_r; cbn [andb]; try discriminate; tauto.
Qed.

(** X21. The evidence request reads and never writes: it leaves the world
    as it is, and it is answered with status 404 exactly when the market
    does not exist. What it serves after a prepare job has returned is
    what that job stored: the evidence of the two snapshots whose ids the
    job returned, which are found, and the two ranks and the outcome that
    the job returned, with the commit and finalize times of the row. *)
Theorem evidence_serves_what_prepare_stored (P : Platform) (cfg : Config) (E E' : Env)
    (data : PrepareResolveJobData) (w w1 : World) (result : PrepareResult) :
  (forall id : Z,
     snd (run E (evidenceRoute id) w) = w /\
     (fst (run E (evidenceRoute id) w) = Reply404 <-> findMarket id (markets w) = None)) /\
  (run E (prepareResolveJob P cfg data) w = (Ok result, w1) ->
   exists (t0Snapshot t1Snapshot : Snapshot.t) (row : Resolution.t),
     findSnapshot (rT0SnapshotId result) (snapshots w1) = Some t0Snapshot /\
     findSnapshot (rT1SnapshotId result) (snapshots w1) = Some t1Snapshot /\
     resolutions w1 !! pMarketId data = Some row /\
     run E' (evidenceRoute (pMarketId data)) w1
     = (Reply200
          (mkEvidencePayload (Some (evidenceView t0Snapshot)) (Some (evidenceView t1Snapshot))
             (Some (mkResolutionView (Some (rT0Rank result)) (Some (rT1Rank result))
                      (Some (rOutcome result)) (Resolution.committedAt row)
                      (Resolution.disputeUntil row) (Resolution.finalizedAt row)))),
        w1)).
Proof.
  split.
  - intros id. rewrite run_evidenceRoute. cbn [fst snd]. split; [reflexivity|].
    destruct (findMarket id (markets w)); split; congruence.
  - intros Hrun.
    destruct (prepareResolveJob_returned P cfg E data w w1 result Hrun)
      as (market & t0Id & t1Id & t0Rank & t1Rank & Hm & -> & _ & Hup).
    destruct (upsert_references _ _ _ _ Hup) as [H0 H1]. cbn in H0, H1.
    apply bool_decide_eq_true in H0 as [t0Snapshot Hs0].
    apply bool_decide_eq_true in H1 as [t1Snapshot Hs1].
    pose proof (upsert_ok _ _ _ _ Hup) as ->.
    destruct (upserted_fields (pMarketId data) _ w t0Id t1Id t0Rank t1Rank
                (Rank.computeOutcome t0Rank t1Rank) eq_refl)
      as (Hid0 & Hid1 & Hr0 & Hr1 & Ho & _).
    cbv zeta in Hid0, Hid1, Hr0, Hr1, Ho.
    eexists t0Snapshot, t1Snapshot, _. cbn [rT0SnapshotId rT1SnapshotId snapshots setResolutions].
    split; [exact Hs0|]. split; [exact Hs1|].
    split; [cbn [resolutions setResolutions]; apply lookup_insert_eq|].
    rewrite run_evidenceRoute. cbn [markets resolutions setResolutions]. rewrite Hm.
    rewrite lookup_insert_eq. cbn [mbind option_bind fmap option_map].
    rewrite Hid0, Hid1. cbn [snapshotOf snapshots setResolutions]. rewrite Hs0, Hs1.
    unfold resolutionView.
    cbn [fmap option_fmap option_map rT0Rank rT1Rank rOutcome].
    rewrite Hr0, Hr1, Ho. reflexivity.
Qed.

Lemma evidence_serves_what_prepare_stored_witness :
  exists payload : EvidencePayload,
    fst (run Fixture.env (evidenceRoute 42)
           (snd (run Fixture.env
                   (prepareResolveJob Fixture.platform Fixture.config
                      (mkPrepareData 42 "2024-01-15" "2024-01-22" None)) Fixture.world0)))
    = Reply200 payload /\
    viewOutcome <$> resolution payload = Some (Some Rank.YES).
Proof.
  destruct (proj2 (evidence_serves_what_prepare_stored Fixture.platform Fixture.config
                     Fixture.env Fixture.env
                     (mkPrepareData 42 "2024-01-15" "2024-01-22" None) Fixture.world0
                     (snd (run Fixture.env
                             (prepareResolveJob Fixture.platform Fixture.config
                                (mkPrepareData 42 "2024-01-15" "2024-01-22" None))
                             Fixture.world0))
                     (mkPrepareResult 42 12 8 1 1 2)))
    as (t0Snapshot & t1Snapshot & row & _ & _ & _ & Hrun); [vm_compute; reflexivity|].
  eexists. split; [exact (f_equal fst Hrun) | reflexivity].
Defined.

(** ** db/index.ts: the upsert *)

Lemma run_upsertResolution (E : Env) (marketId : Z) (patch : Resolution.t) (w : World) :
  run E (upsertResolution marketId patch) w = upsert marketId patch w.
Proof.
  unfold upsertResolution, attempt. cbn [run handle].
  destruct (upsert marketId patch w) as [res w']. reflexivity.
Qed.

Lemma over_assoc {A} (a b c : option A) :
  Resolution.over a (Resolution.over b c) = Resolution.over (Resolution.over a b) c.
Proof. destruct a; reflexivity. Qed.

Lemma merge_assoc (p2 p1 old : Resolution.t) :
  Resolution.merge p2 (Resolution.merge p1 old)
  = Resolution.merge (Resolution.merge p2 p1) old.
Proof. unfold Resolution.merge. cbn. rewrite !over_assoc. reflexivity. Qed.

Lemma isSmallint_over (a b : option Z) :
  isSmallint a = true -> isSmallint b = true -> isSmallint (Resolution.over a b) = true.
Proof. destruct a; auto. Qed.

Lemma references_over (a b : option Z) (ss : list Snapshot.t) :
  references a ss = true -> references b ss = true ->
  references (Resolution.over a b) ss = true.
Proof. destruct a; auto. Qed.

Lemma namesNoField_merge (patch old : Resolution.t) :
  Resolution.namesNoField patch = false ->
  Resolution.namesNoField (Resolution.merge patch old) = false.
Proof.
  assert (Hover : forall A (a b : option A),
            Resolution.isSet (Resolution.over a b)
            = Resolution.isSet a || Resolution.isSet b)
    by (intros A [] []; reflexivity).
  unfold Resolution.namesNoField, Resolution.merge.
  cbn [Resolution.t0SnapshotId Resolution.t1SnapshotId Resolution.t0Rank Resolution.t1Rank
       Resolution.outcome Resolution.commitTx Resolution.committedAt Resolution.disputeUntil
       Resolution.finalizeTx Resolution.finalizedAt].
  rewrite !Hover, !negb_false_iff, !orb_true_iff. tauto.
Qed.

Lemma upsert_accepted (marketId : Z) (patch : Resolution.t) (w : World) :
  fst (upsert marketId patch w) = Ok tt <->
  Resolution.namesNoField patch = false /\
  isSmallint (Resolution.t0Rank patch) = true /\ isSmallint (Resolution.t1Rank patch) = true /\
  isSmallint (Resolution.outcome patch) = true /\
  is_Some (findMarket marketId (markets w)) /\
  references (Resolution.t0SnapshotId patch) (snapshots w) = true /\
  references (Resolution.t1SnapshotId patch) (snapshots w) = true.
Proof.
  unfold upsert.
  destruct (Resolution.namesNoField patch); cbn [fst];
    [split; [discriminate | intros (? & _); discriminate]|].
  destruct (isSmallint (Resolution.t0Rank patch)), (isSmallint (Resolution.t1Rank patch)),
    (isSmallint (Resolution.outcome patch)),
    (references (Resolution.t0SnapshotId patch) (snapshots w)),
    (references (Resolution.t1SnapshotId patch) (snapshots w));
    cbn [andb]; rewrite ?andb_true_r, ?andb_false_r; cbn [fst];
    try (split; [discriminate | intros (? & ? & ? & ? & ? & ? & ?); discriminate]).
  case_bool_decide as Hm; cbn [fst]; split; try discriminate; tauto.
Qed.

(** X22. Upserts on one market accumulate. When two upserts in a row go
    through, the row read back holds, field by field, the value of the
    second patch where it names the field, else the value of the first
    patch where that names it, else what the row held before; one upsert
    of the second patch laid over the first goes through as well and
    leaves the same world. *)
Theorem upserts_accumulate (E : Env) (w w2 : World) (marketId : Z)
    (first second : Resolution.t) (row : option Resolution.t) :
  run E (upsertResolution marketId first ;; upsertResolution marketId second ;;
         getResolution marketId) w = (Ok row, w2) ->
  row = Some match resolutions w !! marketId with
             | Some old => Resolution.merge second (Resolution.merge first old)
             | None => Resolution.merge second first
             end /\
  run E (upsertResolution marketId (Resolution.merge second first) ;;
         getResolution marketId) w = (Ok row, w2).
Proof.
  rewrite !run_bind, !run_upsertResolution.
  destruct (upsert marketId first w) as [[[]|e] w1] eqn:H1; [|discriminate].
  rewrite run_bind, run_upsertResolution.
  destruct (upsert marketId second w1) as [[[]|e] w2'] eqn:H2; [|discriminate].
  unfold getResolution, perform. cbn [run handle].
  intros [= <- <-].
  pose proof (proj1 (upsert_accepted marketId first w) (f_equal fst H1))
    as (_ & Ha1 & Hb1 & Hc1 & Hm & Hd1 & He1).
  pose proof (proj1 (upsert_accepted marketId second w1) (f_equal fst H2))
    as (Hn2 & Ha2 & Hb2 & Hc2 & _ & Hd2 & He2).
  pose proof (upsert_ok _ _ _ _ H1) as Hw1. pose proof (upsert_ok _ _ _ _ H2) as Hw2.
  rewrite Hw1 in Hd2, He2. cbn [snapshots setResolutions] in Hd2, He2.
  assert (Hrow : upserted marketId second w1
                 = match resolutions w !! marketId with
                   | Some old => Resolution.merge second (Resolution.merge first old)
                   | None => Resolution.merge second first
                   end).
  { unfold upserted. rewrite Hw1. cbn [resolutions setResolutions].
    rewrite lookup_insert_eq. unfold upserted.
    destruct (resolutions w !! marketId); reflexivity. }
  assert (Hfinal : w2' = setResolutions
                           (<[marketId := upserted marketId second w1]> (resolutions w)) w).
  { rewrite Hw2, Hw1. unfold setResolutions. cbn. rewrite insert_insert_eq. reflexivity. }
  split.
  - rewrite Hw2. cbn [resolutions setResolutions]. rewrite lookup_insert_eq, Hrow. reflexivity.
  - assert (Hacc : fst (upsert marketId (Resolution.merge second first) w) = Ok tt).
    { apply upsert_accepted. split; [exact (namesNoField_merge second first Hn2)|]. cbn.
      repeat split; auto using isSmallint_over, references_over. }
    destruct (upsert marketId (Resolution.merge second first) w) as [[[]|e] w3] eqn:H3;
      [|discriminate].
    pose proof (upsert_ok _ _ _ _ H3) as Hw3. cbn [run handle].
    assert (Hsame : upserted marketId (Resolution.merge second first) w
                    = upserted marketId second w1).
    { rewrite Hrow. unfold upserted.
      destruct (resolutions w !! marketId); [rewrite merge_assoc|]; reflexivity. }
    rewrite Hw3, Hsame, Hfinal. cbn [resolutions setResolutions].
    rewrite !lookup_insert_eq. reflexivity.
Qed.

Lemma upserts_accumulate_witness :
  fst (run Fixture.env
         (upsertResolution 42
            (Resolution.merge (commitPatch "0xc001" 1000 10000)
               (Resolution.mk (Some 1) (Some 2) (Some 12) (Some 8) (Some 1)
                  None None None None None)) ;;
          getResolution 42) Fixture.world0)
  = Ok (Some Fixture.committedRow).
Proof.
  refine (f_equal fst
            (proj2 (upserts_accumulate Fixture.env Fixture.world0
                      (snd (run Fixture.env
                              (upsertResolution 42
                                 (Resolution.mk (Some 1) (Some 2) (Some 12) (Some 8) (Some 1)
                                    None None None None None) ;;
                               upsertResolution 42 (commitPatch "0xc001" 1000 10000) ;;
                               getResolution 42) Fixture.world0))
                      42
                      (Resolution.mk (Some 1) (Some 2) (Some 12) (Some 8) (Some 1)
                         None None None None None)
                      (commitPatch "0xc001" 1000 10000)
                      (Some Fixture.committedRow) _))).
  vm_compute. reflexivity.
Defined.

(** X23. When an upsert is refused. A patch is a set of fields with
    their values (a field set to [null] is not covered), and its
    timestamps and texts are values that PostgreSQL stores ([Db.storable]).
    The upsert is refused exactly when the patch names no field, so that
    the statement built from it does not parse, or when the row would
    break a constraint of the table: the market does not exist, a rank or
    the outcome of the patch is outside SMALLINT, or a snapshot that the
    patch names does not exist. A refused upsert changes nothing. An
    accepted one changes the row of its market and no other row, and
    leaves the other tables as they are. *)
Theorem upsert_refused_iff (E : Env) (w : World) (marketId : Z) (patch : Resolution.t) :
  Db.storable patch = true ->
  let result := fst (run E (upsertResolution marketId patch) w) in
  let w' := snd (run E (upsertResolution marketId patch) w) in
  (result = Ok tt <->
   Resolution.namesNoField patch = false /\
   isSmallint (Resolution.t0Rank patch) = true /\
   isSmallint (Resolution.t1Rank patch) = true /\
   isSmallint (Resolution.outcome patch) = true /\
   is_Some (findMarket marketId (markets w)) /\
   references (Resolution.t0SnapshotId patch) (snapshots w) = true /\
   references (Resolution.t1SnapshotId patch) (snapshots w) = true) /\
  (result <> Ok tt -> (exists message : string, result = Throw (DatabaseError message)) /\ w' = w) /\
  (result = Ok tt ->
   markets w' = markets w /\ snapshots w' = snapshots w /\ chainLog w' = chainLog w /\
   resolutions w' !! marketId
   = Some match resolutions w !! marketId with
          | Some old => Resolution.merge patch old
          | None => patch
          end /\
   forall other : Z, other <> marketId -> resolutions w' !! other = resolutions w !! other).
Proof.
  intros _. cbv zeta. rewrite run_upsertResolution. split; [apply upsert_accepted|].
  unfold upsert.
  destruct (Resolution.namesNoField patch); [|destruct (_ && _)]; cbn [fst snd].
  - split; [|discriminate]. intros _. split; [eauto | reflexivity].
  - split; [congruence|]. intros _. cbn. rewrite lookup_insert_eq. repeat split.
    intros other Hother. apply lookup_insert_ne. congruence.
  - split; [|discriminate]. intros _. split; [eauto | reflexivity].
Qed.

Lemma upsert_refused_iff_witness :
  fst (run Fixture.env (upsertResolution 42 (commitPatch "0xc001" 1000 10000)) Fixture.world0)
  = Ok tt /\
  fst (run Fixture.env (upsertResolution 42 (commitPatch "0xc001" 1000 10000))
         (mkWorld [] [] ∅ 0 [] [] []))
  <> Ok tt.
Proof.
  split.
  - apply (proj1 (upsert_refused_iff Fixture.env Fixture.world0 42
                    (commitPatch "0xc001" 1000 10000) eq_refl)).
    vm_compute. repeat split. eauto.
  - intros Haccepted.
    apply (proj1 (upsert_refused_iff Fixture.env (mkWorld [] [] ∅ 0 [] [] []) 42
                    (commitPatch "0xc001" 1000 10000) eq_refl)) in Haccepted.
    destruct Haccepted as (_ & _ & _ & _ & [market Hmarket] & _). discriminate Hmarket.
Defined.

(** ** db/index.ts: [withTransaction] *)

Lemma call_extends {Rows T} (answer : list Tx.Command -> string -> Exc Rows)
    (callback : Tx.Callback T) (history : list Tx.Command) :
  exists queries : list string,
    snd (Tx.call answer callback history) = (history ++ map Tx.Query queries)%list.
Proof.
  revert history. induction callback as [result|error|sql k IH]; intros history.
  - exists []. cbn. rewrite app_nil_r. reflexivity.
  - exists []. cbn. rewrite app_nil_r. reflexivity.
  - cbn [Tx.call]. destruct (IH (answer history sql) (history ++ [Tx.Query sql])%list)
      as [queries ->].
    exists (sql :: queries). rewrite <- app_assoc. reflexivity.
Qed.

(** X24. [withTransaction] brackets its callback. When the pool hands out
    no client, nothing else is asked and the error of the pool is thrown.
    When it hands one out, the first query is [BEGIN] and the last thing
    asked is the release of the client, once, however the transaction
    ends. The result of the callback is returned exactly when [BEGIN],
    the callback and [COMMIT] all went through, and then [COMMIT] is the
    last query. In every other case [ROLLBACK] is the last query, and
    what is thrown is the first error, unless [ROLLBACK] throws itself. *)
Theorem withTransaction_brackets {Rows T} (connect : list Tx.Command -> Exc unit)
    (answer : list Tx.Command -> string -> Exc Rows)
    (callback : Tx.Callback T) (history : list Tx.Command) :
  let outcome := fst (Tx.withTransaction connect answer callback history) in
  let asked := snd (Tx.withTransaction connect answer callback history) in
  (forall error : Error,
     connect history = Throw error ->
     outcome = Throw error /\ asked = (history ++ [Tx.Connect])%list) /\
  (connect history = Ok tt ->
   exists queries : list string,
     asked = (history ++ Tx.Connect :: Tx.Query "BEGIN" :: map Tx.Query queries
              ++ [Tx.Release])%list /\
     ((exists result : T,
         outcome = Ok result /\
         Tx.attemptTransaction answer callback (history ++ [Tx.Connect])
         = (Ok result,
            (history ++ Tx.Connect :: Tx.Query "BEGIN" :: map Tx.Query queries)%list) /\
         exists before : list string, queries = (before ++ ["COMMIT"])%list) \/
      (exists (error first : Error) (before : list string) (attempted : list Tx.Command),
         outcome = Throw error /\
         queries = (before ++ ["ROLLBACK"])%list /\
         Tx.attemptTransaction answer callback (history ++ [Tx.Connect])
         = (Throw first, attempted) /\
         (answer attempted "ROLLBACK" = Throw error \/
          (exists rows : Rows, answer attempted "ROLLBACK" = Ok rows) /\ error = first)))).
Proof.
  cbv zeta. unfold Tx.withTransaction. split.
  - intros error ->. split; reflexivity.
  - intros ->.
    assert (Hattempt :
              exists queries : list string,
                snd (Tx.attemptTransaction answer callback (history ++ [Tx.Connect])%list)
                = (history ++ Tx.Connect :: Tx.Query "BEGIN" :: map Tx.Query queries)%list /\
                forall result : T,
                  fst (Tx.attemptTransaction answer callback (history ++ [Tx.Connect])%list)
                  = Ok result ->
                  exists before : list string, queries = (before ++ ["COMMIT"])%list).
    { unfold Tx.attemptTransaction, Tx.query.
      destruct (answer (history ++ [Tx.Connect])%list "BEGIN") as [rows|error].
      - destruct (call_extends answer callback
                    ((history ++ [Tx.Connect]) ++ [Tx.Query "BEGIN"])%list) as [asked Hasked].
        destruct (Tx.call answer callback _) as [[result|error] h2]; cbn [snd] in Hasked;
          subst h2.
        + destruct (answer _ "COMMIT") as [rows'|error]; cbn [fst snd];
            exists (asked ++ ["COMMIT"])%list;
            (split; [rewrite map_app, <- !app_assoc; reflexivity|]);
            [intros result' _; eauto | discriminate].
        + exists asked. cbn [fst snd].
          split; [rewrite <- !app_assoc; reflexivity | discriminate].
      - exists []. cbn [fst snd]. split; [rewrite <- app_assoc; reflexivity | discriminate]. }
    destruct Hattempt as (queries & Hasked & Hcommit).
    destruct (Tx.attemptTransaction answer callback (history ++ [Tx.Connect])%list)
      as [[result|first] h] eqn:Hrun; cbn [fst snd] in Hasked, Hcommit; subst h.
    + exists queries. cbn [fst snd]. split; [rewrite <- !app_assoc; reflexivity|].
      left. exists result. repeat split. exact (Hcommit result eq_refl).
    + unfold Tx.query.
      destruct (answer _ "ROLLBACK") as [rows|failure] eqn:Hrollback; cbn [fst snd];
        exists (queries ++ ["ROLLBACK"])%list;
        (split; [rewrite map_app, <- !app_assoc; reflexivity|]); right.
      * exists first, first, queries. eexists. repeat split. right. split; eauto.
      * exists failure, first, queries. eexists. repeat split. left. exact Hrollback.
Qed.

Lemma withTransaction_brackets_witness :
  Tx.withTransaction (fun _ => Ok tt)
    (fun _ sql => if String.eqb sql "UPDATE resolutions SET outcome = 1"
                  then Throw (DatabaseError "deadlock detected") else Ok tt)
    (Tx.Ask "UPDATE resolutions SET outcome = 1"
       (fun answer => match answer with
                      | Ok _ => Tx.Return 1
                      | Throw error => Tx.Fail error
                      end))
    []
  = (Throw (DatabaseError "deadlock detected"),
     [Tx.Connect; Tx.Query "BEGIN"; Tx.Query "UPDATE resolutions SET outcome = 1";
      Tx.Query "ROLLBACK"; Tx.Release]).
Proof.
  destruct (proj2 (withTransaction_brackets (fun _ => Ok tt)
                     (fun _ sql => if String.eqb sql "UPDATE resolutions SET outcome = 1"
                                   then Throw (DatabaseError "deadlock detected") else Ok tt)
                     (Tx.Ask "UPDATE resolutions SET outcome = 1"
                        (fun answer => match answer with
                                       | Ok _ => Tx.Return 1
                                       | Throw error => Tx.Fail error
                                       end))
                     []) eq_refl) as (queries & Hasked & _).
  reflexivity.
Defined.

(** ** The three jobs in a row *)

(** X25. The three jobs resolve a market. Take a market without a row in
    [resolutions], and two snapshot rows for the dates of the job data
    whose ids find them. Let the evidence host serve, for each, a body
    whose digest is the stored one and which parses to a document that
    passes [validateSnapshotSchema]; let the ranks of the market's song
    in the two documents fit SMALLINT, and let [computeCommitment] be
    defined on them. Let a wallet account be configured, and let the chain
    accept the commit transaction, report a dispute window, and accept
    the finalize transaction; let the two transaction hashes be text
    without the character U+0000, and let the window end, from a clock
    that is not before the epoch and after a number of seconds that is
    not negative, at a time that a [Date] holds ([Db.MAX_DATE]). Then the
    prepare job returns the two ranks
    and their outcome; the commit job, run next, returns the commit
    reference and the end of the window; and the finalize job, run next
    at a time when the clock reads that end or more, returns the finalize
    reference and the outcome. The chain has received the commitment and
    then the values it commits to, and the row holds the snapshot
    references, the ranks, the outcome of the ranks, and both
    transaction references with their times. *)
Theorem jobs_resolve_the_market (P : Platform) (cfg : Config) (E E' : Env) (w : World)
    (data : PrepareResolveJobData) (market : Market.t) (t0Snapshot t1Snapshot : Snapshot.t)
    (status0 status1 : Z) (t0Buffer t1Buffer : Hex.bytes) (t0Data t1Data : Json.json)
    (t0Chart t1Chart : Rank.SpotifySnapshot) (commitment commitTx finalizeTx : string)
    (seconds : Z) :
  let marketId := pMarketId data in
  let region := default "global" (region data) in
  let t0Rank := Rank.extractRankBySongId t0Chart (Market.songId market) in
  let t1Rank := Rank.extractRankBySongId t1Chart (Market.songId market) in
  let outcome := Rank.computeOutcome t0Rank t1Rank in
  let t0Evidence := evidenceOf t0Snapshot in
  let t1Evidence := evidenceOf t1Snapshot in
  let commitCall := CommitResolve marketId commitment t0Evidence in
  let finalizeCall :=
    FinalizeResolve marketId (Some outcome) (Some t0Rank) (Some t1Rank)
      t0Evidence t1Evidence 0 in
  let disputeUntil := clock E (ticks w) + seconds * 1000 in
  let prepared := run E (prepareResolveJob P cfg data) w in
  let committed := run E (commitResolveJob P cfg marketId) (snd prepared) in
  let finalized := run E' (finalizeResolveJob cfg marketId) (snd committed) in
  findMarket marketId (markets w) = Some market ->
  resolutions w !! marketId = None ->
  findSnapshotByDate (t0Date data) region (snapshots w) = Some t0Snapshot ->
  findSnapshotByDate (t1Date data) region (snapshots w) = Some t1Snapshot ->
  findSnapshot (Snapshot.id t0Snapshot) (snapshots w) = Some t0Snapshot ->
  findSnapshot (Snapshot.id t1Snapshot) (snapshots w) = Some t1Snapshot ->
  http E (Snapshot.jsonUrl t0Snapshot) = Response true status0 t0Buffer ->
  http E (Snapshot.jsonUrl t1Snapshot) = Response true status1 t1Buffer ->
  Hash.verifyHash P t0Buffer (Snapshot.jsonSha256 t0Snapshot) = true ->
  Hash.verifyHash P t1Buffer (Snapshot.jsonSha256 t1Snapshot) = true ->
  JSON_parse P t0Buffer = Ok t0Data -> JSON_parse P t1Buffer = Ok t1Data ->
  Json.validateSnapshotSchema t0Data = Ok true -> Json.asSnapshot t0Data = Some t0Chart ->
  Json.validateSnapshotSchema t1Data = Ok true -> Json.asSnapshot t1Data = Some t1Chart ->
  -32768 <= t0Rank <= 32767 -> -32768 <= t1Rank <= 32767 ->
  Chain.computeCommitment P marketId t0Rank t1Rank outcome t0Evidence t1Evidence 0
  = Ok commitment ->
  hasAccount cfg = true ->
  chainWrite E (chainLog w) commitCall = Sent commitTx -> commitTx <> "" ->
  Db.hasNoNul commitTx = true ->
  chainDisputeWindow E (chainLog w ++ [commitCall]) = Some seconds ->
  0 <= clock E (ticks w) -> 0 <= seconds -> disputeUntil <= Db.MAX_DATE ->
  disputeUntil <= clock E' (S (S (S (ticks w)))) ->
  chainWrite E' (chainLog w ++ [commitCall]) finalizeCall = Sent finalizeTx ->
  Db.hasNoNul finalizeTx = true ->
  fst prepared
  = Ok (mkPrepareResult marketId t0Rank t1Rank outcome
          (Snapshot.id t0Snapshot) (Snapshot.id t1Snapshot)) /\
  fst committed = Ok (Committed marketId commitTx disputeUntil outcome) /\
  fst finalized = Ok (Finalized marketId finalizeTx (Some outcome)) /\
  chainLog (snd finalized) = (chainLog w ++ [commitCall; finalizeCall])%list /\
  resolutions (snd finalized) !! marketId
  = Some (Resolution.mk (Some (Snapshot.id t0Snapshot)) (Some (Snapshot.id t1Snapshot))
            (Some t0Rank) (Some t1Rank) (Some outcome)
            (Some commitTx) (Some (clock E (S (ticks w)))) (Some disputeUntil)
            (Some finalizeTx) (Some (clock E' (S (S (S (S (ticks w)))))))).
Proof.
  cbv zeta.
  intros Hm Hnone Hd0 Hd1 Hs0 Hs1 Hh0 Hh1 Hv0 Hv1 Hp0 Hp1 Hok0 Ht0 Hok1 Ht1 Hr0 Hr1 Hcc Hacc
    Hsent Htx _ Hwin _ _ _ Hnow Hfin _.
  pose proof (findMarket_marketId _ _ _ Hm) as Hkey.
  set (t0Rank := Rank.extractRankBySongId t0Chart (Market.songId market)) in *.
  set (t1Rank := Rank.extractRankBySongId t1Chart (Market.songId market)) in *.
  set (patch := Resolution.mk (Some (Snapshot.id t0Snapshot)) (Some (Snapshot.id t1Snapshot))
                  (Some t0Rank) (Some t1Rank) (Some (Rank.computeOutcome t0Rank t1Rank))
                  None None None None None).
  (* prepare *)
  assert (Hplan : preparePlan P E data (markets w) (snapshots w)
                  = Ok (pMarketId data, patch,
                        mkPrepareResult (pMarketId data) t0Rank t1Rank
                          (Rank.computeOutcome t0Rank t1Rank)
                          (Snapshot.id t0Snapshot) (Snapshot.id t1Snapshot))).
  { unfold preparePlan, verified. rewrite Hm, Hd0, Hd1, Hh0, Hh1. cbn [negb].
    rewrite Hv0, Hv1. cbn [negb exc_bind]. rewrite Hp0, Hp1. cbn [exc_bind].
    rewrite Hok0, Hok1. cbn [exc_and exc_bind]. rewrite Ht0, Ht1, Hkey. reflexivity. }
  assert (Hprepared : run E (prepareResolveJob P cfg data) w
                      = (Ok (mkPrepareResult (pMarketId data) t0Rank t1Rank
                               (Rank.computeOutcome t0Rank t1Rank)
                               (Snapshot.id t0Snapshot) (Snapshot.id t1Snapshot)),
                         setResolutions (<[pMarketId data := patch]> (resolutions w)) w)).
  { rewrite run_prepareResolveJob, Hplan. unfold upserted. rewrite Hnone, Hm.
    unfold patch at 1 2 3 4 5.
    cbn [Resolution.t0Rank Resolution.t1Rank Resolution.outcome
         Resolution.t0SnapshotId Resolution.t1SnapshotId isSmallint references].
    rewrite !bool_decide_eq_true_2 by (rewrite ?Hs0, ?Hs1; eauto).
    replace ((-32768 <=? t0Rank) && (t0Rank <=? 32767)) with true by lia.
    replace ((-32768 <=? t1Rank) && (t1Rank <=? 32767)) with true by lia.
    replace ((-32768 <=? Rank.computeOutcome t0Rank t1Rank)
             && (Rank.computeOutcome t0Rank t1Rank <=? 32767)) with true
      by (unfold Rank.computeOutcome; destruct (t1Rank <? t0Rank); reflexivity).
    reflexivity. }
  rewrite Hprepared. cbn [fst snd].
  (* commit *)
  set (w1 := setResolutions (<[pMarketId data := patch]> (resolutions w)) w).
  set (call := CommitResolve (pMarketId data) commitment (evidenceOf t0Snapshot)).
  set (disputeUntil := clock E (ticks w) + seconds * 1000).
  set (row2 := Resolution.merge (commitPatch commitTx (clock E (S (ticks w))) disputeUntil)
                 patch).
  set (w2 := setResolutions (<[pMarketId data := row2]> (resolutions w1))
               (tick (tick (submit call w1)))).
  assert (Hcommitted : commitResolveOutcome P cfg E (pMarketId data) w1
                       = (Ok (Committed (pMarketId data) commitTx disputeUntil
                                (Rank.computeOutcome t0Rank t1Rank)),
                          notified cfg
                            ("✅ Resolution " +:+ "commit" +:+ " successful for market "
                             +:+ decimal (pMarketId data))
                            (Some (ResolutionSuccess (pMarketId data)
                                     (if Rank.computeOutcome t0Rank t1Rank =? 1
                                      then "YES" else "NO") "commit"
                                     (clock E (ticks w2))))
                            (tick w2))).
  { unfold commitResolveOutcome, w2, w1. cbn [markets resolutions setResolutions].
    rewrite Hm, lookup_insert_eq. unfold row2, patch.
    cbn [Resolution.outcome Resolution.commitTx Resolution.t0SnapshotId
         Resolution.t1SnapshotId truthyStr snapshotOf snapshots setResolutions].
    rewrite computeOutcome_truthy. cbn [negb]. rewrite Hs0, Hs1.
    unfold rowCommitment.
    cbn [Resolution.t0Rank Resolution.t1Rank Resolution.outcome from_option id].
    rewrite Hcc.
    unfold commitSending. rewrite Hacc. cbn [negb chainLog setResolutions].
    rewrite Hsent, Hwin. reflexivity. }
  rewrite run_commitResolveJob, Hcommitted. cbn [caught fst snd].
  (* finalize *)
  set (w2' := notified cfg _ _ (tick w2)).
  assert (Hw2m : markets w2' = markets w) by (unfold w2'; world; reflexivity).
  assert (Hw2s : snapshots w2' = snapshots w) by (unfold w2'; world; reflexivity).
  assert (Hw2r : resolutions w2' !! pMarketId data = Some row2).
  { unfold w2'. world. apply lookup_insert_eq. }
  assert (Hw2t : ticks w2' = S (S (S (ticks w)))) by (unfold w2'; world; reflexivity).
  assert (Hw2l : chainLog w2' = (chainLog w ++ [call])%list) by (unfold w2'; world; reflexivity).
  unfold call in Hw2l.
  rewrite run_finalizeResolveJob. unfold finalizeResolveOutcome.
  rewrite Hw2m, Hm, Hw2r. unfold row2, patch.
  cbn [Resolution.merge commitPatch Resolution.over Resolution.disputeUntil
       Resolution.commitTx Resolution.finalizeTx Resolution.t0SnapshotId
       Resolution.t1SnapshotId truthyStr].
  destruct (String.eqb_spec commitTx "") as [->|_]; [contradiction|]. cbn [negb].
  rewrite Hw2t.
  destruct (Z.ltb_spec (clock E' (S (S (S (ticks w))))) disputeUntil) as [Hlt|_]; [lia|].
  unfold snapshotOf. rewrite Hw2s, Hs0, Hs1.
  unfold finalizeSending. rewrite Hacc. cbn [negb chainLog tick].
  rewrite Hw2l.
  unfold finalizeCall.
  cbn [Resolution.merge commitPatch Resolution.over Resolution.outcome Resolution.t0Rank
       Resolution.t1Rank Resolution.t0SnapshotId Resolution.t1SnapshotId].
  rewrite Hfin. cbn [caught fst snd]. world.
  cbn [ticks tick]. rewrite Hw2l, Hw2t.
  repeat split.
  - rewrite <- app_assoc. reflexivity.
  - rewrite lookup_insert_eq. reflexivity.
Qed.

Lemma jobs_resolve_the_market_witness :
  resolutions
    (snd (run (mkEnv (fun n => 20000 + 1000 * Z.of_nat n) (http Fixture.env)
                 (chainWrite Fixture.env) (chainDisputeWindow Fixture.env))
            (finalizeResolveJob Fixture.config 42)
            (snd (run Fixture.env (commitResolveJob Fixture.platform Fixture.config 42)
                    (snd (run Fixture.env
                            (prepareResolveJob Fixture.platform Fixture.config
                               (mkPrepareData 42 "2024-01-15" "2024-01-22" None))
                            Fixture.world0)))))) !! 42
  = Some (Resolution.mk (Some 1) (Some 2) (Some 12) (Some 8) (Some 1)
            (Some "0xc001") (Some 1000) (Some 10000) (Some "0xf001") (Some 24000)).
Proof.
  pose (late := mkEnv (fun n => 20000 + 1000 * Z.of_nat n) (http Fixture.env)
                  (chainWrite Fixture.env) (chainDisputeWindow Fixture.env)).
  pose (chartOf := fun j => default Fixture.oddChart (Json.asSnapshot j)).
  pose proof (jobs_resolve_the_market Fixture.platform Fixture.config Fixture.env late
                Fixture.world0 (mkPrepareData 42 "2024-01-15" "2024-01-22" None)
                Fixture.market Fixture.snapshot0 Fixture.snapshot1 200 200
                (Fixture.body Fixture.chart0) (Fixture.body Fixture.chart1)
                Fixture.chart0 Fixture.chart1
                (chartOf Fixture.chart0) (chartOf Fixture.chart1)
                ("0x" +:+ Hex.encode Fixture.keccak01) "0xc001" "0xf001" 10) as Hall.
  cbv zeta in Hall.
  destruct Hall as (_ & _ & _ & _ & Hrow);
    [first [ vm_compute; reflexivity
           | discriminate
           | apply Z.leb_le; vm_compute; reflexivity
           | split; apply Z.leb_le; vm_compute; reflexivity ] .. |].
  etransitivity; [exact Hrow | vm_compute; reflexivity].
Defined.
